(** * Voice session core of [discord/voice_client.py]

    A shallow embedding of the [VoiceClient] class: the SSRC registry
    ([_set_ssrc], [_flip_ssrc], the [ssrc] property), the packet counters
    ([_checked_add]), the RTP framing and the three [xsalsa20_poly1305]
    encryption modes, the two signalling handlers
    ([on_voice_state_update], [on_voice_server_update]), the teardown
    ([disconnect]) and the supervisory loop ([poll_voice_ws]) together
    with the reconnect paths it calls.

    Conventions.
    - Python integers are [Z]; [bytes] and [bytearray] are [list byte].
    - The object [self] is the record [VoiceClient]; attribute assignment is
      a record update, and a method is a function in the monad [M], which
      threads the object and may raise.  An exception leaves the mutations
      made before it in place, as in Python.
    - Calls into collaborators that are not part of this file's source
      (the voice websocket, the signalling channel, the player, the UDP
      socket, the logger) are recorded, in order, in the field [trace];
      what they answer is an explicit input of the function that calls
      them. *)

From Stdlib Require Import ZArith Lia Ascii.
From Stdlib Require Strings.Byte.
From stdpp Require Import gmap strings list.

Local Open Scope Z_scope.

Abbreviation byte := Init.Byte.byte.

#[global] Instance byte_eq_dec : EqDecision byte := Byte.byte_eq_dec.

(** ** Exceptions and results *)

Inductive Exn : Type :=
| IndexError
| StructError
| TypeError
| AttributeError
| ValueError
| CryptoError
| OSError
| TimeoutError
| ConnectionClosed (code : Z).

Inductive Result (A : Type) : Type :=
| Return (a : A)
| Raise (e : Exn).
Arguments Return {A} a.
Arguments Raise {A} e.

Definition returns {A} (r : Result A) : bool :=
  match r with Return _ => true | Raise _ => false end.

Definition result_bind {A B} (r : Result A) (k : A → Result B) : Result B :=
  match r with
  | Return a => k a
  | Raise e => Raise e
  end.

(** ** Bytes, [struct] and slices *)

Definition Z_of_byte (b : byte) : Z := Z.of_N (Byte.to_N b).

Definition byte_of_Z (z : Z) : byte :=
  match Byte.of_N (Z.to_N (z mod 256)) with
  | Some b => b
  | None => Byte.x00
  end.

(** The [n] low-order bytes of [z], most significant first. *)
Fixpoint pack_be (n : nat) (z : Z) : list byte :=
  match n with
  | O => []
  | S k => byte_of_Z (z / 256 ^ Z.of_nat k) :: pack_be k z
  end.

Definition unpack_be (l : list byte) : Z :=
  fold_left (λ acc b, acc * 256 + Z_of_byte b) l 0.

(** [struct.pack('>H', z)] and [struct.pack('>I', z)]: [struct.error] when
    [z] does not fit the unsigned format. *)
Definition struct_pack_H (z : Z) : Result (list byte) :=
  if (0 <=? z) && (z <=? 65535) then Return (pack_be 2 z) else Raise StructError.

Definition struct_pack_I (z : Z) : Result (list byte) :=
  if (0 <=? z) && (z <=? 4294967295) then Return (pack_be 4 z) else Raise StructError.

(** [struct.unpack_from('>HH', data)]; needs four bytes. *)
Definition struct_unpack_from_HH (data : list byte) : Result (Z * Z) :=
  if (4 <=? length data)%nat
  then Return (unpack_be (take 2 data), unpack_be (take 2 (drop 2 data)))
  else Raise StructError.

(** [data[-n:]] and [data[:-n]] for [n > 0]. *)
Definition slice_last (n : nat) (data : list byte) : list byte :=
  drop (length data - n) data.

Definition slice_but_last (n : nat) (data : list byte) : list byte :=
  take (length data - n) data.

(** [bytearray(n)] *)
Definition bytearray (n : nat) : list byte := replicate n Byte.x00.

(** [buf[:n] = src]: the first [n] elements are replaced by all of [src]. *)
Definition slice_assign_prefix (n : nat) (src buf : list byte) : list byte :=
  src ++ drop n buf.

(** ** The PyNaCl secret box

    [nacl.secret.SecretBox] is a dependency, not part of the source.  It is
    an interface here: [box_encrypt key nonce msg] stands for
    [SecretBox(key).encrypt(msg, nonce).ciphertext] and
    [box_decrypt key nonce ct] for [SecretBox(key).decrypt(ct, nonce)];
    both may raise. *)

Class SecretBox : Type := {
  box_encrypt : list byte → list byte → list byte → Result (list byte);
  box_decrypt : list byte → list byte → list byte → Result (list byte)
}.

Definition KEY_SIZE : nat := 32.
Definition NONCE_SIZE : nat := 24.

Class SecretBoxLaws (SB : SecretBox) : Prop := {
  box_encrypt_returns : ∀ key nonce msg,
    length key = KEY_SIZE → length nonce = NONCE_SIZE →
    ∃ ct, box_encrypt key nonce msg = Return ct;
  box_decrypt_encrypt : ∀ key nonce msg ct,
    box_encrypt key nonce msg = Return ct →
    box_decrypt key nonce ct = Return msg
}.

(** ** The object *)

Inductive Mode : Type :=
| xsalsa20_poly1305_lite
| xsalsa20_poly1305_suffix
| xsalsa20_poly1305.

(** [supported_modes] *)
Definition supported_modes : list Mode :=
  [xsalsa20_poly1305_lite; xsalsa20_poly1305_suffix; xsalsa20_poly1305].

(** A channel object, as far as this file looks at it: its id. *)
Definition Channel : Type := Z.

(** The UDP socket made by [on_voice_server_update]. *)
Record Socket : Type := mkSocket {
  sock_blocking : bool;
  sock_closed : bool
}.

(** A voice websocket returned by [DiscordVoiceWebSocket.from_client]. *)
Record WebSocket : Type := mkWebSocket {
  ws_id : Z;
  ws_resume : bool
}.

Inductive LogRecord : Type :=
| LogIgnoringExtraneous
| LogAwaitingEndpoint
| LogHandshakeTerminated
| LogStartingHandshake (attempt : Z)
| LogHandshakeComplete (endpoint : option string)
| LogConnecting
| LogRetryingConnect
| LogDisconnectNormal (code : Z)
| LogPotentialResume (code : Z)
| LogResumeFailed
| LogPotentialReconnect (code : Z)
| LogReconnectFailed
| LogReconnectingIn (retry : Z)
| LogCouldNotConnect
| LogPacketDropped (seq ts : Z).

(** Methods whose entry is recorded in the trace. *)
Inductive Method : Type :=
| m_disconnect (force : bool)
| m_potential_resume
| m_potential_reconnect
| m_connect (reconnect : bool).

Inductive Event : Type :=
| EvLog (r : LogRecord)
| EvCall (m : Method)
| EvPlayerStop
| EvWsClose (code : option Z)
| EvChangeVoiceState (channel : option Channel)
| EvCleanup
| EvSocketClose
| EvSleep (seconds : Z)
| EvSendto (packet : list byte)
| EvCreateTask.

Record VoiceClient : Type := mkVoiceClient {
  user_id : Z;
  channel : option Channel;
  session_id : option string;
  token : option string;
  server_id : option Z;
  endpoint : option string;
  endpoint_ip : option string;
  timeout : Z;
  socket : option Socket;
  _connected : bool;
  _handshaking : bool;
  _potentially_reconnecting : bool;
  _voice_state_complete : bool;
  _voice_server_complete : bool;
  mode : option Mode;
  secret_key : list byte;
  _connections : Z;
  sequence : Z;
  timestamp : Z;
  _runner : bool;
  _lite_nonce : Z;
  ws : option WebSocket;
  idrcs : gmap Z Z;
  ssids : gmap Z Z;
  trace : list Event
}.

(** Attribute assignment [self.f = v], one function per attribute. *)

Definition set_channel (v : option Channel) (c : VoiceClient) : VoiceClient :=
  mkVoiceClient (user_id c) v (session_id c) (token c) (server_id c)
    (endpoint c) (endpoint_ip c) (timeout c) (socket c) (_connected c)
    (_handshaking c) (_potentially_reconnecting c) (_voice_state_complete c)
    (_voice_server_complete c) (mode c) (secret_key c) (_connections c)
    (sequence c) (timestamp c) (_runner c) (_lite_nonce c) (ws c) (idrcs c)
    (ssids c) (trace c).

Definition set_session_id (v : option string) (c : VoiceClient) : VoiceClient :=
  mkVoiceClient (user_id c) (channel c) v (token c) (server_id c) (endpoint c)
    (endpoint_ip c) (timeout c) (socket c) (_connected c) (_handshaking c)
    (_potentially_reconnecting c) (_voice_state_complete c)
    (_voice_server_complete c) (mode c) (secret_key c) (_connections c)
    (sequence c) (timestamp c) (_runner c) (_lite_nonce c) (ws c) (idrcs c)
    (ssids c) (trace c).

Definition set_token (v : option string) (c : VoiceClient) : VoiceClient :=
  mkVoiceClient (user_id c) (channel c) (session_id c) v (server_id c)
    (endpoint c) (endpoint_ip c) (timeout c) (socket c) (_connected c)
    (_handshaking c) (_potentially_reconnecting c) (_voice_state_complete c)
    (_voice_server_complete c) (mode c) (secret_key c) (_connections c)
    (sequence c) (timestamp c) (_runner c) (_lite_nonce c) (ws c) (idrcs c)
    (ssids c) (trace c).

Definition set_server_id (v : option Z) (c : VoiceClient) : VoiceClient :=
  mkVoiceClient (user_id c) (channel c) (session_id c) (token c) v
    (endpoint c) (endpoint_ip c) (timeout c) (socket c) (_connected c)
    (_handshaking c) (_potentially_reconnecting c) (_voice_state_complete c)
    (_voice_server_complete c) (mode c) (secret_key c) (_connections c)
    (sequence c) (timestamp c) (_runner c) (_lite_nonce c) (ws c) (idrcs c)
    (ssids c) (trace c).

Definition set_endpoint (v : option string) (c : VoiceClient) : VoiceClient :=
  mkVoiceClient (user_id c) (channel c) (session_id c) (token c) (server_id c)
    v (endpoint_ip c) (timeout c) (socket c) (_connected c) (_handshaking c)
    (_potentially_reconnecting c) (_voice_state_complete c)
    (_voice_server_complete c) (mode c) (secret_key c) (_connections c)
    (sequence c) (timestamp c) (_runner c) (_lite_nonce c) (ws c) (idrcs c)
    (ssids c) (trace c).

Definition set_endpoint_ip (v : option string) (c : VoiceClient) : VoiceClient :=
  mkVoiceClient (user_id c) (channel c) (session_id c) (token c) (server_id c)
    (endpoint c) v (timeout c) (socket c) (_connected c) (_handshaking c)
    (_potentially_reconnecting c) (_voice_state_complete c)
    (_voice_server_complete c) (mode c) (secret_key c) (_connections c)
    (sequence c) (timestamp c) (_runner c) (_lite_nonce c) (ws c) (idrcs c)
    (ssids c) (trace c).

Definition set_timeout (v : Z) (c : VoiceClient) : VoiceClient :=
  mkVoiceClient (user_id c) (channel c) (session_id c) (token c) (server_id c)
    (endpoint c) (endpoint_ip c) v (socket c) (_connected c) (_handshaking c)
    (_potentially_reconnecting c) (_voice_state_complete c)
    (_voice_server_complete c) (mode c) (secret_key c) (_connections c)
    (sequence c) (timestamp c) (_runner c) (_lite_nonce c) (ws c) (idrcs c)
    (ssids c) (trace c).

Definition set_socket (v : option Socket) (c : VoiceClient) : VoiceClient :=
  mkVoiceClient (user_id c) (channel c) (session_id c) (token c) (server_id c)
    (endpoint c) (endpoint_ip c) (timeout c) v (_connected c) (_handshaking c)
    (_potentially_reconnecting c) (_voice_state_complete c)
    (_voice_server_complete c) (mode c) (secret_key c) (_connections c)
    (sequence c) (timestamp c) (_runner c) (_lite_nonce c) (ws c) (idrcs c)
    (ssids c) (trace c).

Definition set_connected (v : bool) (c : VoiceClient) : VoiceClient :=
  mkVoiceClient (user_id c) (channel c) (session_id c) (token c) (server_id c)
    (endpoint c) (endpoint_ip c) (timeout c) (socket c) v (_handshaking c)
    (_potentially_reconnecting c) (_voice_state_complete c)
    (_voice_server_complete c) (mode c) (secret_key c) (_connections c)
    (sequence c) (timestamp c) (_runner c) (_lite_nonce c) (ws c) (idrcs c)
    (ssids c) (trace c).

Definition set_handshaking (v : bool) (c : VoiceClient) : VoiceClient :=
  mkVoiceClient (user_id c) (channel c) (session_id c) (token c) (server_id c)
    (endpoint c) (endpoint_ip c) (timeout c) (socket c) (_connected c) v
    (_potentially_reconnecting c) (_voice_state_complete c)
    (_voice_server_complete c) (mode c) (secret_key c) (_connections c)
    (sequence c) (timestamp c) (_runner c) (_lite_nonce c) (ws c) (idrcs c)
    (ssids c) (trace c).

Definition set_potentially_reconnecting (v : bool) (c : VoiceClient) : VoiceClient :=
  mkVoiceClient (user_id c) (channel c) (session_id c) (token c) (server_id c)
    (endpoint c) (endpoint_ip c) (timeout c) (socket c) (_connected c)
    (_handshaking c) v (_voice_state_complete c) (_voice_server_complete c)
    (mode c) (secret_key c) (_connections c) (sequence c) (timestamp c)
    (_runner c) (_lite_nonce c) (ws c) (idrcs c) (ssids c) (trace c).

Definition set_voice_state_complete (v : bool) (c : VoiceClient) : VoiceClient :=
  mkVoiceClient (user_id c) (channel c) (session_id c) (token c) (server_id c)
    (endpoint c) (endpoint_ip c) (timeout c) (socket c) (_connected c)
    (_handshaking c) (_potentially_reconnecting c) v
    (_voice_server_complete c) (mode c) (secret_key c) (_connections c)
    (sequence c) (timestamp c) (_runner c) (_lite_nonce c) (ws c) (idrcs c)
    (ssids c) (trace c).

Definition set_voice_server_complete (v : bool) (c : VoiceClient) : VoiceClient :=
  mkVoiceClient (user_id c) (channel c) (session_id c) (token c) (server_id c)
    (endpoint c) (endpoint_ip c) (timeout c) (socket c) (_connected c)
    (_handshaking c) (_potentially_reconnecting c) (_voice_state_complete c) v
    (mode c) (secret_key c) (_connections c) (sequence c) (timestamp c)
    (_runner c) (_lite_nonce c) (ws c) (idrcs c) (ssids c) (trace c).

Definition set_mode (v : option Mode) (c : VoiceClient) : VoiceClient :=
  mkVoiceClient (user_id c) (channel c) (session_id c) (token c) (server_id c)
    (endpoint c) (endpoint_ip c) (timeout c) (socket c) (_connected c)
    (_handshaking c) (_potentially_reconnecting c) (_voice_state_complete c)
    (_voice_server_complete c) v (secret_key c) (_connections c) (sequence c)
    (timestamp c) (_runner c) (_lite_nonce c) (ws c) (idrcs c) (ssids c)
    (trace c).

Definition set_secret_key (v : list byte) (c : VoiceClient) : VoiceClient :=
  mkVoiceClient (user_id c) (channel c) (session_id c) (token c) (server_id c)
    (endpoint c) (endpoint_ip c) (timeout c) (socket c) (_connected c)
    (_handshaking c) (_potentially_reconnecting c) (_voice_state_complete c)
    (_voice_server_complete c) (mode c) v (_connections c) (sequence c)
    (timestamp c) (_runner c) (_lite_nonce c) (ws c) (idrcs c) (ssids c)
    (trace c).

Definition set_connections (v : Z) (c : VoiceClient) : VoiceClient :=
  mkVoiceClient (user_id c) (channel c) (session_id c) (token c) (server_id c)
    (endpoint c) (endpoint_ip c) (timeout c) (socket c) (_connected c)
    (_handshaking c) (_potentially_reconnecting c) (_voice_state_complete c)
    (_voice_server_complete c) (mode c) (secret_key c) v (sequence c)
    (timestamp c) (_runner c) (_lite_nonce c) (ws c) (idrcs c) (ssids c)
    (trace c).

Definition set_sequence (v : Z) (c : VoiceClient) : VoiceClient :=
  mkVoiceClient (user_id c) (channel c) (session_id c) (token c) (server_id c)
    (endpoint c) (endpoint_ip c) (timeout c) (socket c) (_connected c)
    (_handshaking c) (_potentially_reconnecting c) (_voice_state_complete c)
    (_voice_server_complete c) (mode c) (secret_key c) (_connections c) v
    (timestamp c) (_runner c) (_lite_nonce c) (ws c) (idrcs c) (ssids c)
    (trace c).

Definition set_timestamp (v : Z) (c : VoiceClient) : VoiceClient :=
  mkVoiceClient (user_id c) (channel c) (session_id c) (token c) (server_id c)
    (endpoint c) (endpoint_ip c) (timeout c) (socket c) (_connected c)
    (_handshaking c) (_potentially_reconnecting c) (_voice_state_complete c)
    (_voice_server_complete c) (mode c) (secret_key c) (_connections c)
    (sequence c) v (_runner c) (_lite_nonce c) (ws c) (idrcs c) (ssids c)
    (trace c).

Definition set_runner (v : bool) (c : VoiceClient) : VoiceClient :=
  mkVoiceClient (user_id c) (channel c) (session_id c) (token c) (server_id c)
    (endpoint c) (endpoint_ip c) (timeout c) (socket c) (_connected c)
    (_handshaking c) (_potentially_reconnecting c) (_voice_state_complete c)
    (_voice_server_complete c) (mode c) (secret_key c) (_connections c)
    (sequence c) (timestamp c) v (_lite_nonce c) (ws c) (idrcs c) (ssids c)
    (trace c).

Definition set_lite_nonce (v : Z) (c : VoiceClient) : VoiceClient :=
  mkVoiceClient (user_id c) (channel c) (session_id c) (token c) (server_id c)
    (endpoint c) (endpoint_ip c) (timeout c) (socket c) (_connected c)
    (_handshaking c) (_potentially_reconnecting c) (_voice_state_complete c)
    (_voice_server_complete c) (mode c) (secret_key c) (_connections c)
    (sequence c) (timestamp c) (_runner c) v (ws c) (idrcs c) (ssids c)
    (trace c).

Definition set_ws (v : option WebSocket) (c : VoiceClient) : VoiceClient :=
  mkVoiceClient (user_id c) (channel c) (session_id c) (token c) (server_id c)
    (endpoint c) (endpoint_ip c) (timeout c) (socket c) (_connected c)
    (_handshaking c) (_potentially_reconnecting c) (_voice_state_complete c)
    (_voice_server_complete c) (mode c) (secret_key c) (_connections c)
    (sequence c) (timestamp c) (_runner c) (_lite_nonce c) v (idrcs c)
    (ssids c) (trace c).

Definition set_idrcs (v : gmap Z Z) (c : VoiceClient) : VoiceClient :=
  mkVoiceClient (user_id c) (channel c) (session_id c) (token c) (server_id c)
    (endpoint c) (endpoint_ip c) (timeout c) (socket c) (_connected c)
    (_handshaking c) (_potentially_reconnecting c) (_voice_state_complete c)
    (_voice_server_complete c) (mode c) (secret_key c) (_connections c)
    (sequence c) (timestamp c) (_runner c) (_lite_nonce c) (ws c) v (ssids c)
    (trace c).

Definition set_ssids (v : gmap Z Z) (c : VoiceClient) : VoiceClient :=
  mkVoiceClient (user_id c) (channel c) (session_id c) (token c) (server_id c)
    (endpoint c) (endpoint_ip c) (timeout c) (socket c) (_connected c)
    (_handshaking c) (_potentially_reconnecting c) (_voice_state_complete c)
    (_voice_server_complete c) (mode c) (secret_key c) (_connections c)
    (sequence c) (timestamp c) (_runner c) (_lite_nonce c) (ws c) (idrcs c) v
    (trace c).

Definition set_trace (v : list Event) (c : VoiceClient) : VoiceClient :=
  mkVoiceClient (user_id c) (channel c) (session_id c) (token c) (server_id c)
    (endpoint c) (endpoint_ip c) (timeout c) (socket c) (_connected c)
    (_handshaking c) (_potentially_reconnecting c) (_voice_state_complete c)
    (_voice_server_complete c) (mode c) (secret_key c) (_connections c)
    (sequence c) (timestamp c) (_runner c) (_lite_nonce c) (ws c) (idrcs c)
    (ssids c) v.

(** [VoiceClient.__init__].  The attributes that [__init__] does not
    assign ([session_id], [server_id], [endpoint], [endpoint_ip],
    [timeout], [secret_key]) start absent: [None], [0] or the empty key. *)
Definition init (uid : Z) (ch : option Channel) : VoiceClient :=
  mkVoiceClient uid ch None None None None None 0 None false false false
    false false None [] 0 0 0 false 0 None ∅ ∅ [].

(** ** The monad of methods *)

Definition M (A : Type) : Type := VoiceClient → Result A * VoiceClient.

Definition ret {A} (a : A) : M A := λ c, (Return a, c).

Definition raise {A} (e : Exn) : M A := λ c, (Raise e, c).

Definition bind {A B} (m : M A) (k : A → M B) : M B :=
  λ c, match m c with
       | (Return a, c') => k a c'
       | (Raise e, c') => (Raise e, c')
       end.

Notation "'let*' x ':=' m 'in' k" := (bind m (λ x, k))
  (at level 10, x name, m at level 100, k at level 200,
   format "'[v' 'let*'  x  ':='  m  'in' '/' k ']'").
Notation "m ';;' k" := (bind m (λ _, k))
  (at level 100, k at level 200, right associativity).

Definition get : M VoiceClient := λ c, (Return c, c).

Definition modify (f : VoiceClient → VoiceClient) : M unit :=
  λ c, (Return tt, f c).

Definition lift {A} (r : Result A) : M A := λ c, (r, c).

(** A collaborator call or a log line. *)
Definition emit (e : Event) : M unit :=
  modify (λ c, set_trace (trace c ++ [e]) c).

(** [try: m  except <the exceptions h is defined on>: h e] *)
Definition try_except {A} (m : M A) (h : Exn → option (M A)) : M A :=
  λ c, match m c with
       | (Return a, c') => (Return a, c')
       | (Raise e, c') =>
           match h e with
           | Some k => k c'
           | None => (Raise e, c')
           end
       end.

(** [try: m  finally: f] *)
Definition try_finally {A} (m : M A) (f : M unit) : M A :=
  λ c, match m c with
       | (r, c') =>
           match f c' with
           | (Return _, c'') => (r, c'')
           | (Raise e, c'') => (Raise e, c'')
           end
       end.

(** The object after a method, and what the method answered. *)
Definition exec {A} (m : M A) (c : VoiceClient) : VoiceClient := (m c).2.
Definition answer {A} (m : M A) (c : VoiceClient) : Result A := (m c).1.

(** ** SSRC registry *)

(** The property [ssrc]: [self.idrcs.get(self.user.id)]. *)
Definition ssrc (c : VoiceClient) : option Z := idrcs c !! user_id c.

(** The setter of [ssrc]. *)
Definition ssrc_setter (value : Z) (c : VoiceClient) : VoiceClient :=
  let c := set_idrcs (<[user_id c := value]> (idrcs c)) c in
  set_ssids (<[value := user_id c]> (ssids c)) c.

Definition _flip_ssrc (query : Z) (c : VoiceClient) : option Z :=
  let value := idrcs c !! query in
  match value with
  | None => ssids c !! query
  | Some _ => value
  end.

Definition _set_ssrc (user_id ssrc : Z) (c : VoiceClient) : VoiceClient :=
  let c := set_idrcs (<[user_id := ssrc]> (idrcs c)) c in
  set_ssids (<[ssrc := user_id]> (ssids c)) c.

(** ** Counters *)

(** The attribute names that [_checked_add] is called with. *)
Inductive Attr : Type := attr_sequence | attr_timestamp | attr_lite_nonce.

Definition getattr (a : Attr) (c : VoiceClient) : Z :=
  match a with
  | attr_sequence => sequence c
  | attr_timestamp => timestamp c
  | attr_lite_nonce => _lite_nonce c
  end.

Definition setattr (a : Attr) (v : Z) (c : VoiceClient) : VoiceClient :=
  match a with
  | attr_sequence => set_sequence v c
  | attr_timestamp => set_timestamp v c
  | attr_lite_nonce => set_lite_nonce v c
  end.

Definition _checked_add (attr : Attr) (value limit : Z) (c : VoiceClient)
  : VoiceClient :=
  let val := getattr attr c in
  if val + value >? limit then setattr attr 0 c
  else setattr attr (val + value) c.

(** [opus.Encoder.SAMPLES_PER_FRAME]; the module [opus] is a dependency. *)
Class OpusEncoder : Type := { SAMPLES_PER_FRAME : Z }.

(** ** RTP packet codec *)

Definition _strip_header (data : list byte) : Result (list byte) :=
  match data !! 0%nat with
  | None => Raise IndexError
  | Some b0 =>
      if Byte.eqb b0 Byte.xbe then
        match data !! 1%nat with
        | None => Raise IndexError
        | Some b1 =>
            if Byte.eqb b1 Byte.xde && (4 <? length data)%nat then
              result_bind (struct_unpack_from_HH data) (λ '(_, length),
                let offset := 4 + length * 4 in
                Return (drop (Z.to_nat offset) data))
            else Return data
        end
      else Return data
  end.

(** [struct.pack_into(fmt, buf, offset, v)], given the packed bytes. *)
Definition pack_into (offset : nat) (packed buf : list byte) : list byte :=
  take offset buf ++ packed ++ drop (offset + length packed) buf.

(** [SecretBox(bytes(key))]: refused unless the key has [KEY_SIZE] bytes. *)
Definition new_box (key : list byte) : Result (list byte) :=
  if decide (length key = KEY_SIZE) then Return key else Raise ValueError.

(** Python has two types of byte strings, the immutable [bytes] and the
    mutable [bytearray].  A slice has the type of what is sliced, [bytes(x)]
    is a [bytes], and [a + b] has the type of [a].  The openers receive
    their [data] with its type: one of them hands a slice of it to PyNaCl
    without a conversion. *)
Inductive BytesType : Type := t_bytes | t_bytearray.

Record Buffer : Type := mkBuffer {
  buf_type : BytesType;
  buf_bytes : list byte
}.

(** The packet as [_get_voice_packet] returns it: the header is a
    [bytearray] (line 725) and every sealer returns [header + ...]. *)
Definition as_built (packet : list byte) : Buffer :=
  mkBuffer t_bytearray packet.

Section Encryption.
Context {SB : SecretBox}.

(** [box.decrypt(ciphertext, nonce)] with the nonce as the caller holds it.
    PyNaCl compares the length of the nonce with [NONCE_SIZE]
    ([ValueError]) and hands it to its binding, which takes a [bytes]
    only: a [bytearray] is a [TypeError]. *)
Definition box_decrypt_as_held (box : list byte) (nonce : Buffer)
  (ciphertext : list byte) : Result (list byte) :=
  if decide (length (buf_bytes nonce) = NONCE_SIZE) then
    match buf_type nonce with
    | t_bytes => box_decrypt box (buf_bytes nonce) ciphertext
    | t_bytearray => Raise TypeError
    end
  else Raise ValueError.

Definition _encrypt_xsalsa20_poly1305 (header data : list byte)
  : M (list byte) :=
  let* c := get in
  let* box := lift (new_box (secret_key c)) in
  let nonce := bytearray 24 in
  let nonce := slice_assign_prefix 12 header nonce in
  let* ciphertext := lift (box_encrypt box nonce data) in
  ret (header ++ ciphertext).

Definition _decrypt_xsalsa20_poly1305 (header : list byte) (data : Buffer)
  : M (list byte) :=
  let* c := get in
  let* box := lift (new_box (secret_key c)) in
  let nonce := bytearray 24 in
  let nonce := slice_assign_prefix 12 header nonce in
  let* plain := lift (box_decrypt box nonce (buf_bytes data)) in
  lift (_strip_header plain).

(** [random] is what [nacl.utils.random(NONCE_SIZE)] answers. *)
Definition _encrypt_xsalsa20_poly1305_suffix (random : list byte)
  (header data : list byte) : M (list byte) :=
  let* c := get in
  let* box := lift (new_box (secret_key c)) in
  let nonce := random in
  let* ciphertext := lift (box_encrypt box nonce data) in
  ret (header ++ ciphertext ++ nonce).

(** The nonce is the slice [data[-nonce_size:]], of the type of [data],
    and goes to [box.decrypt] as it is; the two other openers pass
    [bytes(nonce)]. *)
Definition _decrypt_xsalsa20_poly1305_suffix (header : list byte)
  (data : Buffer) : M (list byte) :=
  let* c := get in
  let* box := lift (new_box (secret_key c)) in
  let nonce_size := NONCE_SIZE in
  let nonce :=
    mkBuffer (buf_type data) (slice_last nonce_size (buf_bytes data)) in
  let* plain :=
    lift (box_decrypt_as_held box nonce
            (slice_but_last nonce_size (buf_bytes data))) in
  lift (_strip_header plain).

Definition _encrypt_xsalsa20_poly1305_lite (header data : list byte)
  : M (list byte) :=
  let* c := get in
  let* box := lift (new_box (secret_key c)) in
  let nonce := bytearray 24 in
  let* packed := lift (struct_pack_I (_lite_nonce c)) in
  let nonce := slice_assign_prefix 4 packed nonce in
  modify (_checked_add attr_lite_nonce 1 4294967295);;
  let* ciphertext := lift (box_encrypt box nonce data) in
  ret (header ++ ciphertext ++ take 4 nonce).

Definition _decrypt_xsalsa20_poly1305_lite (header : list byte)
  (data : Buffer) : M (list byte) :=
  let* c := get in
  let* box := lift (new_box (secret_key c)) in
  let nonce := bytearray 24 in
  let nonce := slice_assign_prefix 4 (slice_last 4 (buf_bytes data)) nonce in
  let data := slice_but_last 4 (buf_bytes data) in
  let* plain := lift (box_decrypt box nonce data) in
  lift (_strip_header plain).

(** [getattr(self, '_encrypt_' + self.mode)] and its [_decrypt_] mirror. *)
Definition encrypt_packet (m : Mode) (random : list byte)
  : list byte → list byte → M (list byte) :=
  match m with
  | xsalsa20_poly1305 => _encrypt_xsalsa20_poly1305
  | xsalsa20_poly1305_suffix => _encrypt_xsalsa20_poly1305_suffix random
  | xsalsa20_poly1305_lite => _encrypt_xsalsa20_poly1305_lite
  end.

Definition decrypt_packet (m : Mode)
  : list byte → Buffer → M (list byte) :=
  match m with
  | xsalsa20_poly1305 => _decrypt_xsalsa20_poly1305
  | xsalsa20_poly1305_suffix => _decrypt_xsalsa20_poly1305_suffix
  | xsalsa20_poly1305_lite => _decrypt_xsalsa20_poly1305_lite
  end.

(** The twelve bytes of the RTP header, as [_get_voice_packet] fills
    them in. *)
Definition rtp_header : M (list byte) :=
  let* c := get in
  let header := bytearray 12 in
  let header := <[0%nat := Byte.x80]> header in
  let header := <[1%nat := Byte.x78]> header in
  let* seq := lift (struct_pack_H (sequence c)) in
  let header := pack_into 2 seq header in
  let* ts := lift (struct_pack_I (timestamp c)) in
  let header := pack_into 4 ts header in
  let* src := lift (match ssrc c with
                    | Some v => struct_pack_I v
                    | None => Raise StructError
                    end) in
  let header := pack_into 8 src header in
  ret header.

Definition _get_voice_packet (random : list byte) (data : list byte)
  : M (list byte) :=
  let* header := rtp_header in
  let* c := get in
  match mode c with
  | None => raise TypeError
  | Some m => encrypt_packet m random header data
  end.

(** Modelled from the spec: the caller that receives a packet is not in
    the source; section 4.4 has it split the 12-byte header from the
    remainder and hand both to the open operation of the active mode
    (the [_decrypt_] methods above, which end in [_strip_header]).  The
    two slices have the type of the packet. *)
Definition parse_inbound_packet (packet : Buffer) : M (list byte) :=
  let* c := get in
  match mode c with
  | None => raise TypeError
  | Some m =>
      decrypt_packet m (take 12 (buf_bytes packet))
        (mkBuffer (buf_type packet) (drop 12 (buf_bytes packet)))
  end.

Context {OE : OpusEncoder}.

(** What [self.socket.sendto] does on one call. *)
Inductive Sendto : Type :=
| SendtoDone
| SendtoBlockingIOError
| SendtoRaises (e : Exn).

Definition send_audio_packet (random : list byte) (io : Sendto)
  (data : list byte) : M unit :=
  modify (_checked_add attr_sequence 1 65535);;
  let* packet := _get_voice_packet random data in
  let* c := get in
  match socket c with
  | None => raise AttributeError
  | Some _ =>
      match io with
      | SendtoDone => emit (EvSendto packet)
      | SendtoBlockingIOError =>
          emit (EvLog (LogPacketDropped (sequence c) (timestamp c)))
      | SendtoRaises e => raise e
      end
  end;;
  modify (_checked_add attr_timestamp SAMPLES_PER_FRAME 4294967295).

End Encryption.


(** ** Signalling payloads *)

(** The [VOICE_STATE_UPDATE] payload: [data['session_id']] and
    [data['channel_id']], the latter [None] or a snowflake. *)
Record VoiceStateData : Type := mkVoiceStateData {
  vs_session_id : string;
  vs_channel_id : option Z
}.

(** The [VOICE_SERVER_UPDATE] payload: [data.get('token')],
    [utils._get_as_snowflake(data, 'guild_id')],
    [utils._get_as_snowflake(data, 'channel_id')] and
    [data.get('endpoint')]. *)
Record VoiceServerData : Type := mkVoiceServerData {
  vsrv_token : option string;
  vsrv_guild_id : option Z;
  vsrv_channel_id : option Z;
  vsrv_endpoint : option string
}.

(** The object cache of the library: [guild.get_channel] and
    [self._state._get_private_channel], and the guild a channel belongs
    to ([getattr(channel, 'guild', None)]). *)
Class StateCache : Type := {
  guild_of : Channel → option Z;
  get_channel : Z → Z → option Channel;
  _get_private_channel : Z → option Channel
}.

(** ** Strings of the endpoint *)

Fixpoint contains_char (ch : Ascii.ascii) (s : string) : bool :=
  match s with
  | EmptyString => false
  | String a rest => if Ascii.eqb a ch then true else contains_char ch rest
  end.

(** The first component of [s.rpartition(sep)]: what comes before the last
    [sep], or the empty string when there is none. *)
Fixpoint rpartition_head (sep : Ascii.ascii) (s : string) : string :=
  match s with
  | EmptyString => EmptyString
  | String a rest =>
      if contains_char sep rest then String a (rpartition_head sep rest)
      else EmptyString
  end.

(** [s[n:]] *)
Fixpoint string_drop (n : nat) (s : string) : string :=
  match n, s with
  | O, _ => s
  | S _, EmptyString => EmptyString
  | S k, String _ rest => string_drop k rest
  end.

Definition endpoint_host (endpoint : string) : string :=
  let host := rpartition_head ":"%char endpoint in
  if String.prefix "wss://" host then string_drop 6 host else host.

(** ** Connection handling *)

Section Connection.
Context {SC : StateCache}.

(** The property [guild]. *)
Definition guild (c : VoiceClient) : option Z :=
  match channel c with
  | Some ch => guild_of ch
  | None => None
  end.

Definition voice_connect : M unit :=
  let* c := get in
  emit (EvChangeVoiceState (channel c)).

(** [self.channel.id] is read for the log line first. *)
Definition voice_disconnect : M unit :=
  let* c := get in
  match channel c with
  | None => raise AttributeError
  | Some _ =>
      emit (EvLog LogHandshakeTerminated);;
      emit (EvChangeVoiceState None)
  end.

(** [VoiceProtocol.cleanup] *)
Definition cleanup : M unit :=
  let* c := get in
  match channel c with
  | None => raise AttributeError
  | Some _ => emit EvCleanup
  end.

Definition is_connected (c : VoiceClient) : bool := _connected c.

Definition disconnect (force : bool) : M unit :=
  emit (EvCall (m_disconnect force));;
  let* c := get in
  if negb force && negb (is_connected c) then ret tt
  else
    emit EvPlayerStop;;
    modify (set_connected false);;
    try_finally
      (let* c := get in
       match ws c with
       | Some _ => emit (EvWsClose None)
       | None => ret tt
       end;;
       voice_disconnect)
      (cleanup;;
       let* c := get in
       match socket c with
       | Some s =>
           modify (set_socket (Some (mkSocket (sock_blocking s) true)));;
           emit EvSocketClose
       | None => ret tt
       end).

Definition on_voice_state_update (data : VoiceStateData) : M unit :=
  modify (set_session_id (Some (vs_session_id data)));;
  let channel_id := vs_channel_id data in
  let* c := get in
  if negb (_handshaking c) || _potentially_reconnecting c then
    match channel_id with
    | None => disconnect false
    | Some id =>
        match guild c with
        | Some g => modify (set_channel (get_channel g id))
        | None => modify (set_channel (_get_private_channel id))
        end
    end
  else modify (set_voice_state_complete true).

Definition on_voice_server_update (data : VoiceServerData) : M unit :=
  let* c := get in
  if _voice_server_complete c then emit (EvLog LogIgnoringExtraneous)
  else
    modify (set_token (vsrv_token data));;
    let server_id := vsrv_guild_id data in
    modify (set_server_id server_id);;
    match server_id with
    | None => modify (set_server_id (vsrv_channel_id data))
    | Some _ => ret tt
    end;;
    let endpoint := vsrv_endpoint data in
    let* c := get in
    match endpoint, token c with
    | Some endpoint, Some _ =>
        modify (set_endpoint (Some (endpoint_host endpoint)));;
        modify (set_endpoint_ip None);;
        modify (set_socket (Some (mkSocket false false)));;
        let* c := get in
        if negb (_handshaking c) then
          match ws c with
          | Some _ => emit (EvWsClose (Some 4000))
          | None => raise AttributeError
          end
        else modify (set_voice_server_complete true)
    | _, _ => emit (EvLog LogAwaitingEndpoint)
    end.

Definition prepare_handshake : M unit :=
  modify (set_voice_state_complete false);;
  modify (set_voice_server_complete false);;
  modify (set_handshaking true);;
  let* c := get in
  emit (EvLog (LogStartingHandshake (_connections c + 1)));;
  modify (set_connections (_connections c + 1)).

Definition finish_handshake : M unit :=
  let* c := get in
  emit (EvLog (LogHandshakeComplete (endpoint c)));;
  modify (set_handshaking false);;
  modify (set_voice_server_complete false);;
  modify (set_voice_state_complete false).

End Connection.

(** ** Reconnecting and the supervisory loop *)

(** What one call of [connect_websocket] meets: the websocket opens and is
    polled until it has a secret key, or [from_client] raises, or a
    [poll_event] of the new websocket raises. *)
Inductive WsOpen : Type :=
| WsOpened (id : Z)
| WsFromClientRaises (e : Exn)
| WsPollRaises (e : Exn).

(** A signalling notification handed to the client while it waits. *)
Inductive Delivery : Type :=
| VoiceStateUpdate (data : VoiceStateData)
| VoiceServerUpdate (data : VoiceServerData).

(** One pass of [for i in range(5)] in [connect]: the notifications that
    arrive during the wait, and the fate of the websocket. *)
Record Attempt : Type := mkAttempt {
  att_deliveries : list Delivery;
  att_open : WsOpen
}.

(** What [self.ws.poll_event()] does on one call. *)
Inductive PollEvent : Type :=
| PollDone
| PollRaises (e : Exn).

(** Everything one pass of the loop of [poll_voice_ws] can ask of its
    surroundings. *)
Record Iteration : Type := mkIteration {
  it_poll : PollEvent;
  it_resume : WsOpen;
  it_deliveries : list Delivery;
  it_open : WsOpen;
  it_retry : Z;
  it_connect : Z → Attempt
}.

Inductive Loop : Type := Continue | Break.

Inductive LoopExit : Type := Exited | StillPolling.

(** [except (ConnectionClosed, asyncio.TimeoutError)] *)
Definition closed_or_timeout (e : Exn) : bool :=
  match e with
  | ConnectionClosed _ | TimeoutError => true
  | _ => false
  end.

Section Supervision.
Context {SC : StateCache}.

Definition connect_websocket (resume : bool) (o : WsOpen) : M WebSocket :=
  match o with
  | WsFromClientRaises e => raise e
  | WsPollRaises e => modify (set_connected false);; raise e
  | WsOpened id =>
      let ws := mkWebSocket id resume in
      modify (set_connected false);;
      modify (set_connected true);;
      ret ws
  end.

(** The handler of a notification runs as a task of its own: what it
    raises does not reach the method that is waiting. *)
Definition deliver (d : Delivery) : M unit :=
  λ c, (Return tt,
        match d with
        | VoiceStateUpdate data => exec (on_voice_state_update data) c
        | VoiceServerUpdate data => exec (on_voice_server_update data) c
        end).

(** Waiting for a condition with a timeout: the notifications are handled
    one by one until the condition holds; when they run out first, the
    wait times out.  The answer is whether the condition was met. *)
Fixpoint wait_for (cond : VoiceClient → bool) (ds : list Delivery) : M bool :=
  λ c, if cond c then (Return true, c)
       else match ds with
            | [] => (Return false, c)
            | d :: ds' => wait_for cond ds' (exec (deliver d) c)
            end.

Definition potential_reconnect (ds : list Delivery) (o : WsOpen) : M bool :=
  emit (EvCall m_potential_reconnect);;
  modify (set_connected false);;
  prepare_handshake;;
  modify (set_potentially_reconnecting true);;
  let* completed := wait_for _voice_server_complete ds in
  if negb completed then
    modify (set_potentially_reconnecting false);;
    disconnect true;;
    ret false
  else
    finish_handshake;;
    modify (set_potentially_reconnecting false);;
    try_except
      (let* w := connect_websocket false o in
       modify (set_ws (Some w));;
       ret true)
      (λ e, if closed_or_timeout e then Some (ret false) else None).

Definition potential_resume (o : WsOpen) : M bool :=
  emit (EvCall m_potential_resume);;
  modify (set_connected false);;
  modify (set_potentially_reconnecting true);;
  try_finally
    (try_except
       (let* w := connect_websocket true o in
        modify (set_ws (Some w));;
        ret true)
       (λ e, if closed_or_timeout e then Some (ret false) else None))
    (modify (set_potentially_reconnecting false)).

(** The passes [i, i+1, ...] of [for i in range(5)], [left] of them. *)
Fixpoint connect_attempts (reconnect : bool) (env : Z → Attempt)
  (left : nat) (i : Z) : M unit :=
  match left with
  | O => ret tt
  | S left' =>
      prepare_handshake;;
      voice_connect;;
      let* completed :=
        wait_for (λ c, _voice_state_complete c && _voice_server_complete c)
          (att_deliveries (env i)) in
      if negb completed then disconnect true;; raise TimeoutError
      else
        finish_handshake;;
        let* opened :=
          try_except
            (let* w := connect_websocket false (att_open (env i)) in
             modify (set_ws (Some w));;
             ret true)
            (λ e, if closed_or_timeout e then
                    Some (if reconnect then
                            emit (EvLog LogRetryingConnect);;
                            emit (EvSleep (1 + i * 2));;
                            voice_disconnect;;
                            ret false
                          else disconnect true;; raise e)
                  else None) in
        if opened : bool then ret tt
        else connect_attempts reconnect env left' (i + 1)
  end.

Definition connect (reconnect : bool) (timeout : Z) (env : Z → Attempt)
  : M unit :=
  emit (EvCall (m_connect reconnect));;
  emit (EvLog LogConnecting);;
  modify (set_timeout timeout);;
  connect_attempts reconnect env 5 0;;
  let* c := get in
  if _runner c then ret tt
  else emit EvCreateTask;; modify (set_runner true).

(** One pass of [while True] in [poll_voice_ws]. *)
Definition poll_iteration (reconnect : bool) (it : Iteration) : M Loop :=
  let* c := get in
  match ws c with
  | None => raise AttributeError
  | Some _ =>
      match it_poll it with
      | PollDone => ret Continue
      | PollRaises exc =>
          if closed_or_timeout exc then
            let* handled :=
              match exc with
              | ConnectionClosed code =>
                  if code =? 1000 then
                    emit (EvLog (LogDisconnectNormal code));;
                    disconnect false;;
                    ret (Some Break)
                  else if code =? 4015 then
                    emit (EvLog (LogPotentialResume code));;
                    let* successful := potential_resume (it_resume it) in
                    if negb successful then
                      emit (EvLog LogResumeFailed);;
                      disconnect false;;
                      ret (Some Break)
                    else ret (Some Continue)
                  else if code =? 4014 then
                    emit (EvLog (LogPotentialReconnect code));;
                    let* successful :=
                      potential_reconnect (it_deliveries it) (it_open it) in
                    if negb successful then
                      emit (EvLog LogReconnectFailed);;
                      disconnect false;;
                      ret (Some Break)
                    else ret (Some Continue)
                  else ret None
              | _ => ret None
              end in
            match handled with
            | Some l => ret l
            | None =>
                if negb reconnect then disconnect false;; raise exc
                else
                  let retry := it_retry it in
                  emit (EvLog (LogReconnectingIn retry));;
                  modify (set_connected false);;
                  emit (EvSleep retry);;
                  let* c := get in
                  try_except
                    (connect true (timeout c) (it_connect it);;
                     ret Continue)
                    (λ e, match e with
                          | TimeoutError =>
                              Some (emit (EvLog LogCouldNotConnect);;
                                    ret Continue)
                          | _ => None
                          end)
          end
          else raise exc
      end
  end.

(** The loop, for as many passes as there are inputs: it has [Exited] by
    [break], or is [StillPolling] when the inputs run out. *)
Fixpoint poll_voice_ws (reconnect : bool) (its : list Iteration)
  : M LoopExit :=
  match its with
  | [] => ret StillPolling
  | it :: rest =>
      let* l := poll_iteration reconnect it in
      match l with
      | Break => ret Exited
      | Continue => poll_voice_ws reconnect rest
      end
  end.

End Supervision.


(** ** Runs of operations *)

(** The two ways the registry is written. *)
Inductive RegistryOp : Type :=
| op_set_ssrc (user_id ssrc : Z)
| op_ssrc_setter (value : Z).

Definition apply_op (o : RegistryOp) (c : VoiceClient) : VoiceClient :=
  match o with
  | op_set_ssrc u s => _set_ssrc u s c
  | op_ssrc_setter v => ssrc_setter v c
  end.

Definition run_ops (ops : list RegistryOp) (c : VoiceClient) : VoiceClient :=
  fold_left (λ c o, apply_op o c) ops c.

(** The pair an operation writes, for a client whose own identity is
    [uid]. *)
Definition op_pair (uid : Z) (o : RegistryOp) : Z * Z :=
  match o with
  | op_set_ssrc u s => (u, s)
  | op_ssrc_setter v => (uid, v)
  end.

(** No stream id is given to two different identities. *)
Definition no_shared_ssrc (uid : Z) (ops : list RegistryOp) : Prop :=
  ∀ o1 o2, o1 ∈ ops → o2 ∈ ops →
    (op_pair uid o1).2 = (op_pair uid o2).2 →
    (op_pair uid o1).1 = (op_pair uid o2).1.


(** One call of [send_audio_packet]: the random bytes it draws (used in
    the suffix mode), what the socket does, and the payload. *)
Record Call : Type := mkCall {
  call_random : list byte;
  call_io : Sendto;
  call_data : list byte
}.

(** Calls in a row; the first exception ends the run. *)
Fixpoint send_all {SB : SecretBox} {OE : OpusEncoder} (calls : list Call)
  : M unit :=
  match calls with
  | [] => ret tt
  | k :: rest =>
      send_audio_packet (call_random k) (call_io k) (call_data k);;
      send_all rest
  end.

(** A client that has what [send_audio_packet] reads: a mode, a key of
    the right size, its own ssrc in the 32-bit range, a socket, and a lite
    counter in the 32-bit range. *)
Definition sendable (c : VoiceClient) : Prop :=
  is_Some (mode c) ∧
  length (secret_key c) = KEY_SIZE ∧
  (∃ v, ssrc c = Some v ∧ 0 ≤ v ≤ 4294967295) ∧
  is_Some (socket c) ∧
  0 ≤ _lite_nonce c ≤ 4294967295.

(** A call whose random bytes have the nonce size and whose socket either
    sends or would block. *)
Definition benign (k : Call) : Prop :=
  length (call_random k) = NONCE_SIZE ∧
  (call_io k = SendtoDone ∨ call_io k = SendtoBlockingIOError).

(** The object after the encryption of one packet in mode [m]. *)
Definition after_encrypt (m : Mode) (c : VoiceClient) : VoiceClient :=
  match m with
  | xsalsa20_poly1305_lite => _checked_add attr_lite_nonce 1 4294967295 c
  | _ => c
  end.

(** The header bytes for given counters and ssrc. *)
Definition header_bytes (seq ts src : Z) : list byte :=
  [Byte.x80; Byte.x78] ++ pack_be 2 seq ++ pack_be 4 ts ++ pack_be 4 src.

(** The number of timestamp values before the reset: [0], [F], [2F], ...
    up to the last multiple of the frame size [F] that fits 32 bits. *)
Definition timestamp_period {OE : OpusEncoder} : Z :=
  4294967295 / SAMPLES_PER_FRAME + 1.


(** What one call that reaches [sendto] leaves in the trace. *)
Definition sent_event (io : Sendto) (packet : list byte) (seq ts : Z)
  : list Event :=
  match io with
  | SendtoDone => [EvSendto packet]
  | SendtoBlockingIOError => [EvLog (LogPacketDropped seq ts)]
  | SendtoRaises _ => []
  end.


(** Consecutive calls of [_encrypt_xsalsa20_poly1305_lite], each with its
    header and payload; the packets in order. *)
Fixpoint seal_all_lite {SB : SecretBox} (inputs : list (list byte * list byte))
  : M (list (list byte)) :=
  match inputs with
  | [] => ret []
  | (header, data) :: rest =>
      let* packet := _encrypt_xsalsa20_poly1305_lite header data in
      let* packets := seal_all_lite rest in
      ret (packet :: packets)
  end.

(** A payload that [_strip_header] hands back as it is: it is not empty,
    and when it starts with [0xBE] it has a second byte, and that byte is
    not [0xDE] unless the payload has at most four bytes. *)
Definition passes_through (p : list byte) : Prop :=
  match p with
  | [] => False
  | b0 :: rest =>
      b0 ≠ Byte.xbe ∨
      match rest with
      | [] => False
      | b1 :: _ => b1 ≠ Byte.xde ∨ (length p ≤ 4)%nat
      end
  end.

(** ** Instances for the examples *)

(** A stand-in for the secret box, to run the codec on examples: the
    ciphertext is a 16-byte tag followed by the message.  It is refused
    when the key or the nonce has the wrong size, and opening fails on a
    wrong tag. *)
Definition toy_tag : list byte := replicate 16 Byte.x2a.

#[global] Instance toy_box : SecretBox := {|
  box_encrypt key nonce msg :=
    if decide (length key = KEY_SIZE ∧ length nonce = NONCE_SIZE)
    then Return (toy_tag ++ msg) else Raise ValueError;
  box_decrypt key nonce ct :=
    if decide (length key = KEY_SIZE ∧ length nonce = NONCE_SIZE)
    then if decide (take 16 ct = toy_tag) then Return (drop 16 ct)
         else Raise CryptoError
    else Raise ValueError
|}.

(** 48 kHz audio in frames of 20 ms: 960 samples per frame, the value of
    [opus.Encoder.SAMPLES_PER_FRAME] in the library. *)
Definition opus_48k_20ms : OpusEncoder := {| SAMPLES_PER_FRAME := 960 |}.

(** A client with identity 7 in channel 5, after the handshake: a mode, a
    key, its ssrc 99 and a socket. *)
Definition example_client (m : Mode) : VoiceClient :=
  set_socket (Some (mkSocket false false))
    (set_mode (Some m)
       (set_secret_key (replicate 32 Byte.x01)
          (ssrc_setter 99 (init 7 (Some 5))))).

Definition example_call (io : Sendto) (data : list byte) : Call :=
  mkCall (replicate 24 Byte.x03) io data.


(** ** Classes of trace events *)

(** The events of a teardown: what [disconnect] can leave in the trace
    after the record of its own call. *)
Definition teardown_event (ev : Event) : bool :=
  match ev with
  | EvPlayerStop | EvWsClose None | EvLog LogHandshakeTerminated
  | EvChangeVoiceState None | EvCleanup | EvSocketClose => true
  | _ => false
  end.

(** The record of a call of one of the methods that try to get the
    connection back. *)
Definition reconnect_call (ev : Event) : bool :=
  match ev with
  | EvCall m_potential_resume | EvCall m_potential_reconnect
  | EvCall (m_connect _) => true
  | _ => false
  end.

(** ** Example objects for the handlers and the loop *)

(** A client in the middle of a handshake that already holds a token and
    an endpoint from an earlier negotiation. *)
Definition renegotiating_client : VoiceClient :=
  set_handshaking true
    (set_endpoint (Some "old.example"%string)
       (set_token (Some "old-token"%string) (init 7 (Some 5)))).

(** A cache in which every channel id resolves, in guild 1. *)
Definition example_cache : StateCache := {|
  guild_of _ := Some 1;
  get_channel _ id := Some id;
  _get_private_channel id := Some id
|}.

(** A client that is connected: a websocket, a socket, the flag set. *)
Definition connected_client : VoiceClient :=
  set_ws (Some (mkWebSocket 1 false))
    (set_connected true
       (set_socket (Some (mkSocket false false)) (init 7 (Some 5)))).

(** A pass of the supervisory loop in which the websocket closes with
    [code], and every later attempt to open one succeeds. *)
Definition closing_iteration (code : Z) : Iteration :=
  mkIteration (PollRaises (ConnectionClosed code)) (WsOpened 2) []
    (WsOpened 3) 1 (λ _, mkAttempt [] (WsOpened 4)).


(** The connected client after its own [disconnect()]. *)
Definition disconnected_client : VoiceClient :=
  exec (disconnect false) connected_client.


(** ** Notions for the further properties *)

(** The condition [connect] waits for: both notifications have come. *)
Definition both_complete (c : VoiceClient) : bool :=
  _voice_state_complete c && _voice_server_complete c.

(** A [VOICE_STATE_UPDATE] among the notifications. *)
Definition is_state_update (d : Delivery) : bool :=
  match d with
  | VoiceStateUpdate _ => true
  | VoiceServerUpdate _ => false
  end.

(** The seconds slept, in order, among the events of a trace. *)
Definition sleeps (t : list Event) : list Z :=
  omap (λ ev, match ev with EvSleep s => Some s | _ => None end) t.

(** How many poll tasks a trace has seen being created. *)
Definition is_create_task (ev : Event) : bool :=
  match ev with
  | EvCreateTask => true
  | _ => false
  end.

Definition tasks_created (t : list Event) : nat :=
  length (List.filter is_create_task t).

(** A method that moves the object only along the relation [K]. *)
Definition respects (K : VoiceClient → VoiceClient → Prop) {A} (m : M A)
  : Prop :=
  ∀ c, K c (exec m c).

(** A relation between the object before and after that is kept by
    every step the connection code takes other than the start of the
    poll task: it is a preorder, and each attribute assignment and each
    recorded event of that code moves the object along it. *)
Class ConnectionFrame (K : VoiceClient → VoiceClient → Prop) : Prop := {
  cf_refl : ∀ c, K c c;
  cf_trans : ∀ c1 c2 c3, K c1 c2 → K c2 c3 → K c1 c3;
  cf_channel : ∀ v c, K c (set_channel v c);
  cf_session_id : ∀ v c, K c (set_session_id v c);
  cf_token : ∀ v c, K c (set_token v c);
  cf_server_id : ∀ v c, K c (set_server_id v c);
  cf_endpoint : ∀ v c, K c (set_endpoint v c);
  cf_endpoint_ip : ∀ v c, K c (set_endpoint_ip v c);
  cf_timeout : ∀ v c, K c (set_timeout v c);
  cf_socket : ∀ v c, K c (set_socket v c);
  cf_connected : ∀ v c, K c (set_connected v c);
  cf_handshaking : ∀ v c, K c (set_handshaking v c);
  cf_potentially_reconnecting :
    ∀ v c, K c (set_potentially_reconnecting v c);
  cf_voice_state_complete : ∀ v c, K c (set_voice_state_complete v c);
  cf_voice_server_complete : ∀ v c, K c (set_voice_server_complete v c);
  cf_connections : ∀ v c, K c (set_connections v c);
  cf_ws : ∀ v c, K c (set_ws v c);
  cf_event : ∀ ev c, ev ≠ EvCreateTask → K c (set_trace (trace c ++ [ev]) c)
}.

(** The packet counters and the SSRC registry are the same. *)
Definition same_codec_state (c c' : VoiceClient) : Prop :=
  sequence c' = sequence c ∧ timestamp c' = timestamp c ∧
  _lite_nonce c' = _lite_nonce c ∧
  idrcs c' = idrcs c ∧ ssids c' = ssids c ∧ user_id c' = user_id c.

(** No poll task was created and [_runner] is as it was. *)
Definition same_runner (c c' : VoiceClient) : Prop :=
  _runner c' = _runner c ∧
  ∃ evs, trace c' = trace c ++ evs ∧ tasks_created evs = 0%nat.

(** A relation that the start of the poll task keeps as well. *)
Class FullConnectionFrame (K : VoiceClient → VoiceClient → Prop) : Prop := {
  fcf_frame :: ConnectionFrame K;
  fcf_runner : ∀ v c, K c (set_runner v c);
  fcf_task : ∀ c, K c (set_trace (trace c ++ [EvCreateTask]) c)
}.

(** An attempt to open the websocket that fails with one of the two
    exceptions the callers catch. *)
Definition open_fails (o : WsOpen) : Prop :=
  match o with
  | WsOpened _ => False
  | WsFromClientRaises e | WsPollRaises e => closed_or_timeout e = true
  end.

(** The state of a client that waits in [potential_reconnect]. *)
Definition reconnect_wait (n : Z) (w : option WebSocket) (c : VoiceClient)
  : Prop :=
  _handshaking c = true ∧ _potentially_reconnecting c = true ∧
  _connected c = false ∧ _voice_server_complete c = false ∧
  _connections c = n ∧ ws c = w.

(** A close code that [poll_voice_ws] has no branch of its own for, or a
    timeout. *)
Definition other_closure (e : Exn) : Prop :=
  closed_or_timeout e = true ∧
  ∀ code, e = ConnectionClosed code →
          code ≠ 1000 ∧ code ≠ 4015 ∧ code ≠ 4014.

(** Both notifications arrive first, in either order. *)
Definition handshake_arrives (d1 : VoiceStateData) (d2 : VoiceServerData)
  (ds : list Delivery) : Prop :=
  ∃ rest,
    ds = VoiceStateUpdate d1 :: VoiceServerUpdate d2 :: rest ∨
    ds = VoiceServerUpdate d2 :: VoiceStateUpdate d1 :: rest.

(** An attempt of [connect] whose handshake completes and whose websocket
    then fails to open with a closed connection or a timeout. *)
Definition handshake_then_closed (a : Attempt) : Prop :=
  (∃ d1 d2 tok ep,
     handshake_arrives d1 d2 (att_deliveries a) ∧
     vsrv_token d2 = Some tok ∧ vsrv_endpoint d2 = Some ep) ∧
  open_fails (att_open a).

(** What pass [i] of the loop of [connect] leaves behind when it ends in
    [continue]. *)
Definition attempt_failed (i : Z) (c c' : VoiceClient) : Prop :=
  _connections c' = _connections c + 1 ∧
  _potentially_reconnecting c' = false ∧
  channel c' = channel c ∧ _runner c' = _runner c ∧ ws c' = ws c ∧
  timeout c' = timeout c ∧
  ∃ evs, trace c' = trace c ++ evs ∧ sleeps evs = [1 + i * 2] ∧
         tasks_created evs = 0%nat.

(** The object when the wait of [connect] ends with both notifications
    handled, [c] being the object at the start of the wait. *)
Definition handshaken (d1 : VoiceStateData) (d2 : VoiceServerData)
  (tok ep : string) (c : VoiceClient) : VoiceClient :=
  set_voice_state_complete true
    (set_session_id (Some (vs_session_id d1))
       (set_voice_server_complete true
          (set_socket (Some (mkSocket false false))
             (set_endpoint_ip None
                (set_endpoint (Some (endpoint_host ep))
                   (set_server_id
                      (match vsrv_guild_id d2 with
                       | Some g => Some g
                       | None => vsrv_channel_id d2
                       end)
                      (set_token (Some tok) c))))))).

(** The object has moved from [c] to [c'] by [n] handshakes and the events
    [evs], the attributes the loop of [connect] relies on being the same. *)
Definition moved (n : Z) (evs : list Event) (c c' : VoiceClient) : Prop :=
  _connections c' = _connections c + n ∧
  _potentially_reconnecting c' = _potentially_reconnecting c ∧
  channel c' = channel c ∧ _runner c' = _runner c ∧ ws c' = ws c ∧
  timeout c' = timeout c ∧ trace c' = trace c ++ evs.

(** The seconds [connect] sleeps after each of [left] failed passes, the
    first being pass [i]: [1 + i * 2.0]. *)
Fixpoint backoff (left : nat) (i : Z) : list Z :=
  match left with
  | O => []
  | S left' => (1 + i * 2) :: backoff left' (i + 1)
  end.

(** ** [fetch_mutuals.py]: sending the collected embeds *)

(** [discord.Embed] is not part of the sources at hand; of an embed only
    [len(x)] matters here, a non-negative integer. *)
Section Webhook.
Context {Embed : Type} (len : Embed → nat).

(** [sum(len(x) for x in embeds)] *)
Definition embed_sum (embeds : list Embed) : Z :=
  foldr (λ x s, Z.of_nat (len x) + s) 0 embeds.

(** [range(0, stop, step)] for [step >= 0]: the multiples of [step] below
    [stop], and [ValueError] for a zero step. *)
Definition range_by (stop step : nat) : Result (list nat) :=
  if (step =? 0)%nat then Raise ValueError
  else Return ((λ k, k * step)%nat <$> seq 0 ((stop + step - 1) / step)).

(** [l[i:j]] for [0 <= i <= j]; the slice is cut at the end of the list. *)
Definition slice (i j : nat) (l : list Embed) : list Embed :=
  take (j - i) (drop i l).

(** The [embeds=] argument of each [send_webhook] call [on_ready] makes
    for the collected [embeds], in order, when no call raises. *)
Definition webhook_batches (embeds : list Embed)
  : Result (list (list Embed)) :=
  if (0 <? length embeds)%nat then
    let embed_sum := embed_sum embeds in
    if 6000 <? embed_sum then
      let slices_step := Z.to_nat (embed_sum / 6000) in
      match range_by (length embeds) slices_step with
      | Raise e => Raise e
      | Return indices =>
          Return ((λ i, slice i (i + slices_step) embeds) <$> indices)
      end
    else Return [embeds]
  else Return [].

End Webhook.


(** * Properties *)

(** ** Bytes and big-endian packing *)

Lemma Z_of_byte_range (b : byte) : 0 ≤ Z_of_byte b < 256.
Proof.
  unfold Z_of_byte. pose proof (Byte.to_N_bounded b). lia.
Qed.

Lemma Z_of_byte_of_Z (z : Z) : Z_of_byte (byte_of_Z z) = z mod 256.
Proof.
  unfold Z_of_byte, byte_of_Z.
  assert (Hr : 0 ≤ z mod 256 < 256) by (apply Z.mod_pos_bound; lia).
  destruct (Byte.of_N (Z.to_N (z mod 256))) as [b|] eqn:E.
  - apply Byte.to_of_N in E. rewrite E. lia.
  - apply Byte.of_N_None_iff in E. lia.
Qed.

Lemma length_pack_be (n : nat) (z : Z) : length (pack_be n z) = n.
Proof. induction n as [|n IH]; simpl; [done | by rewrite IH]. Qed.

Lemma fold_unpack_acc (l : list byte) (acc : Z) :
  fold_left (λ a b, a * 256 + Z_of_byte b) l acc
  = acc * 256 ^ Z.of_nat (length l) + unpack_be l.
Proof.
  unfold unpack_be. revert acc.
  induction l as [|b l IH]; intros acc.
  - simpl. lia.
  - cbn [fold_left length]. rewrite IH, (IH (0 * 256 + Z_of_byte b)).
    rewrite Nat2Z.inj_succ, Z.pow_succ_r by lia. ring.
Qed.

Lemma unpack_pack_be (n : nat) (z : Z) :
  unpack_be (pack_be n z) = z mod 256 ^ Z.of_nat n.
Proof.
  induction n as [|n IH].
  - simpl. by rewrite Z.mod_1_r.
  - cbn [pack_be]. unfold unpack_be. cbn [fold_left].
    rewrite fold_unpack_acc, IH, length_pack_be, Z_of_byte_of_Z.
    rewrite Nat2Z.inj_succ, Z.pow_succ_r by lia.
    rewrite (Z.mul_comm 256), Z.rem_mul_r by lia. lia.
Qed.

(** Packing is injective on the values that fit. *)
Lemma pack_be_inj (n : nat) (x y : Z) :
  0 ≤ x < 256 ^ Z.of_nat n → 0 ≤ y < 256 ^ Z.of_nat n →
  pack_be n x = pack_be n y → x = y.
Proof.
  intros Hx Hy E. apply (f_equal unpack_be) in E.
  rewrite !unpack_pack_be in E.
  by rewrite !Z.mod_small in E.
Qed.

Lemma struct_pack_H_returns (z : Z) :
  0 ≤ z ≤ 65535 → struct_pack_H z = Return (pack_be 2 z).
Proof.
  intros H. unfold struct_pack_H.
  destruct (Z.leb_spec 0 z), (Z.leb_spec z 65535); simpl; (done || lia).
Qed.

Lemma struct_pack_I_returns (z : Z) :
  0 ≤ z ≤ 4294967295 → struct_pack_I z = Return (pack_be 4 z).
Proof.
  intros H. unfold struct_pack_I.
  destruct (Z.leb_spec 0 z), (Z.leb_spec z 4294967295); simpl; (done || lia).
Qed.

(** ** SSRC registry *)

Lemma idrcs_set_ssrc u s c : idrcs (_set_ssrc u s c) = <[u := s]> (idrcs c).
Proof. done. Qed.

Lemma ssids_set_ssrc u s c : ssids (_set_ssrc u s c) = <[s := u]> (ssids c).
Proof. done. Qed.

Lemma user_id_set_ssrc u s c : user_id (_set_ssrc u s c) = user_id c.
Proof. done. Qed.

(** The setter is [_set_ssrc] at the client's own identity. *)
Lemma ssrc_setter_set_ssrc value c :
  ssrc_setter value c = _set_ssrc (user_id c) value c.
Proof. done. Qed.

Lemma flip_ssrc_forward query v c :
  idrcs c !! query = Some v → _flip_ssrc query c = Some v.
Proof. intros H. unfold _flip_ssrc. by rewrite H. Qed.

Lemma flip_ssrc_reverse query c :
  idrcs c !! query = None → _flip_ssrc query c = ssids c !! query.
Proof. intros H. unfold _flip_ssrc. by rewrite H. Qed.

(** C3, as the code has it: when the stream id [s] is not itself a key of
    the forward map and differs from [u], then after [_set_ssrc u s] the
    lookup of [u] answers [s] and the lookup of [s] answers [u]; after a
    further [_set_ssrc u s2] the lookup of [u] answers [s2], and the lookup
    of [s] still answers [u], since the reverse entry of [s] is kept. *)
Theorem ssrc_assign_then_lookup (c : VoiceClient) (u s s2 : Z) :
  idrcs c !! s = None → s ≠ u →
  let c1 := _set_ssrc u s c in
  let c2 := _set_ssrc u s2 c1 in
  _flip_ssrc u c1 = Some s ∧ _flip_ssrc s c1 = Some u ∧
  _flip_ssrc u c2 = Some s2 ∧ _flip_ssrc s c2 = Some u.
Proof.
  intros Hs Hne c1 c2. repeat split.
  - apply flip_ssrc_forward. subst c1. rewrite idrcs_set_ssrc.
    apply lookup_insert_eq.
  - rewrite flip_ssrc_reverse; subst c1.
    + rewrite ssids_set_ssrc. apply lookup_insert_eq.
    + rewrite idrcs_set_ssrc, lookup_insert_ne; done.
  - apply flip_ssrc_forward. subst c2. rewrite idrcs_set_ssrc.
    apply lookup_insert_eq.
  - rewrite flip_ssrc_reverse; subst c2 c1.
    + rewrite !ssids_set_ssrc. destruct (decide (s2 = s)) as [->|Hd].
      * apply lookup_insert_eq.
      * rewrite lookup_insert_ne by done. apply lookup_insert_eq.
    + rewrite !idrcs_set_ssrc, !lookup_insert_ne; done.
Qed.

Lemma ssrc_assign_then_lookup_witness :
  let c1 := _set_ssrc 1 2 (init 1 None) in
  let c2 := _set_ssrc 1 3 c1 in
  _flip_ssrc 1 c1 = Some 2 ∧ _flip_ssrc 2 c1 = Some 1 ∧
  _flip_ssrc 1 c2 = Some 3 ∧ _flip_ssrc 2 c2 = Some 1.
Proof.
  apply (ssrc_assign_then_lookup (init 1 None) 1 2 3); [reflexivity | lia].
Defined.

(** C3 as stated fails: with [u = 1], [s = 2], [s2 = 3] on a new client,
    the lookup of [s] after the second assignment still answers [u]. *)
Lemma ssrc_stale_reverse_entry :
  (2 : Z) ≠ 3 ∧
  ¬ (_flip_ssrc 2 (_set_ssrc 1 3 (_set_ssrc 1 2 (init 1 None))) ≠ Some 1).
Proof.
  split; [lia |]. intros H. apply H. reflexivity.
Qed.

Lemma run_ops_snoc ops o c : run_ops (ops ++ [o]) c = apply_op o (run_ops ops c).
Proof. unfold run_ops. by rewrite fold_left_app. Qed.

Lemma user_id_run_ops ops c : user_id (run_ops ops c) = user_id c.
Proof.
  induction ops as [|o ops IH] using rev_ind; [done |].
  rewrite run_ops_snoc. by destruct o.
Qed.

Lemma apply_op_pair o c :
  apply_op o c = _set_ssrc (op_pair (user_id c) o).1 (op_pair (user_id c) o).2 c.
Proof. by destruct o. Qed.

(** Every pair of the forward map was written by one of the operations. *)
Lemma forward_pair_written uid ch ops u s :
  idrcs (run_ops ops (init uid ch)) !! u = Some s →
  ∃ o, o ∈ ops ∧ op_pair uid o = (u, s).
Proof.
  induction ops as [|o ops IH] using rev_ind; intros H.
  - done.
  - rewrite run_ops_snoc, apply_op_pair, idrcs_set_ssrc, user_id_run_ops in H.
    simpl in H. destruct (decide ((op_pair uid o).1 = u)) as [E|E].
    + rewrite E, lookup_insert_eq in H.
      exists o. split.
      { apply elem_of_app. right. by apply list_elem_of_singleton. }
      destruct (op_pair uid o); simpl in *. congruence.
    + rewrite lookup_insert_ne in H by done.
      destruct (IH H) as (o' & Hin & Hp). exists o'.
      split; [apply elem_of_app; by left | done].
Qed.

(** Without any condition on the operations, the stream id of a forward
    pair is at least a key of the reverse map. *)
Lemma forward_ssrc_has_reverse_key uid ch ops u s :
  idrcs (run_ops ops (init uid ch)) !! u = Some s →
  is_Some (ssids (run_ops ops (init uid ch)) !! s).
Proof.
  revert u s. induction ops as [|o ops IH] using rev_ind; intros u s H.
  - done.
  - rewrite run_ops_snoc, apply_op_pair in H |- *.
    rewrite idrcs_set_ssrc in H. rewrite ssids_set_ssrc.
    set (p := op_pair _ o) in *.
    destruct (decide (p.2 = s)) as [<-|Hs].
    + rewrite lookup_insert_eq. by eexists.
    + rewrite lookup_insert_ne by done.
      destruct (decide (p.1 = u)) as [<-|Hu].
      * rewrite lookup_insert_eq in H. congruence.
      * rewrite lookup_insert_ne in H by done. by eapply IH.
Qed.

(** C7, as the code has it: from the empty maps, after any operations in
    which no stream id is given to two different identities, every pair
    [(u, s)] of the forward map [idrcs] has the pair [(s, u)] in the reverse
    map [ssids]; and an identity has at most one stream id. *)
Theorem registry_forward_in_reverse (uid : Z) (ch : option Channel)
  (ops : list RegistryOp) :
  no_shared_ssrc uid ops →
  let c := run_ops ops (init uid ch) in
  (∀ u s, idrcs c !! u = Some s → ssids c !! s = Some u) ∧
  (∀ u s s', idrcs c !! u = Some s → idrcs c !! u = Some s' → s = s').
Proof.
  intros Hns c. split; [| intros u s s' H1 H2; congruence].
  subst c. induction ops as [|o ops IH] using rev_ind; intros u s H.
  - done.
  - assert (Hns' : no_shared_ssrc uid ops).
    { intros o1 o2 H1 H2. apply Hns; apply elem_of_app; by left. }
    specialize (IH Hns').
    rewrite run_ops_snoc, apply_op_pair, user_id_run_ops in H |- *.
    cbn [user_id init] in H |- *.
    rewrite idrcs_set_ssrc in H. rewrite ssids_set_ssrc.
    destruct (decide ((op_pair uid o).1 = u)) as [E|E].
    + rewrite E, lookup_insert_eq in H. injection H as <-.
      rewrite <- E. apply lookup_insert_eq.
    + rewrite lookup_insert_ne in H by done.
      destruct (decide ((op_pair uid o).2 = s)) as [E2|E2].
      * destruct (forward_pair_written _ _ _ _ _ H) as (o' & Hin & Hp).
        exfalso. apply E.
        rewrite (Hns o o'); [by rewrite Hp | | |].
        { apply elem_of_app. right. by apply list_elem_of_singleton. }
        { apply elem_of_app. by left. }
        by rewrite Hp.
      * rewrite lookup_insert_ne by done. by apply IH.
Qed.

Lemma registry_forward_in_reverse_witness :
  let c := run_ops [op_set_ssrc 1 5; op_ssrc_setter 6; op_set_ssrc 1 7]
             (init 2 None) in
  (∀ u s, idrcs c !! u = Some s → ssids c !! s = Some u) ∧
  (∀ u s s', idrcs c !! u = Some s → idrcs c !! u = Some s' → s = s').
Proof.
  apply (registry_forward_in_reverse 2 None
           [op_set_ssrc 1 5; op_ssrc_setter 6; op_set_ssrc 1 7]).
  intros o1 o2 H1 H2.
  repeat (apply elem_of_cons in H1 as [-> | H1]);
    repeat (apply elem_of_cons in H2 as [-> | H2]);
    try (by apply elem_of_nil in H1); try (by apply elem_of_nil in H2);
    simpl; lia.
Defined.

(** C7 as stated fails: after [_set_ssrc 1 5] and [_set_ssrc 2 5] the
    forward map has the pair [(1, 5)] and the reverse map sends [5] to [2]. *)
Lemma registry_shared_ssrc_breaks_reverse :
  let c := run_ops [op_set_ssrc 1 5; op_set_ssrc 2 5] (init 2 None) in
  idrcs c !! 1 = Some 5 ∧ ssids c !! 5 = Some 2 ∧ ssids c !! 5 ≠ Some 1.
Proof.
  repeat split. discriminate.
Qed.

(** ** Counters *)

Lemma checked_add_sequence_mod (n : Z) :
  0 ≤ n →
  (if n mod 65536 + 1 >? 65535 then 0 else n mod 65536 + 1)
  = (n + 1) mod 65536.
Proof.
  intros Hn. pose proof (Z.mod_pos_bound n 65536 ltac:(lia)) as Hr.
  rewrite <- (Z.add_mod_idemp_l n 1 65536) by lia.
  set (r := n mod 65536) in *.
  destruct (Z.gtb_spec (r + 1) 65535) as [Hgt | Hle].
  - replace r with 65535 by lia. reflexivity.
  - rewrite (Z.mod_small (r + 1)); lia.
Qed.

Lemma checked_add_step_mod (F limit n : Z) :
  0 < F → 0 ≤ limit → 0 ≤ n →
  let P := limit / F + 1 in
  (if n mod P * F + F >? limit then 0 else n mod P * F + F)
  = (n + 1) mod P * F.
Proof.
  intros HF Hl Hn P.
  assert (HP : 0 < P) by (pose proof (Z.div_pos limit F); lia).
  pose proof (Z.mod_pos_bound n P HP) as Hr.
  rewrite <- (Z.add_mod_idemp_l n 1 P) by lia.
  pose proof (Z.mul_div_le limit F HF) as Hlo.
  pose proof (Z.mul_succ_div_gt limit F HF) as Hhi.
  set (q := limit / F) in *. set (r := n mod P) in *.
  destruct (Z.gtb_spec (r * F + F) limit) as [Hgt | Hle].
  - assert (r = q) as ->.
    { destruct (Z.eq_dec r q) as [|Hne]; [done |]. exfalso.
      assert ((r + 1) * F ≤ q * F)
        by (apply Z.mul_le_mono_nonneg_r; subst P; lia).
      lia. }
    replace (q + 1) with P by done. rewrite Z.mod_same by lia. lia.
  - assert (r + 1 < P).
    { destruct (Z.eq_dec r q) as [->|Hne]; [lia | subst P; lia]. }
    rewrite (Z.mod_small (r + 1)) by lia. lia.
Qed.

Lemma checked_add_other_fields attr value limit c :
  user_id (_checked_add attr value limit c) = user_id c ∧
  mode (_checked_add attr value limit c) = mode c ∧
  secret_key (_checked_add attr value limit c) = secret_key c ∧
  socket (_checked_add attr value limit c) = socket c ∧
  idrcs (_checked_add attr value limit c) = idrcs c ∧
  ssids (_checked_add attr value limit c) = ssids c ∧
  trace (_checked_add attr value limit c) = trace c.
Proof.
  unfold _checked_add. destruct (_ >? _), attr; done.
Qed.

Lemma checked_add_getattr attr value limit c :
  getattr attr (_checked_add attr value limit c)
  = if getattr attr c + value >? limit then 0 else getattr attr c + value.
Proof.
  unfold _checked_add. destruct (_ >? _), attr; done.
Qed.

Lemma checked_add_getattr_ne attr attr' value limit c :
  attr ≠ attr' →
  getattr attr' (_checked_add attr value limit c) = getattr attr' c.
Proof.
  intros H. unfold _checked_add. destruct (_ >? _), attr, attr'; done.
Qed.

(** ** Building and sending packets *)

Section CodecFacts.
Context {SB : SecretBox} {SBL : SecretBoxLaws SB}.

Lemma rtp_header_returns (c : VoiceClient) (v : Z) :
  0 ≤ sequence c ≤ 65535 → 0 ≤ timestamp c ≤ 4294967295 →
  ssrc c = Some v → 0 ≤ v ≤ 4294967295 →
  rtp_header c = (Return (header_bytes (sequence c) (timestamp c) v), c).
Proof.
  intros Hs Ht Hv Hr. unfold rtp_header, bind, get, lift.
  rewrite (struct_pack_H_returns _ Hs), (struct_pack_I_returns _ Ht), Hv,
    (struct_pack_I_returns _ Hr).
  reflexivity.
Qed.

Lemma new_box_returns key : length key = KEY_SIZE → new_box key = Return key.
Proof. intros H. unfold new_box. by rewrite decide_True. Qed.

Lemma encrypt_packet_returns (m : Mode) (c : VoiceClient)
  (random header data : list byte) :
  length (secret_key c) = KEY_SIZE → length random = NONCE_SIZE →
  length header = 12%nat → 0 ≤ _lite_nonce c ≤ 4294967295 →
  ∃ packet,
    encrypt_packet m random header data c = (Return packet, after_encrypt m c)
    ∧ take 12 packet = header.
Proof.
  intros Hk Hn Hh Hl.
  destruct m; unfold encrypt_packet, after_encrypt.
  - unfold _encrypt_xsalsa20_poly1305_lite, bind, get, lift, modify, ret.
    rewrite (new_box_returns _ Hk), (struct_pack_I_returns _ Hl).
    edestruct (box_encrypt_returns (secret_key c)) as [ct ->]; [done | | ].
    2: { eexists. split; [reflexivity |]. by rewrite take_app_length'. }
    unfold slice_assign_prefix. rewrite length_app, length_pack_be. reflexivity.
  - unfold _encrypt_xsalsa20_poly1305_suffix, bind, get, lift, ret.
    rewrite (new_box_returns _ Hk).
    destruct (box_encrypt_returns (secret_key c) random data Hk Hn) as [ct ->].
    eexists. split; [reflexivity |]. by rewrite take_app_length'.
  - unfold _encrypt_xsalsa20_poly1305, bind, get, lift, ret.
    rewrite (new_box_returns _ Hk).
    edestruct (box_encrypt_returns (secret_key c)) as [ct ->]; [done | | ].
    2: { eexists. split; [reflexivity |]. by rewrite take_app_length'. }
    unfold slice_assign_prefix. rewrite length_app, Hh. reflexivity.
Qed.

Lemma after_encrypt_fields m c :
  user_id (after_encrypt m c) = user_id c ∧
  mode (after_encrypt m c) = mode c ∧
  secret_key (after_encrypt m c) = secret_key c ∧
  socket (after_encrypt m c) = socket c ∧
  idrcs (after_encrypt m c) = idrcs c ∧
  trace (after_encrypt m c) = trace c ∧
  sequence (after_encrypt m c) = sequence c ∧
  timestamp (after_encrypt m c) = timestamp c.
Proof.
  destruct m; cbn [after_encrypt]; try done.
  unfold _checked_add. by destruct (_ >? _).
Qed.

Lemma after_encrypt_lite_nonce m c :
  0 ≤ _lite_nonce c ≤ 4294967295 →
  0 ≤ _lite_nonce (after_encrypt m c) ≤ 4294967295.
Proof.
  intros H. destruct m; cbn [after_encrypt]; try done.
  change (_lite_nonce ?x) with (getattr attr_lite_nonce x).
  rewrite checked_add_getattr. cbn [getattr].
  destruct (Z.gtb_spec (_lite_nonce c + 1) 4294967295); lia.
Qed.

Context {OE : OpusEncoder}.

Lemma send_audio_packet_benign (c : VoiceClient) (k : Call) (m : Mode) (v : Z) :
  mode c = Some m → length (secret_key c) = KEY_SIZE →
  ssrc c = Some v → 0 ≤ v ≤ 4294967295 → is_Some (socket c) →
  0 ≤ _lite_nonce c ≤ 4294967295 → benign k →
  0 ≤ sequence c ≤ 65535 → 0 ≤ timestamp c ≤ 4294967295 →
  let c1 := _checked_add attr_sequence 1 65535 c in
  ∃ packet,
    _get_voice_packet (call_random k) (call_data k) c1
    = (Return packet, after_encrypt m c1) ∧
    take 12 packet = header_bytes (sequence c1) (timestamp c) v ∧
    send_audio_packet (call_random k) (call_io k) (call_data k) c
    = (Return tt,
       _checked_add attr_timestamp SAMPLES_PER_FRAME 4294967295
         (set_trace
            (trace c ++ sent_event (call_io k) packet (sequence c1) (timestamp c))
            (after_encrypt m c1))).
Proof.
  intros Hm Hk Hv Hr [s Hs] Hl [Hn Hio] Hseq Hts c1.
  pose proof (checked_add_other_fields attr_sequence 1 65535 c) as HF.
  pose proof (checked_add_getattr_ne attr_sequence attr_timestamp 1 65535 c
                ltac:(done)) as Hts1.
  pose proof (checked_add_getattr_ne attr_sequence attr_lite_nonce 1 65535 c
                ltac:(done)) as Hl1.
  pose proof (checked_add_getattr attr_sequence 1 65535 c) as Hq1.
  cbn [getattr] in Hts1, Hl1, Hq1. fold c1 in HF, Hts1, Hl1, Hq1.
  destruct HF as (Hu1 & Hm1 & Hk1 & Hs1 & Hi1 & _ & Ht1).
  assert (Hseq1 : 0 ≤ sequence c1 ≤ 65535).
  { rewrite Hq1. destruct (Z.gtb_spec (sequence c + 1) 65535); lia. }
  assert (Hv1 : ssrc c1 = Some v).
  { unfold ssrc. by rewrite Hi1, Hu1. }
  destruct (encrypt_packet_returns m c1 (call_random k)
              (header_bytes (sequence c1) (timestamp c) v) (call_data k))
    as (packet & Henc & Htake); [congruence | done | done | lia |].
  assert (Hget : _get_voice_packet (call_random k) (call_data k) c1
                 = (Return packet, after_encrypt m c1)).
  { unfold _get_voice_packet, bind at 1.
    rewrite (rtp_header_returns c1 v) by (done || lia).
    unfold bind at 1, get at 1. by rewrite Hm1, Hm, Hts1, Henc. }
  exists packet. split; [done |]. split; [done |].
  destruct (after_encrypt_fields m c1) as (_ & _ & _ & Hs2 & _ & Ht2 & Hq2 & Hts2).
  unfold send_audio_packet, bind at 1, modify at 1. fold c1.
  unfold bind at 1. rewrite Hget.
  unfold bind at 1, bind at 1, get at 1. rewrite Hs2, Hs1, Hs.
  rewrite Hq2, Hts2, Hts1.
  destruct Hio as [-> | ->]; unfold emit, bind, modify; cbn [sent_event];
    by rewrite Ht2, Ht1.
Qed.

Lemma bind_assoc {A B C} (m : M A) (f : A → M B) (g : B → M C) c :
  bind (bind m f) g c = bind m (λ a, bind (f a) g) c.
Proof. unfold bind. by destruct (m c) as [[a|e] c']. Qed.

Lemma bind_ret_l {A B} (a : A) (f : A → M B) c : bind (ret a) f c = f a c.
Proof. done. Qed.

Lemma send_all_snoc calls k c :
  send_all (calls ++ [k]) c
  = bind (send_all calls)
      (λ _, send_audio_packet (call_random k) (call_io k) (call_data k)) c.
Proof.
  revert c. induction calls as [|k' calls IH]; intros c.
  - cbn [app send_all]. rewrite bind_ret_l. unfold bind, ret.
    by destruct (send_audio_packet _ _ _ c) as [[[]|e] c'].
  - cbn [app send_all]. rewrite bind_assoc. unfold bind at 1 2.
    destruct (send_audio_packet _ _ _ c) as [[[]|e] c']; [apply IH | done].
Qed.

Lemma sendable_preserved (c c' : VoiceClient) :
  sendable c → user_id c' = user_id c → mode c' = mode c →
  secret_key c' = secret_key c → socket c' = socket c →
  idrcs c' = idrcs c → 0 ≤ _lite_nonce c' ≤ 4294967295 → sendable c'.
Proof.
  intros (Hm & Hk & (v & Hv & Hr) & Hs & Hl) Eu Em Ek Es Ei Hl'.
  unfold sendable, ssrc in *. rewrite Eu, Em, Ek, Es, Ei. eauto 10.
Qed.

(** After [N] benign calls on a sendable client with both counters at
    zero: every call returns, and the counters are as follows. *)
Lemma send_all_counters (c : VoiceClient) (calls : list Call) :
  0 < SAMPLES_PER_FRAME → sendable c → sequence c = 0 → timestamp c = 0 →
  Forall benign calls →
  let N := Z.of_nat (length calls) in
  ∃ c', send_all calls c = (Return tt, c') ∧ sendable c' ∧
        sequence c' = N mod 65536 ∧
        timestamp c' = N mod timestamp_period * SAMPLES_PER_FRAME.
Proof.
  intros HF Hc Hq Ht. induction calls as [|k calls IH] using rev_ind; intros Hb N.
  - exists c. subst N. cbn. rewrite Hq, Ht. done.
  - apply Forall_app in Hb as [Hb Hk]. rewrite Forall_singleton in Hk.
    destruct (IH Hb) as (c1 & Hrun & Hc1 & Hq1 & Ht1). clear IH.
    set (n := Z.of_nat (length calls)) in *.
    assert (HN : N = n + 1) by (subst N n; rewrite length_app; cbn; lia).
    assert (Hn : 0 ≤ n) by (subst n; lia).
    assert (HP : 0 < timestamp_period).
    { unfold timestamp_period. pose proof (Z.div_pos 4294967295 SAMPLES_PER_FRAME). lia. }
    pose proof (Z.mod_pos_bound n 65536 ltac:(lia)) as Hqr.
    pose proof (Z.mod_pos_bound n timestamp_period HP) as Htr.
    assert (Htb : 0 ≤ timestamp c1 ≤ 4294967295).
    { rewrite Ht1. unfold timestamp_period in *.
      pose proof (Z.mul_div_le 4294967295 SAMPLES_PER_FRAME HF).
      split; [nia |].
      assert (n mod (4294967295 / SAMPLES_PER_FRAME + 1) * SAMPLES_PER_FRAME
              ≤ 4294967295 / SAMPLES_PER_FRAME * SAMPLES_PER_FRAME)
        by (apply Z.mul_le_mono_nonneg_r; lia).
      lia. }
    destruct Hc1 as (Hm & Hk1 & (v & Hv & Hr) & Hs & Hl).
    destruct Hm as [m Hm].
    destruct (send_audio_packet_benign c1 k m v Hm Hk1 Hv Hr Hs Hl Hk
                ltac:(rewrite Hq1; lia) Htb) as (packet & _ & _ & Hstep).
    eexists. rewrite send_all_snoc. unfold bind. rewrite Hrun, Hstep.
    split; [reflexivity |].
    set (c2 := after_encrypt m (_checked_add attr_sequence 1 65535 c1)).
    set (c3 := set_trace _ c2).
    destruct (after_encrypt_fields m (_checked_add attr_sequence 1 65535 c1))
      as (Eu & Em & Ek & Es & Ei & _ & Eq & Et).
    destruct (checked_add_other_fields attr_sequence 1 65535 c1)
      as (Eu1 & Em1 & Ek1 & Es1 & Ei1 & _ & _).
    destruct (checked_add_other_fields attr_timestamp SAMPLES_PER_FRAME
                4294967295 c3) as (Eu3 & Em3 & Ek3 & Es3 & Ei3 & _ & _).
    fold c2 in Eu, Em, Ek, Es, Ei, Eq, Et.
    split; [| split].
    + apply (sendable_preserved c1).
      * unfold sendable; eauto 10.
      * rewrite Eu3. cbn. by rewrite Eu, Eu1.
      * rewrite Em3. cbn. by rewrite Em, Em1.
      * rewrite Ek3. cbn. by rewrite Ek, Ek1.
      * rewrite Es3. cbn. by rewrite Es, Es1.
      * rewrite Ei3. cbn. by rewrite Ei, Ei1.
      * rewrite (checked_add_getattr_ne attr_timestamp attr_lite_nonce) by done.
        cbn. apply after_encrypt_lite_nonce.
        by rewrite (checked_add_getattr_ne attr_sequence attr_lite_nonce).
    + rewrite (checked_add_getattr_ne attr_timestamp attr_sequence) by done.
      cbn. rewrite Eq.
      rewrite (checked_add_getattr attr_sequence). cbn [getattr].
      rewrite Hq1, HN. apply checked_add_sequence_mod. done.
    + rewrite (checked_add_getattr attr_timestamp). cbn.
      rewrite Et.
      rewrite (checked_add_getattr_ne attr_sequence attr_timestamp) by done.
      cbn [getattr]. rewrite Ht1, HN.
      apply (checked_add_step_mod SAMPLES_PER_FRAME 4294967295 n); lia.
Qed.


Lemma header_bytes_sequence seq ts src :
  drop 2 (take 4 (header_bytes seq ts src)) = pack_be 2 seq.
Proof. reflexivity. Qed.

Lemma header_bytes_timestamp seq ts src :
  drop 4 (take 8 (header_bytes seq ts src)) = pack_be 4 ts.
Proof. reflexivity. Qed.

Lemma header_bytes_fixed seq ts src :
  take 2 (header_bytes seq ts src) = [Byte.x80; Byte.x78].
Proof. reflexivity. Qed.

(** The fields of a packet whose first twelve bytes are known. *)
Lemma packet_header_fields (packet : list byte) (seq ts src : Z) :
  take 12 packet = header_bytes seq ts src →
  0 ≤ seq ≤ 65535 → 0 ≤ ts ≤ 4294967295 →
  take 2 packet = [Byte.x80; Byte.x78] ∧
  unpack_be (take 2 (drop 2 packet)) = seq ∧
  unpack_be (take 4 (drop 4 packet)) = ts.
Proof.
  intros H Hs Ht. repeat split.
  - rewrite <- (header_bytes_fixed seq ts src), <- H, take_take. done.
  - rewrite take_drop_commute. cbn [Nat.add].
    replace (take 4 packet) with (take 4 (take 12 packet))
      by (by rewrite take_take).
    rewrite H, header_bytes_sequence, unpack_pack_be.
    apply Z.mod_small. change (256 ^ Z.of_nat 2) with 65536. lia.
  - rewrite take_drop_commute. cbn [Nat.add].
    replace (take 8 packet) with (take 8 (take 12 packet))
      by (by rewrite take_take).
    rewrite H, header_bytes_timestamp, unpack_pack_be.
    apply Z.mod_small. change (256 ^ Z.of_nat 4) with 4294967296. lia.
Qed.

Lemma timestamp_period_pos : 0 < SAMPLES_PER_FRAME → 0 < timestamp_period.
Proof.
  intros HF. unfold timestamp_period.
  pose proof (Z.div_pos 4294967295 SAMPLES_PER_FRAME). lia.
Qed.

Lemma timestamp_value_range (n : Z) :
  0 < SAMPLES_PER_FRAME →
  0 ≤ n mod timestamp_period * SAMPLES_PER_FRAME ≤ 4294967295.
Proof.
  intros HF. pose proof (timestamp_period_pos HF) as HP.
  pose proof (Z.mod_pos_bound n timestamp_period HP) as Hr.
  unfold timestamp_period in *.
  pose proof (Z.mul_div_le 4294967295 SAMPLES_PER_FRAME HF).
  split; [nia |].
  assert (n mod (4294967295 / SAMPLES_PER_FRAME + 1) * SAMPLES_PER_FRAME
          ≤ 4294967295 / SAMPLES_PER_FRAME * SAMPLES_PER_FRAME)
    by (apply Z.mul_le_mono_nonneg_r; lia).
  lia.
Qed.

(** C2, as the code has it: after [N] calls of [send_audio_packet] from
    counters at zero, each call returning, [sequence] is [N mod 65536] and
    [timestamp] is [(N mod P) * F], where [F] is [SAMPLES_PER_FRAME] and [P]
    is the number of multiples of [F] that fit 32 bits; this is
    [(N * F) mod 2^32] as long as [N * F] fits 32 bits.  Neither counter is
    ever negative, and both go back to zero when the next value would not
    fit. *)
Theorem counters_after_calls (c : VoiceClient) (calls : list Call) :
  0 < SAMPLES_PER_FRAME → sendable c → sequence c = 0 → timestamp c = 0 →
  Forall benign calls →
  let N := Z.of_nat (length calls) in
  let c' := exec (send_all calls) c in
  answer (send_all calls) c = Return tt ∧
  sequence c' = N mod 65536 ∧
  timestamp c' = N mod timestamp_period * SAMPLES_PER_FRAME ∧
  0 ≤ sequence c' ≤ 65535 ∧
  0 ≤ timestamp c' ≤ 4294967295 ∧
  (N * SAMPLES_PER_FRAME ≤ 4294967295 →
   timestamp c' = (N * SAMPLES_PER_FRAME) mod 2 ^ 32) ∧
  (sequence c' = 0 ↔ N mod 65536 = 0) ∧
  (timestamp c' = 0 ↔ N mod timestamp_period = 0).
Proof.
  intros HF Hc Hq Ht Hb N c'.
  destruct (send_all_counters c calls HF Hc Hq Ht Hb)
    as (c1 & Hrun & _ & Hq1 & Ht1).
  subst c'. unfold answer, exec. rewrite Hrun. cbn [fst snd]. fold N in Hq1, Ht1.
  pose proof (Z.mod_pos_bound N 65536 ltac:(lia)).
  pose proof (timestamp_value_range N HF).
  split; [done |]. split; [done |]. split; [done |].
  split; [lia |]. split; [lia |]. split; [| split].
  - intros Hfit.
    assert (HN : 0 ≤ N) by (subst N; lia).
    assert (N < timestamp_period).
    { unfold timestamp_period.
      assert (N ≤ 4294967295 / SAMPLES_PER_FRAME)
        by (apply Z.div_le_lower_bound; lia).
      lia. }
    rewrite Ht1, (Z.mod_small N timestamp_period) by lia.
    rewrite Z.mod_small; [done |]. change (2 ^ 32) with 4294967296. nia.
  - by rewrite Hq1.
  - rewrite Ht1. split; [nia | intros ->; lia].
Qed.

(** C10: the [N]th call of [send_audio_packet] builds its packet after
    it has advanced [sequence] and before it advances [timestamp]: the
    packet starts with [0x80 0x78], carries in bytes 2-3 the sequence number
    as it is after the call, [N mod 65536], and in bytes 4-7 the timestamp
    as it was before the call, the one left by the first [N - 1] calls.
    That packet is the one handed to the socket (or named in the warning,
    by its counters, when the socket would block). *)
Theorem nth_packet_header (c : VoiceClient) (calls : list Call) (k : Call) :
  0 < SAMPLES_PER_FRAME → sendable c → sequence c = 0 → timestamp c = 0 →
  Forall benign calls → benign k →
  let N := Z.of_nat (length calls) + 1 in
  let c1 := exec (send_all calls) c in
  let c2 := exec (send_audio_packet (call_random k) (call_io k) (call_data k)) c1 in
  ∃ packet,
    answer (_get_voice_packet (call_random k) (call_data k))
      (_checked_add attr_sequence 1 65535 c1) = Return packet ∧
    trace c2
    = trace c1 ++ sent_event (call_io k) packet (sequence c2) (timestamp c1) ∧
    take 2 packet = [Byte.x80; Byte.x78] ∧
    unpack_be (take 2 (drop 2 packet)) = sequence c2 ∧
    sequence c2 = N mod 65536 ∧
    unpack_be (take 4 (drop 4 packet)) = timestamp c1 ∧
    timestamp c1 = (N - 1) mod timestamp_period * SAMPLES_PER_FRAME ∧
    timestamp c2
    = (if timestamp c1 + SAMPLES_PER_FRAME >? 4294967295 then 0
       else timestamp c1 + SAMPLES_PER_FRAME).
Proof.
  intros HF Hc Hq Ht Hb Hk N c1 c2.
  destruct (send_all_counters c calls HF Hc Hq Ht Hb)
    as (c1' & Hrun & Hc1 & Hq1 & Ht1).
  assert (c1 = c1') as -> by (subst c1; unfold exec; by rewrite Hrun).
  clear Hrun. set (n := Z.of_nat (length calls)) in *.
  pose proof (Z.mod_pos_bound n 65536 ltac:(lia)) as Hqr.
  pose proof (timestamp_value_range n HF) as Htr.
  destruct Hc1 as (Hm & Hk1 & (v & Hv & Hr) & Hs & Hl). destruct Hm as [m Hm].
  destruct (send_audio_packet_benign c1' k m v Hm Hk1 Hv Hr Hs Hl Hk
              ltac:(rewrite Hq1; lia) ltac:(rewrite Ht1; lia))
    as (packet & Hget & Htake & Hstep).
  destruct (after_encrypt_fields m (_checked_add attr_sequence 1 65535 c1'))
    as (_ & _ & _ & _ & _ & Etr & Eq & Et).
  pose proof (checked_add_other_fields attr_sequence 1 65535 c1')
    as (_ & _ & _ & _ & _ & _ & Etr1).
  pose proof (checked_add_getattr attr_sequence 1 65535 c1') as Eq1.
  pose proof (checked_add_getattr_ne attr_sequence attr_timestamp 1 65535 c1'
                ltac:(done)) as Et1.
  cbn [getattr] in Eq1, Et1.
  assert (Hseq2 : sequence c2 = N mod 65536).
  { subst c2. unfold exec. rewrite Hstep. cbn [snd].
    rewrite (checked_add_getattr_ne attr_timestamp attr_sequence) by done.
    cbn. rewrite Eq, Eq1, Hq1. subst N. by apply checked_add_sequence_mod; lia. }
  assert (Hsame : sequence (_checked_add attr_sequence 1 65535 c1') = sequence c2).
  { rewrite Hseq2, Eq1, Hq1. subst N. apply checked_add_sequence_mod; lia. }
  rewrite Hsame in Htake, Hstep.
  pose proof (Z.mod_pos_bound N 65536 ltac:(lia)) as HNr.
  destruct (packet_header_fields packet (sequence c2) (timestamp c1') v Htake)
    as (Hfix & Hps & Hpt); [lia | lia |].
  exists packet. repeat split; try done.
  - unfold answer. by rewrite Hget.
  - unfold c2 at 1, exec. rewrite Hstep. cbn [snd].
    pose proof (checked_add_other_fields attr_timestamp SAMPLES_PER_FRAME
                  4294967295) as HF3.
    rewrite (proj2 (proj2 (proj2 (proj2 (proj2 (proj2 (HF3 _))))))).
    reflexivity.
  - rewrite Ht1. subst N. by replace (n + 1 - 1) with n by lia.
  - subst c2. unfold exec. rewrite Hstep. cbn [snd].
    rewrite (checked_add_getattr attr_timestamp). cbn. by rewrite Et, Et1.
Qed.

(** C9: when the call reaches [sendto], that is, the packet was built and
    there is a socket, and [sendto] raises [BlockingIOError], the call
    returns; a warning is logged in place of the transmission, and the
    object is otherwise as after a transmission: in particular [sequence]
    and [timestamp] have advanced the same way. *)
Theorem blocking_send_drops_packet (c c2 : VoiceClient)
  (random data packet : list byte) :
  _get_voice_packet random data (_checked_add attr_sequence 1 65535 c)
  = (Return packet, c2) →
  is_Some (socket c2) →
  let blocked := send_audio_packet random SendtoBlockingIOError data c in
  let sent := send_audio_packet random SendtoDone data c in
  blocked
  = (Return tt,
     _checked_add attr_timestamp SAMPLES_PER_FRAME 4294967295
       (set_trace
          (trace c2 ++ [EvLog (LogPacketDropped (sequence c2) (timestamp c2))])
          c2)) ∧
  sent
  = (Return tt,
     _checked_add attr_timestamp SAMPLES_PER_FRAME 4294967295
       (set_trace (trace c2 ++ [EvSendto packet]) c2)) ∧
  sequence blocked.2 = sequence sent.2 ∧
  timestamp blocked.2 = timestamp sent.2 ∧
  sequence blocked.2 = sequence c2 ∧
  (∀ p, EvSendto p ∈ trace blocked.2 → EvSendto p ∈ trace c2).
Proof.
  intros Hp [s Hs] blocked sent.
  assert (Hb : blocked = (Return tt,
     _checked_add attr_timestamp SAMPLES_PER_FRAME 4294967295
       (set_trace
          (trace c2 ++ [EvLog (LogPacketDropped (sequence c2) (timestamp c2))])
          c2))).
  { subst blocked. unfold send_audio_packet, bind at 1, modify at 1.
    unfold bind at 1. rewrite Hp. unfold bind at 1, bind at 1, get at 1.
    by rewrite Hs. }
  assert (Hd : sent = (Return tt,
     _checked_add attr_timestamp SAMPLES_PER_FRAME 4294967295
       (set_trace (trace c2 ++ [EvSendto packet]) c2))).
  { subst sent. unfold send_audio_packet, bind at 1, modify at 1.
    unfold bind at 1. rewrite Hp. unfold bind at 1, bind at 1, get at 1.
    by rewrite Hs. }
  rewrite Hb, Hd. cbn [snd]. repeat split.
  - by rewrite !(checked_add_getattr_ne attr_timestamp attr_sequence).
  - change (timestamp ?x) with (getattr attr_timestamp x).
    by rewrite !checked_add_getattr.
  - by rewrite !(checked_add_getattr_ne attr_timestamp attr_sequence).
  - intros p.
    rewrite (proj2 (proj2 (proj2 (proj2 (proj2 (proj2
               (checked_add_other_fields _ _ _ _))))))).
    cbn. rewrite elem_of_app, list_elem_of_singleton. intros [H | H]; [done |].
    discriminate.
Qed.


(** ** Lite nonces *)

Lemma slice_last_app (n : nat) (l k : list byte) :
  length k = n → slice_last n (l ++ k) = k.
Proof.
  intros H. unfold slice_last. rewrite length_app, H.
  replace (length l + n - n)%nat with (length l) by lia.
  apply drop_app_length.
Qed.

Lemma slice_but_last_app (n : nat) (l k : list byte) :
  length k = n → slice_but_last n (l ++ k) = l.
Proof.
  intros H. unfold slice_but_last. rewrite length_app, H.
  replace (length l + n - n)%nat with (length l) by lia.
  apply take_app_length.
Qed.

Lemma lite_nonce_prefix (packed : list byte) :
  length packed = 4%nat →
  take 4 (slice_assign_prefix 4 packed (bytearray 24)) = packed.
Proof. intros H. unfold slice_assign_prefix. by rewrite take_app_length'. Qed.

Lemma length_lite_nonce (packed : list byte) :
  length packed = 4%nat →
  length (slice_assign_prefix 4 packed (bytearray 24)) = NONCE_SIZE.
Proof. intros H. unfold slice_assign_prefix. rewrite length_app, H. done. Qed.

(** One sealing in lite mode. *)
Lemma encrypt_lite_returns (c : VoiceClient) (header data : list byte) :
  length (secret_key c) = KEY_SIZE → 0 ≤ _lite_nonce c ≤ 4294967295 →
  ∃ ct,
    box_encrypt (secret_key c)
      (slice_assign_prefix 4 (pack_be 4 (_lite_nonce c)) (bytearray 24)) data
    = Return ct ∧
    _encrypt_xsalsa20_poly1305_lite header data c
    = (Return (header ++ ct ++ pack_be 4 (_lite_nonce c)),
       _checked_add attr_lite_nonce 1 4294967295 c).
Proof.
  intros Hk Hl.
  destruct (box_encrypt_returns (secret_key c)
              (slice_assign_prefix 4 (pack_be 4 (_lite_nonce c)) (bytearray 24))
              data Hk) as [ct Hct].
  { apply length_lite_nonce, length_pack_be. }
  exists ct. split; [done |].
  unfold _encrypt_xsalsa20_poly1305_lite, bind, get, lift, modify, ret.
  rewrite (new_box_returns _ Hk), (struct_pack_I_returns _ Hl), Hct.
  by rewrite lite_nonce_prefix by apply length_pack_be.
Qed.

Lemma lite_nonce_next (n : Z) :
  0 ≤ n ≤ 4294967295 →
  (if n + 1 >? 4294967295 then 0 else n + 1) = (n + 1) mod 2 ^ 32.
Proof.
  intros H. change (2 ^ 32) with 4294967296.
  destruct (Z.gtb_spec (n + 1) 4294967295).
  - replace n with 4294967295 by lia. reflexivity.
  - rewrite Z.mod_small; lia.
Qed.

Lemma mod_shift_inj (a i j M : Z) :
  0 < M → 0 ≤ i < M → 0 ≤ j < M →
  (a + i) mod M = (a + j) mod M → i = j.
Proof.
  intros HM Hi Hj E.
  pose proof (Z.div_mod (a + i) M ltac:(lia)) as Di.
  pose proof (Z.div_mod (a + j) M ltac:(lia)) as Dj.
  rewrite E in Di.
  assert (i - j = M * ((a + i) / M - (a + j) / M)) by lia.
  assert ((a + i) / M - (a + j) / M = 0) by nia.
  lia.
Qed.

(** The packets of a run of lite sealings, and the counter after it. *)
Lemma seal_all_lite_nonces (inputs : list (list byte * list byte))
  (c : VoiceClient) :
  length (secret_key c) = KEY_SIZE → 0 ≤ _lite_nonce c ≤ 4294967295 →
  ∃ packets c',
    seal_all_lite inputs c = (Return packets, c') ∧
    length packets = length inputs ∧
    (∀ (i : nat) p, packets !! i = Some p →
       slice_last 4 p = pack_be 4 ((_lite_nonce c + Z.of_nat i) mod 2 ^ 32)) ∧
    _lite_nonce c'
    = (_lite_nonce c + Z.of_nat (length inputs)) mod 2 ^ 32.
Proof.
  revert c. induction inputs as [|[header data] rest IH]; intros c Hk Hl.
  - exists [], c. repeat split; [done |].
    cbn [length Z.of_nat]. rewrite Z.add_0_r, Z.mod_small; [done |].
    change (2 ^ 32) with 4294967296. lia.
  - destruct (encrypt_lite_returns c header data Hk Hl) as (ct & _ & Henc).
    set (c1 := _checked_add attr_lite_nonce 1 4294967295 c) in *.
    pose proof (checked_add_getattr attr_lite_nonce 1 4294967295 c) as Hn1.
    cbn [getattr] in Hn1. fold c1 in Hn1. rewrite lite_nonce_next in Hn1 by done.
    pose proof (checked_add_other_fields attr_lite_nonce 1 4294967295 c)
      as (_ & _ & Hk1 & _).
    fold c1 in Hk1.
    assert (Hl1 : 0 ≤ _lite_nonce c1 ≤ 4294967295).
    { rewrite Hn1. pose proof (Z.mod_pos_bound (_lite_nonce c + 1) (2 ^ 32)).
      change (2 ^ 32) with 4294967296 in *. lia. }
    destruct (IH c1 ltac:(by rewrite Hk1) Hl1) as (packets & c' & Hrun & Hlen & Hnon & Hfin).
    exists ((header ++ ct ++ pack_be 4 (_lite_nonce c)) :: packets), c'.
    repeat split.
    + cbn [seal_all_lite]. unfold bind, ret. by rewrite Henc, Hrun.
    + cbn [length]. by rewrite Hlen.
    + intros [|i] p Hp.
      * assert (p = header ++ ct ++ pack_be 4 (_lite_nonce c)) as ->
          by (cbn [lookup list_lookup] in Hp; congruence).
        rewrite app_assoc, slice_last_app by apply length_pack_be.
        cbn [Z.of_nat]. rewrite Z.add_0_r, Z.mod_small; [done |].
        change (2 ^ 32) with 4294967296. lia.
      * cbn [lookup list_lookup] in Hp. rewrite (Hnon i p Hp), Hn1.
        rewrite Z.add_mod_idemp_l by done. f_equal. f_equal. lia.
    + rewrite Hfin, Hn1, Z.add_mod_idemp_l by done. f_equal.
      cbn [length]. lia.
Qed.

(** C5: in a run of at most [2^32] consecutive sealings in lite mode, the
    4-byte nonce at the end of the [i]th packet is the counter
    [(n + i) mod 2^32], where [n] is the counter at the start; the nonces of
    two different packets of the run differ; the counter goes up by one per
    call, from [2^32 - 1] back to [0], and is never negative. *)
Theorem lite_nonces_distinct (inputs : list (list byte * list byte))
  (c : VoiceClient) :
  length (secret_key c) = KEY_SIZE → 0 ≤ _lite_nonce c ≤ 4294967295 →
  Z.of_nat (length inputs) ≤ 2 ^ 32 →
  ∃ packets,
    answer (seal_all_lite inputs) c = Return packets ∧
    length packets = length inputs ∧
    (∀ (i : nat) p, packets !! i = Some p →
       slice_last 4 p = pack_be 4 ((_lite_nonce c + Z.of_nat i) mod 2 ^ 32)) ∧
    (∀ (i j : nat) p q, i ≠ j → packets !! i = Some p → packets !! j = Some q →
       slice_last 4 p ≠ slice_last 4 q) ∧
    _lite_nonce (exec (seal_all_lite inputs) c)
    = (_lite_nonce c + Z.of_nat (length inputs)) mod 2 ^ 32 ∧
    0 ≤ _lite_nonce (exec (seal_all_lite inputs) c) ≤ 4294967295 ∧
    _lite_nonce (_checked_add attr_lite_nonce 1 4294967295 c)
    = (_lite_nonce c + 1) mod 2 ^ 32.
Proof.
  intros Hk Hl HN.
  destruct (seal_all_lite_nonces inputs c Hk Hl)
    as (packets & c' & Hrun & Hlen & Hnon & Hfin).
  exists packets. unfold answer, exec. rewrite Hrun. cbn [fst snd].
  repeat split; try done.
  - intros i j p q Hij Hp Hq E.
    rewrite (Hnon i p Hp), (Hnon j q Hq) in E.
    pose proof (lookup_lt_Some _ _ _ Hp). pose proof (lookup_lt_Some _ _ _ Hq).
    apply pack_be_inj in E.
    + apply mod_shift_inj in E; lia.
    + apply Z.mod_pos_bound. done.
    + apply Z.mod_pos_bound. done.
  - rewrite Hfin. apply Z.mod_pos_bound. done.
  - rewrite Hfin.
    pose proof (Z.mod_pos_bound (_lite_nonce c + Z.of_nat (length inputs)) (2 ^ 32)).
    change (2 ^ 32) with 4294967296 in *. lia.
  - change (_lite_nonce ?x) with (getattr attr_lite_nonce x).
    rewrite checked_add_getattr. cbn [getattr]. by apply lite_nonce_next.
Qed.


(** ** Round trip *)

Lemma strip_header_passes (p : list byte) :
  passes_through p → _strip_header p = Return p.
Proof.
  destruct p as [|b0 [|b1 rest]]; cbn [passes_through]; [done | |].
  - intros [H | []]. unfold _strip_header. cbn [lookup list_lookup].
    destruct (Byte.eqb b0 Byte.xbe) eqn:E; [| done].
    by apply Byte.byte_dec_bl in E.
  - intros H. unfold _strip_header. cbn [lookup list_lookup].
    destruct (Byte.eqb b0 Byte.xbe) eqn:E0; [| done].
    apply Byte.byte_dec_bl in E0.
    destruct (Byte.eqb b1 Byte.xde) eqn:E1; [| done].
    apply Byte.byte_dec_bl in E1.
    destruct H as [H | [H | H]]; [done | done |].
    destruct (Nat.ltb_spec 4 (length (b0 :: b1 :: rest))); [lia | done].
Qed.

Lemma encrypt_plain_returns (c : VoiceClient) (header data : list byte) :
  length (secret_key c) = KEY_SIZE → length header = 12%nat →
  ∃ ct,
    box_encrypt (secret_key c) (slice_assign_prefix 12 header (bytearray 24))
      data = Return ct ∧
    _encrypt_xsalsa20_poly1305 header data c = (Return (header ++ ct), c).
Proof.
  intros Hk Hh.
  destruct (box_encrypt_returns (secret_key c)
              (slice_assign_prefix 12 header (bytearray 24)) data Hk)
    as [ct Hct].
  { unfold slice_assign_prefix. rewrite length_app, Hh. done. }
  exists ct. split; [done |].
  unfold _encrypt_xsalsa20_poly1305, bind, get, lift, ret.
  by rewrite (new_box_returns _ Hk), Hct.
Qed.

Lemma encrypt_suffix_returns (c : VoiceClient) (random header data : list byte) :
  length (secret_key c) = KEY_SIZE → length random = NONCE_SIZE →
  ∃ ct,
    box_encrypt (secret_key c) random data = Return ct ∧
    _encrypt_xsalsa20_poly1305_suffix random header data c
    = (Return (header ++ ct ++ random), c).
Proof.
  intros Hk Hn.
  destruct (box_encrypt_returns (secret_key c) random data Hk Hn) as [ct Hct].
  exists ct. split; [done |].
  unfold _encrypt_xsalsa20_poly1305_suffix, bind, get, lift, ret.
  by rewrite (new_box_returns _ Hk), Hct.
Qed.

(** Opening what was sealed, on any object with the same key.  The type of
    the packet does not matter in the plain and the lite mode; in the
    suffix mode the packet has to be a [bytes]. *)
Lemma decrypt_encrypt_packet (m : Mode) (c c' c2 : VoiceClient)
  (random header data packet : list byte) (ty : BytesType) :
  length (secret_key c) = KEY_SIZE → length random = NONCE_SIZE →
  length header = 12%nat → 0 ≤ _lite_nonce c ≤ 4294967295 →
  encrypt_packet m random header data c = (Return packet, c') →
  secret_key c2 = secret_key c →
  (m = xsalsa20_poly1305_suffix → ty = t_bytes) →
  decrypt_packet m (take 12 packet) (mkBuffer ty (drop 12 packet)) c2
  = (_strip_header data, c2).
Proof.
  intros Hk Hn Hh Hl Henc Hk2 Hty.
  assert (Hk2' : length (secret_key c2) = KEY_SIZE) by congruence.
  destruct m; cbn [encrypt_packet decrypt_packet] in *.
  - destruct (encrypt_lite_returns c header data Hk Hl) as (ct & Hct & E).
    assert (packet = header ++ ct ++ pack_be 4 (_lite_nonce c)) as ->
      by congruence.
    rewrite take_app_length', drop_app_length' by done.
    unfold _decrypt_xsalsa20_poly1305_lite, bind, get, lift.
    cbn [buf_bytes].
    rewrite (new_box_returns _ Hk2'), Hk2.
    rewrite slice_last_app, slice_but_last_app by apply length_pack_be.
    by rewrite (box_decrypt_encrypt _ _ _ _ Hct).
  - destruct (encrypt_suffix_returns c random header data Hk Hn)
      as (ct & Hct & E).
    assert (packet = header ++ ct ++ random) as -> by congruence.
    rewrite take_app_length', drop_app_length' by done.
    rewrite (Hty eq_refl).
    unfold _decrypt_xsalsa20_poly1305_suffix, box_decrypt_as_held, bind, get,
      lift.
    cbn [buf_bytes buf_type].
    rewrite (new_box_returns _ Hk2'), Hk2.
    rewrite slice_last_app, slice_but_last_app by done.
    rewrite decide_True by done.
    by rewrite (box_decrypt_encrypt _ _ _ _ Hct).
  - destruct (encrypt_plain_returns c header data Hk Hh) as (ct & Hct & E).
    assert (packet = header ++ ct) as -> by congruence.
    rewrite take_app_length', drop_app_length' by done.
    unfold _decrypt_xsalsa20_poly1305, bind, get, lift.
    cbn [buf_bytes].
    rewrite (new_box_returns _ Hk2'), Hk2.
    by rewrite (box_decrypt_encrypt _ _ _ _ Hct).
Qed.

(** In the suffix mode the packet as it is built is not opened: its nonce
    slice is a [bytearray], which PyNaCl refuses, whatever the payload. *)
Lemma suffix_refuses_built_packet (c c' c2 : VoiceClient)
  (random header data packet : list byte) :
  length (secret_key c) = KEY_SIZE → length random = NONCE_SIZE →
  encrypt_packet xsalsa20_poly1305_suffix random header data c
  = (Return packet, c') →
  length header = 12%nat → secret_key c2 = secret_key c →
  decrypt_packet xsalsa20_poly1305_suffix (take 12 packet)
    (mkBuffer t_bytearray (drop 12 packet)) c2
  = (Raise TypeError, c2).
Proof.
  intros Hk Hn Henc Hh Hk2.
  assert (Hk2' : length (secret_key c2) = KEY_SIZE) by congruence.
  cbn [encrypt_packet decrypt_packet] in *.
  destruct (encrypt_suffix_returns c random header data Hk Hn)
    as (ct & Hct & E).
  assert (packet = header ++ ct ++ random) as -> by congruence.
  rewrite drop_app_length' by done.
  unfold _decrypt_xsalsa20_poly1305_suffix, box_decrypt_as_held, bind, get,
    lift.
  cbn [buf_bytes buf_type].
  rewrite (new_box_returns _ Hk2').
  rewrite slice_last_app by done.
  by rewrite decide_True by done.
Qed.

(** C1, as the code has it: a payload that [_strip_header] hands back as
    it is (one that is not empty and does not start with the extension
    marker [0xBE 0xDE], see [passes_through]) is recovered exactly by
    parsing the packet built from it: the twelve-byte header is split off,
    the rest is opened in the same mode, and [_strip_header] is applied.
    In the plain and the lite mode the packet is parsed as a [bytes] or as
    the [bytearray] it is built as; in the suffix mode it is parsed as a
    [bytes]. *)
Theorem parse_recovers_payload (m : Mode) (c : VoiceClient)
  (random p : list byte) (v : Z) (ty : BytesType) :
  mode c = Some m → length (secret_key c) = KEY_SIZE →
  length random = NONCE_SIZE →
  0 ≤ sequence c ≤ 65535 → 0 ≤ timestamp c ≤ 4294967295 →
  ssrc c = Some v → 0 ≤ v ≤ 4294967295 →
  0 ≤ _lite_nonce c ≤ 4294967295 →
  passes_through p →
  (m = xsalsa20_poly1305_suffix → ty = t_bytes) →
  ∃ packet,
    _get_voice_packet random p c = (Return packet, after_encrypt m c) ∧
    answer (parse_inbound_packet (mkBuffer ty packet)) (after_encrypt m c)
    = Return p.
Proof.
  intros Hm Hk Hn Hq Ht Hv Hr Hl Hp Hty.
  destruct (encrypt_packet_returns m c random
              (header_bytes (sequence c) (timestamp c) v) p Hk Hn
              ltac:(done) Hl) as (packet & Henc & _).
  exists packet. split.
  - unfold _get_voice_packet, bind at 1.
    rewrite (rtp_header_returns c v) by done.
    unfold bind, get. by rewrite Hm.
  - destruct (after_encrypt_fields m c) as (_ & Em & Ek & _).
    unfold answer, parse_inbound_packet, bind, get. rewrite Em, Hm.
    cbn [buf_bytes buf_type].
    rewrite (decrypt_encrypt_packet m c (after_encrypt m c) (after_encrypt m c)
               random (header_bytes (sequence c) (timestamp c) v) p packet ty)
      by done.
    cbn [fst]. by apply strip_header_passes.
Qed.

(** What the theorem leaves out: in the suffix mode the packet as
    [_get_voice_packet] returns it, a [bytearray], is not opened at all,
    whatever the payload.  The plain and the lite opener convert the nonce
    with [bytes(nonce)]; the suffix opener does not. *)
Lemma suffix_packet_as_built_refused (c : VoiceClient) (random p : list byte)
  (v : Z) :
  mode c = Some xsalsa20_poly1305_suffix →
  length (secret_key c) = KEY_SIZE → length random = NONCE_SIZE →
  0 ≤ sequence c ≤ 65535 → 0 ≤ timestamp c ≤ 4294967295 →
  ssrc c = Some v → 0 ≤ v ≤ 4294967295 →
  0 ≤ _lite_nonce c ≤ 4294967295 →
  ∃ packet,
    _get_voice_packet random p c = (Return packet, c) ∧
    parse_inbound_packet (as_built packet) c = (Raise TypeError, c).
Proof.
  intros Hm Hk Hn Hq Ht Hv Hr Hl.
  destruct (encrypt_packet_returns xsalsa20_poly1305_suffix c random
              (header_bytes (sequence c) (timestamp c) v) p Hk Hn
              ltac:(done) Hl) as (packet & Henc & _).
  change (after_encrypt xsalsa20_poly1305_suffix c) with c in Henc.
  exists packet. split.
  - unfold _get_voice_packet, bind at 1.
    rewrite (rtp_header_returns c v) by done.
    unfold bind, get. by rewrite Hm.
  - unfold parse_inbound_packet, as_built, bind, get. rewrite Hm.
    cbn [buf_bytes buf_type].
    by rewrite (suffix_refuses_built_packet c c c random
                  (header_bytes (sequence c) (timestamp c) v) p packet).
Qed.

End CodecFacts.

(** ** The examples instantiate the interfaces *)

#[global] Instance toy_box_laws : SecretBoxLaws toy_box.
Proof.
  split.
  - intros key nonce msg Hk Hn. exists (toy_tag ++ msg).
    cbn [box_encrypt toy_box]. by rewrite decide_True.
  - intros key nonce msg ct. cbn [box_encrypt box_decrypt toy_box].
    destruct (decide _); [| done].
    intros E. assert (ct = toy_tag ++ msg) as -> by congruence.
    rewrite decide_True by (by rewrite take_app_length').
    by rewrite drop_app_length'.
Qed.

Lemma example_client_sendable (m : Mode) : sendable (example_client m).
Proof.
  unfold sendable. split; [by exists m |].
  split; [reflexivity |].
  split; [exists 99; split; [reflexivity | lia] |].
  split; [by eexists | vm_compute; split; discriminate].
Defined.

Lemma example_call_benign (data : list byte) :
  benign (example_call SendtoDone data).
Proof. split; [reflexivity | by left]. Defined.

Lemma parse_recovers_payload_witness :
  ∃ packet,
    _get_voice_packet (replicate 24 Byte.x03) [Byte.x01]
      (example_client xsalsa20_poly1305_suffix)
    = (Return packet,
       after_encrypt xsalsa20_poly1305_suffix
         (example_client xsalsa20_poly1305_suffix)) ∧
    answer (parse_inbound_packet (mkBuffer t_bytes packet))
      (after_encrypt xsalsa20_poly1305_suffix
         (example_client xsalsa20_poly1305_suffix))
    = Return [Byte.x01].
Proof.
  apply (parse_recovers_payload xsalsa20_poly1305_suffix
           (example_client xsalsa20_poly1305_suffix)
           (replicate 24 Byte.x03) [Byte.x01] 99 t_bytes).
  - reflexivity.
  - reflexivity.
  - reflexivity.
  - vm_compute. split; discriminate.
  - vm_compute. split; discriminate.
  - reflexivity.
  - lia.
  - vm_compute. split; discriminate.
  - vm_compute. left. discriminate.
  - reflexivity.
Defined.

(** C1 as stated fails, in every mode, also when the packet is parsed as
    the [bytes] every opener accepts.  An empty payload is sealed, but
    opening the packet raises [IndexError] in [_strip_header]; and a
    payload of 2008 bytes that starts with [0xBE 0xDE 0x00 0x01] comes back
    without its first eight bytes. *)
Lemma parse_loses_payload :
  Forall
    (λ m : Mode,
       let c := example_client m in
       let random := replicate 24 Byte.x03 in
       let long :=
         [Byte.xbe; Byte.xde; Byte.x00; Byte.x01] ++ replicate 2004 Byte.x01 in
       (∃ packet c',
          _get_voice_packet random [] c = (Return packet, c') ∧
          answer (parse_inbound_packet (mkBuffer t_bytes packet)) c'
          = Raise IndexError) ∧
       (∃ packet c',
          _get_voice_packet random long c = (Return packet, c') ∧
          answer (parse_inbound_packet (mkBuffer t_bytes packet)) c'
          = Return (drop 8 long) ∧
          drop 8 long ≠ long))
    supported_modes.
Proof.
  unfold supported_modes.
  repeat (apply Forall_cons; split); [.. | by apply Forall_nil];
    (split;
     [ eexists _, _; split; vm_compute; reflexivity
     | eexists _, _;
       (split; [vm_compute; reflexivity |]);
       (split; [vm_compute; reflexivity |]);
       intros E; apply (f_equal length) in E; vm_compute in E; discriminate ]).
Qed.

Lemma counters_after_calls_witness :
  let OE := opus_48k_20ms in
  let c := example_client xsalsa20_poly1305_lite in
  let calls := [example_call SendtoDone [Byte.x01];
                example_call SendtoDone [Byte.x02]] in
  let N := Z.of_nat (length calls) in
  let c' := exec (send_all calls) c in
  answer (send_all calls) c = Return tt ∧
  sequence c' = N mod 65536 ∧
  timestamp c' = N mod timestamp_period * SAMPLES_PER_FRAME ∧
  0 ≤ sequence c' ≤ 65535 ∧
  0 ≤ timestamp c' ≤ 4294967295 ∧
  (N * SAMPLES_PER_FRAME ≤ 4294967295 →
   timestamp c' = (N * SAMPLES_PER_FRAME) mod 2 ^ 32) ∧
  (sequence c' = 0 ↔ N mod 65536 = 0) ∧
  (timestamp c' = 0 ↔ N mod timestamp_period = 0).
Proof.
  intros OE c calls.
  apply (@counters_after_calls toy_box toy_box_laws OE c calls).
  - vm_compute. reflexivity.
  - apply example_client_sendable.
  - reflexivity.
  - reflexivity.
  - repeat constructor.
Defined.

(** C2 as stated fails for the timestamp.  With 960 samples per frame, the
    4473925th call finds the timestamp at [4473924 * 960 = 4294967040]; the
    next value does not fit 32 bits, and the counter goes to [0], where
    [(4473925 * 960) mod 2^32] is [704]. *)
Lemma timestamp_resets_to_zero :
  let OE := opus_48k_20ms in
  let c := example_client xsalsa20_poly1305_lite in
  let calls := replicate (Z.to_nat 4473925) (example_call SendtoDone []) in
  let N := Z.of_nat (length calls) in
  N = 4473925 ∧
  answer (send_all calls) c = Return tt ∧
  timestamp (exec (send_all calls) c) = 0 ∧
  (N * SAMPLES_PER_FRAME) mod 2 ^ 32 = 704 ∧
  timestamp (exec (send_all calls) c) ≠ (N * SAMPLES_PER_FRAME) mod 2 ^ 32.
Proof.
  intros OE c calls N.
  assert (HN : N = 4473925).
  { subst N calls. rewrite length_replicate. apply Z2Nat.id. lia. }
  destruct (@send_all_counters toy_box toy_box_laws OE c calls)
    as (c' & Hrun & _ & _ & Ht).
  - vm_compute. reflexivity.
  - apply example_client_sendable.
  - reflexivity.
  - reflexivity.
  - apply Forall_replicate. apply example_call_benign.
  - fold N in Ht. rewrite HN in Ht |- *.
    unfold answer, exec. rewrite Hrun. cbn [fst snd]. rewrite Ht.
    repeat split; try reflexivity. vm_compute. discriminate.
Qed.

Lemma nth_packet_header_witness :
  let OE := opus_48k_20ms in
  let c := example_client xsalsa20_poly1305 in
  let calls := [example_call SendtoDone [Byte.x01]] in
  let k := example_call SendtoDone [Byte.x02] in
  let N := Z.of_nat (length calls) + 1 in
  let c1 := exec (send_all calls) c in
  let c2 :=
    exec (send_audio_packet (call_random k) (call_io k) (call_data k)) c1 in
  ∃ packet,
    answer (_get_voice_packet (call_random k) (call_data k))
      (_checked_add attr_sequence 1 65535 c1) = Return packet ∧
    trace c2
    = trace c1 ++ sent_event (call_io k) packet (sequence c2) (timestamp c1) ∧
    take 2 packet = [Byte.x80; Byte.x78] ∧
    unpack_be (take 2 (drop 2 packet)) = sequence c2 ∧
    sequence c2 = N mod 65536 ∧
    unpack_be (take 4 (drop 4 packet)) = timestamp c1 ∧
    timestamp c1 = (N - 1) mod timestamp_period * SAMPLES_PER_FRAME ∧
    timestamp c2
    = (if timestamp c1 + SAMPLES_PER_FRAME >? 4294967295 then 0
       else timestamp c1 + SAMPLES_PER_FRAME).
Proof.
  intros OE c calls k.
  apply (@nth_packet_header toy_box toy_box_laws OE c calls k).
  - vm_compute. reflexivity.
  - apply example_client_sendable.
  - reflexivity.
  - reflexivity.
  - repeat constructor.
  - apply example_call_benign.
Defined.

(** The first packet of a new connection carries sequence 1 and
    timestamp 0 (here with ssrc 99, in the plain mode). *)
Example first_packet_header :
  let OE := opus_48k_20ms in
  let c := example_client xsalsa20_poly1305 in
  let c' := exec (send_audio_packet [] SendtoDone [Byte.x01]) c in
  (∃ packet,
     trace c' = [EvSendto packet] ∧
     take 12 packet
     = [Byte.x80; Byte.x78; Byte.x00; Byte.x01;
        Byte.x00; Byte.x00; Byte.x00; Byte.x00;
        Byte.x00; Byte.x00; Byte.x00; Byte.x63]) ∧
  sequence c' = 1 ∧ timestamp c' = 960.
Proof. split; [eexists; split; vm_compute; reflexivity | done]. Qed.

Lemma blocking_send_drops_packet_witness :
  let OE := opus_48k_20ms in
  let c := example_client xsalsa20_poly1305_lite in
  let random := replicate 24 Byte.x03 in
  let data := [Byte.x01] in
  let built :=
    _get_voice_packet random data (_checked_add attr_sequence 1 65535 c) in
  let packet := match built.1 with Return p => p | Raise _ => [] end in
  let c2 := built.2 in
  let blocked := send_audio_packet random SendtoBlockingIOError data c in
  let sent := send_audio_packet random SendtoDone data c in
  blocked
  = (Return tt,
     _checked_add attr_timestamp SAMPLES_PER_FRAME 4294967295
       (set_trace
          (trace c2 ++ [EvLog (LogPacketDropped (sequence c2) (timestamp c2))])
          c2)) ∧
  sent
  = (Return tt,
     _checked_add attr_timestamp SAMPLES_PER_FRAME 4294967295
       (set_trace (trace c2 ++ [EvSendto packet]) c2)) ∧
  sequence blocked.2 = sequence sent.2 ∧
  timestamp blocked.2 = timestamp sent.2 ∧
  sequence blocked.2 = sequence c2 ∧
  (∀ p, EvSendto p ∈ trace blocked.2 → EvSendto p ∈ trace c2).
Proof.
  intros OE c random data built packet c2.
  apply (@blocking_send_drops_packet toy_box OE c c2 random data packet).
  - vm_compute. reflexivity.
  - vm_compute. by eexists.
Defined.

Lemma lite_nonces_distinct_witness :
  let c := example_client xsalsa20_poly1305_lite in
  let inputs := [([Byte.x80], [Byte.x01]); ([Byte.x80], [Byte.x01]);
                 ([Byte.x80], [Byte.x01])] in
  ∃ packets,
    answer (seal_all_lite inputs) c = Return packets ∧
    length packets = length inputs ∧
    (∀ (i : nat) p, packets !! i = Some p →
       slice_last 4 p = pack_be 4 ((_lite_nonce c + Z.of_nat i) mod 2 ^ 32)) ∧
    (∀ (i j : nat) p q, i ≠ j → packets !! i = Some p → packets !! j = Some q →
       slice_last 4 p ≠ slice_last 4 q) ∧
    _lite_nonce (exec (seal_all_lite inputs) c)
    = (_lite_nonce c + Z.of_nat (length inputs)) mod 2 ^ 32 ∧
    0 ≤ _lite_nonce (exec (seal_all_lite inputs) c) ≤ 4294967295 ∧
    _lite_nonce (_checked_add attr_lite_nonce 1 4294967295 c)
    = (_lite_nonce c + 1) mod 2 ^ 32.
Proof.
  intros c inputs.
  apply (@lite_nonces_distinct toy_box toy_box_laws inputs c).
  - reflexivity.
  - vm_compute. split; discriminate.
  - vm_compute. discriminate.
Defined.

(** ** Signalling handlers *)

(** C4, as the code has it: when [endpoint] or [token] is absent from the
    payload, [on_voice_server_update] returns without completing either
    condition and leaves [endpoint] and the socket as they were; but unless
    the server condition was already complete (then nothing changes but the
    log), [token] has been overwritten with the token of the payload,
    [None] when it is absent. *)
Theorem server_update_missing_field (c : VoiceClient) (data : VoiceServerData) :
  vsrv_endpoint data = None ∨ vsrv_token data = None →
  let c' := exec (on_voice_server_update data) c in
  answer (on_voice_server_update data) c = Return tt ∧
  _voice_server_complete c' = _voice_server_complete c ∧
  _voice_state_complete c' = _voice_state_complete c ∧
  endpoint c' = endpoint c ∧
  socket c' = socket c ∧
  token c'
  = (if _voice_server_complete c then token c else vsrv_token data) ∧
  trace c'
  = trace c ++ [EvLog (if _voice_server_complete c then LogIgnoringExtraneous
                       else LogAwaitingEndpoint)].
Proof.
  intros H c'. subst c'.
  destruct data as [tok g ch ep]. cbn [vsrv_endpoint vsrv_token] in H.
  unfold answer, exec, on_voice_server_update, bind at 1, get at 1.
  destruct (_voice_server_complete c) eqn:E.
  - cbn. rewrite E. done.
  - destruct g as [g|], tok as [tok|], ep as [ep|];
      try (destruct H; discriminate); cbn; rewrite ?E; done.
Qed.

Lemma server_update_missing_field_witness :
  let c := renegotiating_client in
  let data := mkVoiceServerData (Some "new-token"%string) (Some 1) None None in
  let c' := exec (on_voice_server_update data) c in
  answer (on_voice_server_update data) c = Return tt ∧
  _voice_server_complete c' = _voice_server_complete c ∧
  _voice_state_complete c' = _voice_state_complete c ∧
  endpoint c' = endpoint c ∧
  socket c' = socket c ∧
  token c'
  = (if _voice_server_complete c then token c else vsrv_token data) ∧
  trace c'
  = trace c ++ [EvLog (if _voice_server_complete c then LogIgnoringExtraneous
                       else LogAwaitingEndpoint)].
Proof.
  intros c data.
  apply (server_update_missing_field c data). left. reflexivity.
Defined.

(** C4 as stated fails: a payload with a token and no endpoint, received
    during a handshake by a client that holds an earlier pair, replaces
    the token and keeps the earlier endpoint. *)
Lemma server_update_replaces_token_alone :
  let c := renegotiating_client in
  let data := mkVoiceServerData (Some "new-token"%string) (Some 1) None None in
  let c' := exec (on_voice_server_update data) c in
  vsrv_endpoint data = None ∧
  (token c, endpoint c) = (Some "old-token"%string, Some "old.example"%string) ∧
  (token c', endpoint c') = (Some "new-token"%string, Some "old.example"%string) ∧
  (token c', endpoint c') ≠ (token c, endpoint c).
Proof. repeat split. discriminate. Qed.

(** The other half of C4 holds: [endpoint] changes only on a payload that
    has both fields, and then [token] is the token of that payload. *)
Lemma endpoint_replaced_with_token (c : VoiceClient) (data : VoiceServerData) :
  let c' := exec (on_voice_server_update data) c in
  endpoint c' = endpoint c ∨
  ∃ ep tok, vsrv_endpoint data = Some ep ∧ vsrv_token data = Some tok ∧
            endpoint c' = Some (endpoint_host ep) ∧ token c' = Some tok.
Proof.
  intros c'. subst c'. destruct data as [tok g ch ep].
  unfold exec, on_voice_server_update, bind at 1, get at 1.
  cbn [vsrv_endpoint vsrv_token vsrv_guild_id vsrv_channel_id].
  destruct (_voice_server_complete c) eqn:E; [left; cbn; by rewrite ?E |].
  destruct tok as [tok|], ep as [ep|]; [right | left | left | left].
  - exists ep, tok.
    destruct g, (_handshaking c) eqn:Eh, (ws c) eqn:Ew;
      do 3 (cbn -[endpoint_host]; rewrite ?E, ?Eh, ?Ew); done.
  - destruct g; cbn; rewrite ?E; done.
  - destruct g; cbn; rewrite ?E; done.
  - destruct g; cbn; rewrite ?E; done.
Qed.

Section ConnectionFacts.
Context {SC : StateCache}.

(** What [disconnect] leaves in the trace: the record of its call, then
    events of the teardown only. *)
Lemma disconnect_trace (force : bool) (c : VoiceClient) :
  ∃ rest,
    trace (exec (disconnect force) c)
    = trace c ++ EvCall (m_disconnect force) :: rest ∧
    forallb teardown_event rest = true.
Proof.
  unfold exec, disconnect, is_connected, try_finally, voice_disconnect,
    cleanup, emit, bind, get, modify, ret, raise.
  cbn. destruct force, (_connected c) eqn:Ec; cbn [negb andb].
  all: try (exists []; split; [reflexivity | done]).
  all: destruct (ws c) eqn:Ew, (channel c) eqn:Eh, (socket c) eqn:Es;
    eexists; do 4 (cbn; rewrite ?Ew, ?Eh, ?Es); cbn;
    (split; [rewrite <- ?app_assoc; cbn [app]; reflexivity | reflexivity]).
Qed.


(** [disconnect], step by step. *)
Lemma disconnect_unfold (force : bool) (c : VoiceClient) :
  disconnect force c
  = let c0 := exec (emit (EvCall (m_disconnect force))) c in
    if negb force && negb (_connected c) then (Return tt, c0)
    else
      let c1 := set_connected false (exec (emit EvPlayerStop) c0) in
      let c2 := match ws c with
                | Some _ => exec (emit (EvWsClose None)) c1
                | None => c1
                end in
      match channel c with
      | None => (Raise AttributeError, c2)
      | Some _ =>
          let c3 := exec (emit EvCleanup)
                      (exec (emit (EvChangeVoiceState None))
                         (exec (emit (EvLog LogHandshakeTerminated)) c2)) in
          (Return tt,
           match socket c with
           | Some s =>
               exec (emit EvSocketClose)
                 (set_socket (Some (mkSocket (sock_blocking s) true)) c3)
           | None => c3
           end)
      end.
Proof.
  unfold disconnect, is_connected, try_finally, voice_disconnect,
    cleanup, exec, emit, bind, get, modify, ret, raise.
  cbn. destruct force, (_connected c) eqn:Ec; cbn [negb andb]; try done.
  all: destruct (ws c) eqn:Ew, (channel c) eqn:Eh, (socket c) eqn:Es;
    do 4 (cbn; rewrite ?Ew, ?Eh, ?Es); reflexivity.
Qed.

(** An unforced [disconnect] on a client that is not connected returns at
    its guard. *)
Lemma disconnect_not_connected (c : VoiceClient) :
  _connected c = false →
  disconnect false c = (Return tt, exec (emit (EvCall (m_disconnect false))) c).
Proof. intros Hc. rewrite disconnect_unfold, Hc. reflexivity. Qed.

(** A [disconnect] that gets past its guard on a client with a channel
    runs the whole teardown, in this order. *)
Lemma disconnect_runs_teardown (force : bool) (c : VoiceClient) :
  is_Some (channel c) → force = true ∨ _connected c = true →
  answer (disconnect force) c = Return tt ∧
  trace (exec (disconnect force) c)
  = trace c ++ [EvCall (m_disconnect force); EvPlayerStop]
      ++ match ws c with Some _ => [EvWsClose None] | None => [] end
      ++ [EvLog LogHandshakeTerminated; EvChangeVoiceState None; EvCleanup]
      ++ match socket c with Some _ => [EvSocketClose] | None => [] end ∧
  _connected (exec (disconnect force) c) = false ∧
  socket (exec (disconnect force) c)
  = match socket c with
    | Some s => Some (mkSocket (sock_blocking s) true)
    | None => None
    end.
Proof.
  intros [ch Hch] Hgo. unfold answer, exec.
  rewrite disconnect_unfold, Hch.
  replace (negb force && negb (_connected c)) with false
    by (destruct Hgo as [-> | ->]; [done | by rewrite andb_false_r]).
  destruct (ws c) eqn:Ew, (socket c) eqn:Es; cbn;
    rewrite <- ?app_assoc, ?Ew, ?Hch; done.
Qed.


(** [potential_reconnect] starts its wait in that state: the connected
    flag is cleared before [_potentially_reconnecting] is set. *)
Lemma potential_reconnect_wait_state (c : VoiceClient) :
  reconnect_wait (_connections c + 1) (ws c)
    (exec (emit (EvCall m_potential_reconnect);;
           modify (set_connected false);;
           prepare_handshake;;
           modify (set_potentially_reconnecting true)) c).
Proof. done. Qed.

(** ** Supervisory loop *)

(** C8, as the code has it: when the websocket is closed with code 1000
    during a pass of the loop of [poll_voice_ws], the loop logs, calls
    [disconnect()] and ends, whatever would come next: it is the program
    "log, disconnect, break".  What it adds to the trace is the log line,
    the record of the call of [disconnect] and events of the teardown; no
    call of [potential_resume], [potential_reconnect] or [connect] is
    among them.  The teardown runs, in full, when the client is connected
    and has a channel; when the client is not connected, [disconnect()]
    returns at its guard and nothing is torn down. *)
Theorem normal_closure_tears_down (reconnect : bool) (c : VoiceClient)
  (it : Iteration) (rest : list Iteration) :
  is_Some (ws c) → it_poll it = PollRaises (ConnectionClosed 1000) →
  let c' := exec (poll_voice_ws reconnect (it :: rest)) c in
  poll_voice_ws reconnect (it :: rest) c
  = (emit (EvLog (LogDisconnectNormal 1000));;
     disconnect false;;
     ret Exited) c ∧
  answer (poll_voice_ws reconnect (it :: rest)) c ≠ Return StillPolling ∧
  (∃ evs,
     trace c'
     = trace c ++ EvLog (LogDisconnectNormal 1000)
         :: EvCall (m_disconnect false) :: evs ∧
     forallb teardown_event evs = true ∧
     forallb (λ ev, negb (reconnect_call ev))
       (EvLog (LogDisconnectNormal 1000) :: EvCall (m_disconnect false) :: evs)
     = true) ∧
  (_connected c = true → is_Some (channel c) →
   answer (poll_voice_ws reconnect (it :: rest)) c = Return Exited ∧
   trace c'
   = trace c ++ [EvLog (LogDisconnectNormal 1000);
                 EvCall (m_disconnect false); EvPlayerStop; EvWsClose None;
                 EvLog LogHandshakeTerminated; EvChangeVoiceState None;
                 EvCleanup]
       ++ match socket c with Some _ => [EvSocketClose] | None => [] end ∧
   _connected c' = false ∧
   socket c'
   = match socket c with
     | Some s => Some (mkSocket (sock_blocking s) true)
     | None => None
     end) ∧
  (_connected c = false →
   poll_voice_ws reconnect (it :: rest) c
   = (Return Exited,
      exec (emit (EvCall (m_disconnect false)))
        (exec (emit (EvLog (LogDisconnectNormal 1000))) c)) ∧
   trace c'
   = trace c ++ [EvLog (LogDisconnectNormal 1000);
                 EvCall (m_disconnect false)]).
Proof.
  intros [w Hw] Hp c'.
  assert (E : poll_voice_ws reconnect (it :: rest) c
              = (emit (EvLog (LogDisconnectNormal 1000));;
                 disconnect false;;
                 ret Exited) c).
  { cbn [poll_voice_ws]. unfold bind at 1, poll_iteration, bind at 1, get at 1.
    rewrite Hw, Hp. cbn [closed_or_timeout Z.eqb Pos.eqb].
    unfold bind, emit, modify, ret.
    by destruct (disconnect false _) as [[[]|e] c'']. }
  set (c0 := set_trace (trace c ++ [EvLog (LogDisconnectNormal 1000)]) c).
  destruct (disconnect_trace false c0) as (evs & Ht & Hev).
  assert (Hrun : poll_voice_ws reconnect (it :: rest) c
                 = (match (disconnect false c0).1 with
                    | Return _ => Return Exited
                    | Raise e => Raise e
                    end, (disconnect false c0).2)).
  { rewrite E. unfold bind, emit, modify, ret. fold c0.
    by destruct (disconnect false c0) as [[[]|e] c'']. }
  split; [done |]. split; [| split; [| split]].
  - unfold answer. rewrite Hrun. cbn [fst].
    by destruct ((disconnect false c0).1).
  - exists evs. subst c'. unfold exec in *. rewrite Hrun. cbn [snd]. rewrite Ht.
    subst c0. cbn [trace set_trace]. rewrite <- app_assoc. cbn [app].
    repeat split; [done |].
    cbn [forallb reconnect_call negb andb].
    clear -Hev. induction evs as [|ev evs IH]; [done |].
    cbn [forallb] in *. apply andb_true_iff in Hev as [H1 H2].
    rewrite (IH H2), andb_true_r. by destruct ev as [[]|[]| |[]|[]| | | | |].
  - intros Hc Hsome.
    destruct (disconnect_runs_teardown false c0) as (Ha & Htr & Hn & Hs);
      [done | by right |].
    subst c'. unfold answer, exec in *. rewrite Hrun. cbn [fst snd].
    rewrite Ha, Htr, Hn, Hs. subst c0. cbn [trace set_trace ws socket].
    rewrite Hw, <- app_assoc. done.
  - intros Hc.
    assert (Hd : disconnect false c0
                 = (Return tt, exec (emit (EvCall (m_disconnect false))) c0))
      by (by apply disconnect_not_connected).
    assert (E2 : poll_voice_ws reconnect (it :: rest) c
                 = (Return Exited,
                    exec (emit (EvCall (m_disconnect false))) c0))
      by (by rewrite Hrun, Hd).
    split; [exact E2 |]. subst c'. unfold exec at 1. rewrite E2.
    subst c0. cbn. by rewrite <- app_assoc.
Qed.

End ConnectionFacts.



Lemma normal_closure_tears_down_witness :
  let SC := example_cache in
  let c := connected_client in
  let it := closing_iteration 1000 in
  let rest := [closing_iteration 4015] in
  let c' := exec (poll_voice_ws true (it :: rest)) c in
  answer (poll_voice_ws true (it :: rest)) c = Return Exited ∧
  trace c'
  = trace c ++ [EvLog (LogDisconnectNormal 1000);
                EvCall (m_disconnect false); EvPlayerStop; EvWsClose None;
                EvLog LogHandshakeTerminated; EvChangeVoiceState None;
                EvCleanup; EvSocketClose] ∧
  _connected c' = false ∧
  socket c' = Some (mkSocket false true).
Proof.
  intros SC c it rest.
  destruct (@normal_closure_tears_down SC true c it rest)
    as (_ & _ & _ & Hcon & _); [by eexists | reflexivity |].
  apply Hcon; [reflexivity | by eexists].
Defined.

(** C8 as stated fails on a client that is not connected.  After the
    client's own [disconnect()] the websocket attribute is still there;
    when its closure with code 1000 reaches the loop, the loop logs, calls
    [disconnect()] and ends, and no event of a teardown follows: the socket
    is not closed again, no request to leave is sent. *)
Lemma normal_closure_without_teardown :
  let SC := example_cache in
  let c := disconnected_client in
  let its := [closing_iteration 1000] in
  let c' := exec (poll_voice_ws true its) c in
  _connected c = false ∧ is_Some (ws c) ∧
  answer (poll_voice_ws true its) c = Return Exited ∧
  trace c'
  = trace c ++ [EvLog (LogDisconnectNormal 1000);
                EvCall (m_disconnect false)] ∧
  forallb (λ ev, negb (teardown_event ev))
    [EvLog (LogDisconnectNormal 1000); EvCall (m_disconnect false)] = true ∧
  socket c' = socket c.
Proof. vm_compute. repeat split. by eexists. Qed.


(** * Further properties of the code *)

(** ** [_strip_header] *)

(** X1: [_strip_header] raises on exactly two inputs, the empty payload and
    the single byte [0xBE], and then it raises [IndexError]. *)
Theorem strip_header_raises (data : list byte) (e : Exn) :
  _strip_header data = Raise e ↔
  e = IndexError ∧ (data = [] ∨ data = [Byte.xbe]).
Proof.
  unfold _strip_header. destruct data as [|b0 [|b1 rest]]; cbn [lookup list_lookup].
  - split; [intros [= <-]; auto | intros [-> _]; done].
  - destruct (Byte.eqb b0 Byte.xbe) eqn:E0.
    + apply Byte.byte_dec_bl in E0 as ->.
      split; [intros [= <-]; auto | intros [-> _]; done].
    + split; [done |]. intros [_ [H | H]]; [done |].
      injection H as ->. by rewrite Byte.byte_dec_lb in E0.
  - destruct (Byte.eqb b0 Byte.xbe); [| split; [done | intros [_ [|]]; done]].
    destruct (Byte.eqb b1 Byte.xde && _) eqn:E1;
      [| split; [done | intros [_ [|]]; done]].
    apply andb_true_iff in E1 as [_ E1]. apply Nat.ltb_lt in E1.
    unfold struct_unpack_from_HH.
    destruct (Nat.leb_spec 4 (length (b0 :: b1 :: rest))); [| lia].
    cbn [result_bind]. split; [done | intros [_ [|]]; done].
Qed.

(** X2: a payload of more than four bytes that starts with [0xBE 0xDE] loses
    these two bytes, the two length bytes, and [4 * L] further bytes, where
    [L] is the big-endian value of the length bytes; when fewer than
    [4 * L] bytes follow, what is left is empty, and nothing is raised. *)
Theorem strip_header_extension (l1 l0 : byte) (rest : list byte) :
  rest ≠ [] →
  let L := 256 * Z_of_byte l1 + Z_of_byte l0 in
  _strip_header (Byte.xbe :: Byte.xde :: l1 :: l0 :: rest)
  = Return (drop (Z.to_nat (4 * L)) rest) ∧
  (Z.of_nat (length rest) ≤ 4 * L →
   _strip_header (Byte.xbe :: Byte.xde :: l1 :: l0 :: rest) = Return []).
Proof.
  intros Hrest L.
  assert (E : _strip_header (Byte.xbe :: Byte.xde :: l1 :: l0 :: rest)
              = Return (drop (Z.to_nat (4 * L)) rest)).
  { unfold _strip_header. cbn [lookup list_lookup].
    change (Byte.eqb Byte.xbe Byte.xbe) with true.
    change (Byte.eqb Byte.xde Byte.xde) with true. cbn [andb].
    destruct rest as [|r rest]; [done |].
    replace (4 <? length (Byte.xbe :: Byte.xde :: l1 :: l0 :: r :: rest))%nat
      with true by (symmetry; apply Nat.ltb_lt; cbn [length]; lia).
    unfold struct_unpack_from_HH.
    replace (4 <=? length (Byte.xbe :: Byte.xde :: l1 :: l0 :: r :: rest))%nat
      with true by (symmetry; apply Nat.leb_le; cbn [length]; lia).
    cbn [result_bind take drop]. unfold unpack_be. cbn [fold_left].
    pose proof (Z_of_byte_range l1). pose proof (Z_of_byte_range l0).
    replace (Z.to_nat (4 + ((0 * 256 + Z_of_byte l1) * 256 + Z_of_byte l0) * 4))
      with (4 + Z.to_nat (4 * L))%nat by (subst L; lia).
    reflexivity. }
  split; [done |]. intros Hshort. rewrite E. f_equal.
  apply drop_ge. lia.
Qed.

Lemma strip_header_extension_witness :
  let rest := [Byte.x01; Byte.x02; Byte.x03; Byte.x04; Byte.x09] in
  let L := 256 * Z_of_byte Byte.x00 + Z_of_byte Byte.x01 in
  _strip_header (Byte.xbe :: Byte.xde :: Byte.x00 :: Byte.x01 :: rest)
  = Return (drop (Z.to_nat (4 * L)) rest) ∧
  (Z.of_nat (length rest) ≤ 4 * L →
   _strip_header (Byte.xbe :: Byte.xde :: Byte.x00 :: Byte.x01 :: rest)
   = Return []).
Proof.
  intros rest. apply (strip_header_extension Byte.x00 Byte.x01 rest).
  discriminate.
Defined.

(** ** Counters in general *)

(** X3: on a counter within [0, limit], [_checked_add] with a step that is
    not negative keeps the counter within [0, limit]; with step 1 it is
    addition modulo [limit + 1]; and every attribute other than the one it
    is called with keeps its value. *)
Theorem checked_add_stays_in_range (attr : Attr) (value limit : Z)
  (c : VoiceClient) :
  0 ≤ getattr attr c ≤ limit → 0 ≤ value →
  let c' := _checked_add attr value limit c in
  0 ≤ getattr attr c' ≤ limit ∧
  (value = 1 → getattr attr c' = (getattr attr c + 1) mod (limit + 1)) ∧
  (∀ attr', attr' ≠ attr → getattr attr' c' = getattr attr' c).
Proof.
  intros Hr Hv c'. subst c'. rewrite checked_add_getattr.
  repeat split.
  - destruct (Z.gtb_spec (getattr attr c + value) limit); lia.
  - destruct (Z.gtb_spec (getattr attr c + value) limit); lia.
  - intros ->. destruct (Z.gtb_spec (getattr attr c + 1) limit).
    + replace (getattr attr c + 1) with (limit + 1) by lia.
      by rewrite Z.mod_same by lia.
    + rewrite Z.mod_small; lia.
  - intros attr' Hne. by apply checked_add_getattr_ne.
Qed.

Lemma checked_add_stays_in_range_witness :
  let c := set_sequence 65535 (init 7 None) in
  let c' := _checked_add attr_sequence 1 65535 c in
  0 ≤ getattr attr_sequence c' ≤ 65535 ∧
  (1 = 1 → getattr attr_sequence c'
           = (getattr attr_sequence c + 1) mod (65535 + 1)) ∧
  (∀ attr', attr' ≠ attr_sequence → getattr attr' c' = getattr attr' c).
Proof.
  intros c.
  apply (checked_add_stays_in_range attr_sequence 1 65535 c).
  - vm_compute. split; discriminate.
  - lia.
Defined.

(** ** The RTP header *)

Lemma struct_pack_H_cases (z : Z) :
  (0 ≤ z ≤ 65535 ∧ struct_pack_H z = Return (pack_be 2 z)) ∨
  (¬ 0 ≤ z ≤ 65535 ∧ struct_pack_H z = Raise StructError).
Proof.
  unfold struct_pack_H.
  destruct (Z.leb_spec 0 z), (Z.leb_spec z 65535); cbn [andb];
    [left | right | right | right]; split; (done || lia).
Qed.

Lemma struct_pack_I_cases (z : Z) :
  (0 ≤ z ≤ 4294967295 ∧ struct_pack_I z = Return (pack_be 4 z)) ∨
  (¬ 0 ≤ z ≤ 4294967295 ∧ struct_pack_I z = Raise StructError).
Proof.
  unfold struct_pack_I.
  destruct (Z.leb_spec 0 z), (Z.leb_spec z 4294967295); cbn [andb];
    [left | right | right | right]; split; (done || lia).
Qed.

(** Building the header reads the object and leaves it as it is. *)
Lemma rtp_header_keeps_object (c : VoiceClient) : exec rtp_header c = c.
Proof.
  unfold exec, rtp_header, bind, get, lift.
  destruct (struct_pack_H (sequence c)); [| done].
  destruct (struct_pack_I (timestamp c)); [| done].
  by destruct (match ssrc c with Some v => struct_pack_I v
                               | None => Raise StructError end).
Qed.

(** X4: the header is built exactly when [sequence] fits 16 bits,
    [timestamp] fits 32 bits and the client's own ssrc is registered and
    fits 32 bits; it is then [0x80 0x78], the sequence, the timestamp and the
    ssrc, big-endian, twelve bytes in all.  Otherwise [struct.error] is
    raised.  The object is not changed either way. *)
Theorem rtp_header_answer (c : VoiceClient) :
  (∀ h, answer rtp_header c = Return h ↔
        0 ≤ sequence c ≤ 65535 ∧ 0 ≤ timestamp c ≤ 4294967295 ∧
        ∃ v, ssrc c = Some v ∧ 0 ≤ v ≤ 4294967295 ∧
             h = header_bytes (sequence c) (timestamp c) v) ∧
  (∀ h, answer rtp_header c = Return h →
        length h = 12%nat ∧
        unpack_be (take 2 (drop 2 h)) = sequence c ∧
        unpack_be (take 4 (drop 4 h)) = timestamp c ∧
        Some (unpack_be (drop 8 h)) = ssrc c) ∧
  (∀ e, answer rtp_header c = Raise e → e = StructError) ∧
  exec rtp_header c = c.
Proof.
  assert (Hiff : ∀ h, answer rtp_header c = Return h ↔
        0 ≤ sequence c ≤ 65535 ∧ 0 ≤ timestamp c ≤ 4294967295 ∧
        ∃ v, ssrc c = Some v ∧ 0 ≤ v ≤ 4294967295 ∧
             h = header_bytes (sequence c) (timestamp c) v).
  { intros h. split.
    - unfold answer, rtp_header, bind, get, lift.
      destruct (struct_pack_H_cases (sequence c)) as [[Hq ->] | [Hq ->]];
        [| done].
      destruct (struct_pack_I_cases (timestamp c)) as [[Ht ->] | [Ht ->]];
        [| done].
      destruct (ssrc c) as [v|]; [| done].
      destruct (struct_pack_I_cases v) as [[Hv ->] | [Hv ->]]; [| done].
      cbn [fst ret]. intros [= <-]. eauto 10.
    - intros (Hq & Ht & v & Hv & Hr & ->). unfold answer.
      by rewrite (rtp_header_returns c v). }
  split; [done |]. split; [| split].
  - intros h Hh. apply Hiff in Hh as (Hq & Ht & v & Hv & Hr & ->).
    rewrite Hv. repeat split.
    + rewrite take_drop_commute. cbn [Nat.add].
      rewrite header_bytes_sequence, unpack_pack_be.
      apply Z.mod_small. change (256 ^ Z.of_nat 2) with 65536. lia.
    + rewrite take_drop_commute. cbn [Nat.add].
      rewrite header_bytes_timestamp, unpack_pack_be.
      apply Z.mod_small. change (256 ^ Z.of_nat 4) with 4294967296. lia.
    + change (drop 8 (header_bytes (sequence c) (timestamp c) v))
        with (pack_be 4 v).
      rewrite unpack_pack_be, Z.mod_small; [done |].
      change (256 ^ Z.of_nat 4) with 4294967296. lia.
  - intros e. unfold answer, rtp_header, bind, get, lift.
    destruct (struct_pack_H_cases (sequence c)) as [[Hq ->] | [Hq ->]];
      [| by intros [= <-]].
    destruct (struct_pack_I_cases (timestamp c)) as [[Ht ->] | [Ht ->]];
      [| by intros [= <-]].
    destruct (ssrc c) as [v|]; [| by intros [= <-]].
    destruct (struct_pack_I_cases v) as [[Hv ->] | [Hv ->]];
      [done | by intros [= <-]].
  - apply rtp_header_keeps_object.
Qed.

Section CodecFrame.
Context {SB : SecretBox}.

(** ** What the codec leaves alone *)

(** X5: opening a packet never changes the object, in any of the three
    modes, whether it returns a payload or raises. *)
Theorem decrypt_keeps_object (header : list byte) (data : Buffer)
  (c : VoiceClient) :
  exec (_decrypt_xsalsa20_poly1305 header data) c = c ∧
  exec (_decrypt_xsalsa20_poly1305_suffix header data) c = c ∧
  exec (_decrypt_xsalsa20_poly1305_lite header data) c = c.
Proof.
  unfold exec, _decrypt_xsalsa20_poly1305, _decrypt_xsalsa20_poly1305_suffix,
    _decrypt_xsalsa20_poly1305_lite, bind, get, lift.
  destruct (new_box (secret_key c)) as [box|]; [| done].
  repeat split.
  - by destruct (box_decrypt box _ _).
  - by destruct (box_decrypt_as_held box _ _).
  - by destruct (box_decrypt box _ _).
Qed.

(** Sealing changes at most the lite counter. *)
Lemma encrypt_packet_frame (m : Mode) (random header data : list byte)
  (c : VoiceClient) :
  exec (encrypt_packet m random header data) c = c ∨
  exec (encrypt_packet m random header data) c
  = _checked_add attr_lite_nonce 1 4294967295 c.
Proof.
  unfold exec. destruct m; cbn [encrypt_packet];
    unfold _encrypt_xsalsa20_poly1305_lite, _encrypt_xsalsa20_poly1305_suffix,
      _encrypt_xsalsa20_poly1305, bind, get, lift, modify, ret;
    destruct (new_box (secret_key c)) as [box|]; auto.
  - destruct (struct_pack_I (_lite_nonce c)); auto.
    destruct (box_encrypt box _ data); auto.
  - destruct (box_encrypt box _ data); auto.
  - destruct (box_encrypt box _ data); auto.
Qed.

Lemma get_voice_packet_frame (random data : list byte) (c : VoiceClient) :
  exec (_get_voice_packet random data) c = c ∨
  exec (_get_voice_packet random data) c
  = _checked_add attr_lite_nonce 1 4294967295 c.
Proof.
  unfold exec, _get_voice_packet, bind, get.
  pose proof (rtp_header_keeps_object c) as Hc. unfold exec in Hc.
  destruct (rtp_header c) as [[h|e] c0]; cbn [snd] in Hc; subst c0; auto.
  destruct (mode c) as [m|]; auto.
  apply encrypt_packet_frame.
Qed.

Context {OE : OpusEncoder}.

(** [send_audio_packet], step by step. *)
Lemma send_audio_packet_unfold (random : list byte) (io : Sendto)
  (data : list byte) (c : VoiceClient) :
  send_audio_packet random io data c
  = match _get_voice_packet random data (_checked_add attr_sequence 1 65535 c)
    with
    | (Raise e, c2) => (Raise e, c2)
    | (Return packet, c2) =>
        match socket c2, io with
        | None, _ => (Raise AttributeError, c2)
        | Some _, SendtoRaises e => (Raise e, c2)
        | Some _, _ =>
            (Return tt,
             _checked_add attr_timestamp SAMPLES_PER_FRAME 4294967295
               (set_trace
                  (trace c2 ++
                   sent_event io packet (sequence c2) (timestamp c2)) c2))
        end
    end.
Proof.
  unfold send_audio_packet, bind, modify, get, emit, raise.
  destruct (_get_voice_packet random data _) as [[packet|e] c2]; [| done].
  destruct (socket c2); [| done]. by destruct io.
Qed.

(** X6: when [send_audio_packet] raises, whatever the reason (the header
    cannot be packed, there is no mode, the box refuses, there is no socket,
    [sendto] fails with something else than [BlockingIOError]), [sequence]
    has advanced all the same, [timestamp] has not, and nothing was added to
    the trace: no packet went out. *)
Theorem send_audio_packet_raises (random : list byte) (io : Sendto)
  (data : list byte) (c : VoiceClient) (e : Exn) :
  answer (send_audio_packet random io data) c = Raise e →
  let c' := exec (send_audio_packet random io data) c in
  sequence c' = sequence (_checked_add attr_sequence 1 65535 c) ∧
  timestamp c' = timestamp c ∧
  trace c' = trace c.
Proof.
  intros Hr c'. subst c'. revert Hr.
  unfold answer, exec. rewrite send_audio_packet_unfold.
  assert (H1 : timestamp (_checked_add attr_sequence 1 65535 c) = timestamp c
               ∧ trace (_checked_add attr_sequence 1 65535 c) = trace c).
  { split.
    - apply (checked_add_getattr_ne attr_sequence attr_timestamp). done.
    - apply checked_add_other_fields. }
  remember (_checked_add attr_sequence 1 65535 c) as c1 eqn:Ec1.
  destruct H1 as [Ht1 Hr1]. rewrite <- Ht1, <- Hr1. clear Ec1 Ht1 Hr1.
  pose proof (get_voice_packet_frame random data c1) as Hf. unfold exec in Hf.
  assert (H2 : sequence (_get_voice_packet random data c1).2 = sequence c1
               ∧ timestamp (_get_voice_packet random data c1).2 = timestamp c1
               ∧ trace (_get_voice_packet random data c1).2 = trace c1).
  { destruct Hf as [-> | ->]; [done |]. repeat split.
    - apply (checked_add_getattr_ne attr_lite_nonce attr_sequence). done.
    - apply (checked_add_getattr_ne attr_lite_nonce attr_timestamp). done.
    - apply checked_add_other_fields. }
  clear Hf.
  destruct (_get_voice_packet random data c1) as [[packet|e'] c2];
    cbn [snd] in H2; [| by intros _].
  destruct (socket c2); [| by intros _].
  destruct io; [done | done | by intros _].
Qed.

End CodecFrame.

Lemma send_audio_packet_raises_witness :
  let OE := opus_48k_20ms in
  let c := set_socket (Some (mkSocket false false)) (init 7 (Some 5)) in
  let c' := exec (send_audio_packet [] SendtoDone [Byte.x01]) c in
  sequence c' = sequence (_checked_add attr_sequence 1 65535 c) ∧
  timestamp c' = timestamp c ∧
  trace c' = trace c.
Proof.
  intros OE c.
  apply (@send_audio_packet_raises toy_box OE [] SendtoDone [Byte.x01] c
           StructError).
  vm_compute. reflexivity.
Defined.

(** ** [on_voice_server_update] on a payload with both fields *)

(** X7: during a handshake whose server condition is still open, a payload
    with a token and an endpoint is taken in full: the token, the endpoint
    host, the server id (the guild id, or the channel id when there is no
    guild id) are stored, [endpoint_ip] is reset, a new non-blocking socket
    replaces the old one, and the server condition is completed.  The
    session condition is not touched and the websocket is not closed. *)
Theorem server_update_completes (c : VoiceClient) (data : VoiceServerData)
  (tok ep : string) :
  _voice_server_complete c = false → _handshaking c = true →
  vsrv_token data = Some tok → vsrv_endpoint data = Some ep →
  let c' := exec (on_voice_server_update data) c in
  answer (on_voice_server_update data) c = Return tt ∧
  token c' = Some tok ∧
  endpoint c' = Some (endpoint_host ep) ∧
  server_id c'
  = match vsrv_guild_id data with
    | Some g => Some g
    | None => vsrv_channel_id data
    end ∧
  endpoint_ip c' = None ∧
  socket c' = Some (mkSocket false false) ∧
  _voice_server_complete c' = true ∧
  _voice_state_complete c' = _voice_state_complete c ∧
  trace c' = trace c.
Proof.
  intros Hc Hh Ht He c'. subst c'. destruct data as [t g ch e].
  cbn [vsrv_token vsrv_endpoint vsrv_guild_id vsrv_channel_id] in *. subst t e.
  unfold answer, exec, on_voice_server_update, bind at 1, get at 1.
  rewrite Hc. destruct g; do 3 (cbn -[endpoint_host]; rewrite ?Hh, ?Hc); done.
Qed.

Lemma server_update_completes_witness :
  let c := renegotiating_client in
  let data :=
    mkVoiceServerData (Some "new-token") None (Some 3)
      (Some "wss://eu.example:443") in
  let c' := exec (on_voice_server_update data) c in
  answer (on_voice_server_update data) c = Return tt ∧
  token c' = Some "new-token"%string ∧
  endpoint c' = Some (endpoint_host "wss://eu.example:443") ∧
  server_id c'
  = match vsrv_guild_id data with
    | Some g => Some g
    | None => vsrv_channel_id data
    end ∧
  endpoint_ip c' = None ∧
  socket c' = Some (mkSocket false false) ∧
  _voice_server_complete c' = true ∧
  _voice_state_complete c' = _voice_state_complete c ∧
  trace c' = trace c.
Proof.
  intros c data.
  apply (server_update_completes c data "new-token" "wss://eu.example:443");
    reflexivity.
Defined.

(** X8: outside a handshake, a payload with both fields does not complete
    the server condition: the new token, endpoint and socket are stored, and
    then the current websocket is closed with code 4000; without a websocket
    the handler raises [AttributeError], after the same stores. *)
Theorem server_update_outside_handshake (c : VoiceClient)
  (data : VoiceServerData) (tok ep : string) :
  _voice_server_complete c = false → _handshaking c = false →
  vsrv_token data = Some tok → vsrv_endpoint data = Some ep →
  let c' := exec (on_voice_server_update data) c in
  token c' = Some tok ∧
  endpoint c' = Some (endpoint_host ep) ∧
  socket c' = Some (mkSocket false false) ∧
  _voice_server_complete c' = false ∧
  (answer (on_voice_server_update data) c, trace c')
  = match ws c with
    | Some _ => (Return tt, trace c ++ [EvWsClose (Some 4000)])
    | None => (Raise AttributeError, trace c)
    end.
Proof.
  intros Hc Hh Ht He c'. subst c'. destruct data as [t g ch e].
  cbn [vsrv_token vsrv_endpoint vsrv_guild_id vsrv_channel_id] in *. subst t e.
  unfold answer, exec, on_voice_server_update, bind at 1, get at 1.
  rewrite Hc.
  destruct g, (ws c) eqn:Ew;
    do 3 (cbn -[endpoint_host]; rewrite ?Hh, ?Ew, ?Hc); done.
Qed.

Lemma server_update_outside_handshake_witness :
  let c := connected_client in
  let data :=
    mkVoiceServerData (Some "new-token") (Some 1) None
      (Some "eu.example:443") in
  let c' := exec (on_voice_server_update data) c in
  token c' = Some "new-token"%string ∧
  endpoint c' = Some (endpoint_host "eu.example:443") ∧
  socket c' = Some (mkSocket false false) ∧
  _voice_server_complete c' = false ∧
  (answer (on_voice_server_update data) c, trace c')
  = match ws c with
    | Some _ => (Return tt, trace c ++ [EvWsClose (Some 4000)])
    | None => (Raise AttributeError, trace c)
    end.
Proof.
  intros c data.
  apply (server_update_outside_handshake c data "new-token" "eu.example:443");
    reflexivity.
Defined.

(** X9: once a payload has completed the server condition, a further
    [VOICE_SERVER_UPDATE], whatever it carries, only writes a log line: the
    token, the endpoint, the socket and everything else stay as the first
    payload left them. *)
Theorem server_update_twice (c : VoiceClient) (data data' : VoiceServerData)
  (tok ep : string) :
  _voice_server_complete c = false → _handshaking c = true →
  vsrv_token data = Some tok → vsrv_endpoint data = Some ep →
  let c1 := exec (on_voice_server_update data) c in
  on_voice_server_update data' c1
  = (Return tt, set_trace (trace c1 ++ [EvLog LogIgnoringExtraneous]) c1).
Proof.
  intros Hc Hh Ht He c1.
  assert (H1 : _voice_server_complete c1 = true).
  { subst c1. destruct data as [t g ch e].
    cbn [vsrv_token vsrv_endpoint] in *. subst t e.
    unfold exec, on_voice_server_update, bind at 1, get at 1.
    rewrite Hc. destruct g; do 3 (cbn -[endpoint_host]; rewrite ?Hh, ?Hc);
      done. }
  unfold on_voice_server_update at 1, bind at 1, get at 1. by rewrite H1.
Qed.

Lemma server_update_twice_witness :
  let c := renegotiating_client in
  let data :=
    mkVoiceServerData (Some "new-token") (Some 1) None
      (Some "eu.example:443") in
  let data' := mkVoiceServerData (Some "other") (Some 2) None None in
  let c1 := exec (on_voice_server_update data) c in
  on_voice_server_update data' c1
  = (Return tt, set_trace (trace c1 ++ [EvLog LogIgnoringExtraneous]) c1).
Proof.
  intros c data data'.
  apply (server_update_twice c data data' "new-token" "eu.example:443");
    reflexivity.
Defined.

(** ** The endpoint host *)

Lemma string_app_cons (a : Ascii.ascii) (s t : string) :
  String a s +:+ t = String a (s +:+ t).
Proof. reflexivity. Qed.

Lemma contains_char_app (ch : Ascii.ascii) (s t : string) :
  contains_char ch (s +:+ t) = contains_char ch s || contains_char ch t.
Proof.
  induction s as [|a s IH]; [done |].
  rewrite string_app_cons. cbn [contains_char]. rewrite IH.
  by destruct (Ascii.eqb a ch).
Qed.

Lemma rpartition_head_last (sep : Ascii.ascii) (h t : string) :
  contains_char sep t = false →
  rpartition_head sep (h +:+ String sep t) = h.
Proof.
  intros Ht. induction h as [|a h IH].
  - change ("" +:+ String sep t) with (String sep t).
    cbn [rpartition_head]. by rewrite Ht.
  - rewrite string_app_cons. cbn [rpartition_head].
    rewrite contains_char_app. cbn [contains_char].
    rewrite Ascii.eqb_refl, orb_true_r. by rewrite IH.
Qed.

Lemma rpartition_head_none (sep : Ascii.ascii) (s : string) :
  contains_char sep s = false → rpartition_head sep s = "".
Proof.
  destruct s as [|a s]; [done |]. cbn [contains_char rpartition_head].
  destruct (Ascii.eqb a sep); [done |]. by intros ->.
Qed.

(** X10: the endpoint host is what comes before the last colon, without a
    leading [wss://]: for a port without a colon, [host:port] gives [host]
    when [host] does not start with [wss://], and [wss://host:port] gives
    [host] for every [host].  An endpoint without any colon gives the empty
    host. *)
Theorem endpoint_host_strips (host port ep : string) :
  contains_char ":" port = false →
  (String.prefix "wss://" host = false →
   endpoint_host (host +:+ ":" +:+ port) = host) ∧
  endpoint_host ("wss://" +:+ host +:+ ":" +:+ port) = host ∧
  (contains_char ":" ep = false → endpoint_host ep = "").
Proof.
  intros Hp. split; [| split].
  - intros Hh. unfold endpoint_host.
    change (host +:+ ":" +:+ port) with (host +:+ String ":" port).
    rewrite rpartition_head_last by done. by rewrite Hh.
  - unfold endpoint_host.
    change ("wss://" +:+ host +:+ ":" +:+ port)
      with (("wss://" +:+ host) +:+ String ":" port).
    rewrite rpartition_head_last by done. by destruct host.
  - intros He. unfold endpoint_host. by rewrite rpartition_head_none.
Qed.

Lemma endpoint_host_strips_witness :
  (String.prefix "wss://" "eu.example" = false →
   endpoint_host ("eu.example" +:+ ":" +:+ "443") = "eu.example") ∧
  endpoint_host ("wss://" +:+ "eu.example" +:+ ":" +:+ "443") = "eu.example" ∧
  (contains_char ":" "eu.example" = false → endpoint_host "eu.example" = "").
Proof.
  apply (endpoint_host_strips "eu.example" "443" "eu.example"). reflexivity.
Defined.

(** ** [disconnect] *)

(** X11: with no channel ([on_voice_state_update] stores [None] when the
    cache does not know the channel it is moved to), a [disconnect] that
    gets past its guard stops the player, clears the connected flag, closes
    the websocket if there is one, and then raises [AttributeError]: the
    request to leave the voice channel is not sent, [cleanup] in the
    [finally] clause raises in its turn before it removes the client from
    the cache, and the socket is left open. *)
Theorem disconnect_without_channel (force : bool) (c : VoiceClient) :
  channel c = None → force = true ∨ _connected c = true →
  let c' := exec (disconnect force) c in
  answer (disconnect force) c = Raise AttributeError ∧
  trace c'
  = trace c ++ [EvCall (m_disconnect force); EvPlayerStop]
      ++ match ws c with Some _ => [EvWsClose None] | None => [] end ∧
  socket c' = socket c ∧
  _connected c' = false.
Proof.
  intros Hch Hg c'. subst c'. unfold answer, exec at 1 2 3.
  rewrite disconnect_unfold, Hch.
  replace (negb force && negb (_connected c)) with false
    by (destruct Hg as [-> | ->]; [done | by rewrite andb_false_r]).
  destruct (ws c); cbn; rewrite <- ?app_assoc; done.
Qed.

Lemma disconnect_without_channel_witness :
  let c := set_channel None connected_client in
  let c' := exec (disconnect false) c in
  answer (disconnect false) c = Raise AttributeError ∧
  trace c'
  = trace c ++ [EvCall (m_disconnect false); EvPlayerStop]
      ++ match ws c with Some _ => [EvWsClose None] | None => [] end ∧
  socket c' = socket c ∧
  _connected c' = false.
Proof.
  intros c. apply (disconnect_without_channel false c);
    [reflexivity | right; reflexivity].
Defined.

(** X12: with a channel, a [disconnect] that gets past its guard returns,
    and the teardown runs in this order: the player is stopped, the
    websocket (if any) is closed with the default code, the signalling
    channel is asked to leave the voice channel, [cleanup] runs, and the
    socket (if any) is closed.  The attributes [ws] and [channel] keep
    their values. *)
Theorem disconnect_teardown_order (force : bool) (c : VoiceClient)
  (ch : Channel) :
  channel c = Some ch → force = true ∨ _connected c = true →
  let c' := exec (disconnect force) c in
  answer (disconnect force) c = Return tt ∧
  trace c'
  = trace c ++ [EvCall (m_disconnect force); EvPlayerStop]
      ++ match ws c with Some _ => [EvWsClose None] | None => [] end
      ++ [EvLog LogHandshakeTerminated; EvChangeVoiceState None; EvCleanup]
      ++ match socket c with Some _ => [EvSocketClose] | None => [] end ∧
  socket c'
  = match socket c with
    | Some s => Some (mkSocket (sock_blocking s) true)
    | None => None
    end ∧
  _connected c' = false ∧ ws c' = ws c ∧ channel c' = channel c.
Proof.
  intros Hch Hg c'. subst c'. unfold answer, exec.
  rewrite disconnect_unfold, Hch.
  replace (negb force && negb (_connected c)) with false
    by (destruct Hg as [-> | ->]; [done | by rewrite andb_false_r]).
  destruct (ws c) eqn:Ew, (socket c) eqn:Es; cbn;
    rewrite <- ?app_assoc, ?Ew, ?Hch; done.
Qed.

Lemma disconnect_teardown_order_witness :
  let c := connected_client in
  let c' := exec (disconnect false) c in
  answer (disconnect false) c = Return tt ∧
  trace c'
  = trace c ++ [EvCall (m_disconnect false); EvPlayerStop]
      ++ match ws c with Some _ => [EvWsClose None] | None => [] end
      ++ [EvLog LogHandshakeTerminated; EvChangeVoiceState None; EvCleanup]
      ++ match socket c with Some _ => [EvSocketClose] | None => [] end ∧
  socket c'
  = match socket c with
    | Some s => Some (mkSocket (sock_blocking s) true)
    | None => None
    end ∧
  _connected c' = false ∧ ws c' = ws c ∧ channel c' = channel c.
Proof.
  intros c. apply (disconnect_teardown_order false c 5);
    [reflexivity | right; reflexivity].
Defined.

Lemma disconnect_clears_connected (force : bool) (c : VoiceClient) :
  _connected (exec (disconnect force) c) = false.
Proof.
  unfold exec. rewrite disconnect_unfold.
  destruct force, (_connected c) eqn:Ec; cbn [negb andb]; try done.
  all: by destruct (ws c), (channel c), (socket c).
Qed.

(** X13: after a [disconnect], forced or not, returning or raising, the
    client is not connected; and a second, unforced [disconnect] does
    nothing at all (here, but for the record of its call): no websocket is
    closed twice, no second request to leave is sent. *)
Theorem disconnect_twice (force : bool) (c : VoiceClient) :
  let c' := exec (disconnect force) c in
  is_connected c' = false ∧
  disconnect false c'
  = (Return tt, set_trace (trace c' ++ [EvCall (m_disconnect false)]) c').
Proof.
  intros c'. pose proof (disconnect_clears_connected force c) as Hc.
  fold c' in Hc. split; [done |].
  rewrite disconnect_unfold, Hc. reflexivity.
Qed.

(** ** Waiting for the two notifications *)

Section HandshakeFacts.
Context {SC : StateCache}.

Lemma state_update_in_handshake (data : VoiceStateData) (c : VoiceClient) :
  _handshaking c = true → _potentially_reconnecting c = false →
  on_voice_state_update data c
  = (Return tt,
     set_voice_state_complete true
       (set_session_id (Some (vs_session_id data)) c)).
Proof.
  intros Hh Hp.
  unfold on_voice_state_update, bind at 1, modify at 1, bind at 1, get at 1.
  cbn [_handshaking _potentially_reconnecting set_session_id].
  by rewrite Hh, Hp.
Qed.

Lemma server_update_in_handshake (data : VoiceServerData) (c : VoiceClient)
  (tok ep : string) :
  _voice_server_complete c = false → _handshaking c = true →
  vsrv_token data = Some tok → vsrv_endpoint data = Some ep →
  on_voice_server_update data c
  = (Return tt,
     set_voice_server_complete true
       (set_socket (Some (mkSocket false false))
          (set_endpoint_ip None
             (set_endpoint (Some (endpoint_host ep))
                (set_server_id
                   (match vsrv_guild_id data with
                    | Some g => Some g
                    | None => vsrv_channel_id data
                    end)
                   (set_token (Some tok) c)))))).
Proof.
  intros Hc Hh Ht He. destruct data as [t g ch e].
  cbn [vsrv_token vsrv_endpoint vsrv_guild_id vsrv_channel_id] in *. subst t e.
  unfold on_voice_server_update, bind at 1, get at 1.
  rewrite Hc. destruct g; do 3 (cbn -[endpoint_host]; rewrite ?Hh, ?Hc); done.
Qed.

Lemma wait_for_nil (cond : VoiceClient → bool) (c : VoiceClient) :
  wait_for cond [] c = (Return (cond c), c).
Proof. cbn [wait_for]. by destruct (cond c). Qed.

Lemma wait_for_cons (cond : VoiceClient → bool) (d : Delivery)
  (ds : list Delivery) (c : VoiceClient) :
  wait_for cond (d :: ds) c
  = if cond c then (Return true, c)
    else wait_for cond ds (exec (deliver d) c).
Proof. reflexivity. Qed.

Lemma deliver_state (data : VoiceStateData) (c : VoiceClient) :
  exec (deliver (VoiceStateUpdate data)) c
  = exec (on_voice_state_update data) c.
Proof. reflexivity. Qed.

Lemma deliver_server (data : VoiceServerData) (c : VoiceClient) :
  exec (deliver (VoiceServerUpdate data)) c
  = exec (on_voice_server_update data) c.
Proof. reflexivity. Qed.

(** X14: during a handshake, the session notification and a server
    notification with both fields complete the wait in either order, and
    leave the same object; one of them alone does not complete it. *)
Theorem handshake_either_order (c : VoiceClient) (d1 : VoiceStateData)
  (d2 : VoiceServerData) (tok ep : string) :
  _handshaking c = true → _potentially_reconnecting c = false →
  _voice_state_complete c = false → _voice_server_complete c = false →
  vsrv_token d2 = Some tok → vsrv_endpoint d2 = Some ep →
  wait_for both_complete [VoiceStateUpdate d1; VoiceServerUpdate d2] c
  = wait_for both_complete [VoiceServerUpdate d2; VoiceStateUpdate d1] c ∧
  answer (wait_for both_complete [VoiceStateUpdate d1; VoiceServerUpdate d2]) c
  = Return true ∧
  answer (wait_for both_complete [VoiceStateUpdate d1]) c = Return false ∧
  answer (wait_for both_complete [VoiceServerUpdate d2]) c = Return false.
Proof.
  intros Hh Hp Hs Hv Ht He.
  assert (H0 : both_complete c = false) by (unfold both_complete; by rewrite Hs).
  pose proof (state_update_in_handshake d1 c Hh Hp) as E1.
  pose proof (server_update_in_handshake d2 c tok ep Hv Hh Ht He) as E2.
  remember (set_voice_state_complete true
              (set_session_id (Some (vs_session_id d1)) c)) as c1 eqn:Ec1.
  remember (set_voice_server_complete true
              (set_socket (Some (mkSocket false false))
                 (set_endpoint_ip None
                    (set_endpoint (Some (endpoint_host ep))
                       (set_server_id
                          (match vsrv_guild_id d2 with
                           | Some g => Some g
                           | None => vsrv_channel_id d2
                           end)
                          (set_token (Some tok) c)))))) as c2 eqn:Ec2.
  assert (H1 : both_complete c1 = false)
    by (subst c1; unfold both_complete; cbn; by rewrite Hv).
  assert (H2 : both_complete c2 = false)
    by (subst c2; unfold both_complete; cbn; by rewrite Hs).
  assert (E12 : on_voice_server_update d2 c1
                = (Return tt,
                   set_voice_state_complete true
                     (set_session_id (Some (vs_session_id d1)) c2))).
  { rewrite (server_update_in_handshake d2 c1 tok ep);
      subst c1 c2; done. }
  assert (E21 : on_voice_state_update d1 c2
                = (Return tt,
                   set_voice_state_complete true
                     (set_session_id (Some (vs_session_id d1)) c2))).
  { rewrite (state_update_in_handshake d1 c2); subst c2; done. }
  assert (H3 : both_complete
                 (set_voice_state_complete true
                    (set_session_id (Some (vs_session_id d1)) c2)) = true)
    by (subst c2; reflexivity).
  unfold answer.
  rewrite !wait_for_cons, !wait_for_nil, !deliver_state, !deliver_server, H0.
  unfold exec. rewrite E1, E2. cbn [snd].
  rewrite H1, H2, E12, E21. cbn [snd fst]. by rewrite H3.
Qed.

End HandshakeFacts.

Lemma handshake_either_order_witness :
  let SC := example_cache in
  let c := renegotiating_client in
  let d1 := mkVoiceStateData "session" (Some 5) in
  let d2 := mkVoiceServerData (Some "new-token") (Some 1) None
              (Some "eu.example:443") in
  wait_for both_complete [VoiceStateUpdate d1; VoiceServerUpdate d2] c
  = wait_for both_complete [VoiceServerUpdate d2; VoiceStateUpdate d1] c ∧
  answer (wait_for both_complete [VoiceStateUpdate d1; VoiceServerUpdate d2]) c
  = Return true ∧
  answer (wait_for both_complete [VoiceStateUpdate d1]) c = Return false ∧
  answer (wait_for both_complete [VoiceServerUpdate d2]) c = Return false.
Proof.
  intros SC c d1 d2.
  apply (@handshake_either_order SC c d1 d2 "new-token" "eu.example:443");
    reflexivity.
Defined.

(** ** What the connection code leaves alone *)

Section Frame.
Context {SC : StateCache}.
Context (K : VoiceClient → VoiceClient → Prop) {CF : ConnectionFrame K}.

Lemma respects_ret {A} (a : A) : respects K (ret a).
Proof. intros c. apply cf_refl. Qed.

Lemma respects_raise {A} (e : Exn) : respects K (raise (A := A) e).
Proof. intros c. apply cf_refl. Qed.

Lemma respects_get : respects K get.
Proof. intros c. apply cf_refl. Qed.

Lemma respects_modify (f : VoiceClient → VoiceClient) :
  (∀ c, K c (f c)) → respects K (modify f).
Proof. intros H c. apply H. Qed.

Lemma respects_emit (ev : Event) : ev ≠ EvCreateTask → respects K (emit ev).
Proof. intros H c. by apply cf_event. Qed.

Lemma respects_bind {A B} (m : M A) (k : A → M B) :
  respects K m → (∀ a, respects K (k a)) → respects K (bind m k).
Proof.
  intros Hm Hk c. unfold exec, bind. specialize (Hm c). unfold exec in Hm.
  destruct (m c) as [[a|e] c1]; cbn [snd] in *; [| done].
  eapply cf_trans; [exact Hm | apply Hk].
Qed.

Lemma respects_try_except {A} (m : M A) (h : Exn → option (M A)) :
  respects K m → (∀ e k, h e = Some k → respects K k) →
  respects K (try_except m h).
Proof.
  intros Hm Hh c. unfold exec, try_except. specialize (Hm c).
  unfold exec in Hm. destruct (m c) as [[a|e] c1]; cbn [snd] in *; [done |].
  destruct (h e) as [k|] eqn:E; [| done].
  eapply cf_trans; [exact Hm | by apply (Hh e k)].
Qed.

Lemma respects_try_finally {A} (m : M A) (f : M unit) :
  respects K m → respects K f → respects K (try_finally m f).
Proof.
  intros Hm Hf c. unfold exec, try_finally. specialize (Hm c).
  unfold exec in Hm. destruct (m c) as [r c1]. cbn [snd] in *.
  specialize (Hf c1). unfold exec in Hf.
  destruct (f c1) as [[[]|e] c2]; cbn [snd] in *;
    eapply cf_trans; eauto.
Qed.

Ltac frame_setter :=
  first [ apply cf_channel | apply cf_session_id | apply cf_token
        | apply cf_server_id | apply cf_endpoint | apply cf_endpoint_ip
        | apply cf_timeout | apply cf_socket | apply cf_connected
        | apply cf_handshaking | apply cf_potentially_reconnecting
        | apply cf_voice_state_complete | apply cf_voice_server_complete
        | apply cf_connections | apply cf_ws ].

Ltac frame_step :=
  lazymatch goal with
  | |- respects _ (bind _ _) => apply respects_bind; [| intros ?]
  | |- respects _ (ret _) => apply respects_ret
  | |- respects _ (raise _) => apply respects_raise
  | |- respects _ get => apply respects_get
  | |- respects _ (emit _) => apply respects_emit; discriminate
  | |- respects _ (modify _) => apply respects_modify; intros ?; frame_setter
  | |- respects _ (try_finally _ _) => apply respects_try_finally
  | |- respects _ (match ?x with _ => _ end) => destruct x
  end.

Lemma respects_voice_disconnect : respects K voice_disconnect.
Proof. unfold voice_disconnect. repeat frame_step. Qed.

Lemma respects_disconnect (force : bool) : respects K (disconnect force).
Proof. unfold disconnect, voice_disconnect, cleanup. repeat frame_step. Qed.

Lemma respects_on_voice_state_update (data : VoiceStateData) :
  respects K (on_voice_state_update data).
Proof.
  unfold on_voice_state_update. cbv zeta.
  repeat first [apply respects_disconnect | frame_step].
Qed.

Lemma respects_on_voice_server_update (data : VoiceServerData) :
  respects K (on_voice_server_update data).
Proof. unfold on_voice_server_update. cbv zeta. repeat frame_step. Qed.

Lemma respects_prepare_handshake : respects K prepare_handshake.
Proof. unfold prepare_handshake. repeat frame_step. Qed.

Lemma respects_finish_handshake : respects K finish_handshake.
Proof. unfold finish_handshake. repeat frame_step. Qed.

Lemma respects_connect_websocket (resume : bool) (o : WsOpen) :
  respects K (connect_websocket resume o).
Proof. unfold connect_websocket. cbv zeta. repeat frame_step. Qed.

Lemma respects_deliver (d : Delivery) : respects K (deliver d).
Proof.
  intros c. unfold exec at 1, deliver. cbn [snd]. destruct d.
  - apply respects_on_voice_state_update.
  - apply respects_on_voice_server_update.
Qed.

Lemma respects_wait_for (cond : VoiceClient → bool) (ds : list Delivery) :
  respects K (wait_for cond ds).
Proof.
  induction ds as [|d ds IH]; intros c; unfold exec; cbn [wait_for].
  - destruct (cond c); apply cf_refl.
  - destruct (cond c); [apply cf_refl |].
    eapply cf_trans; [apply (respects_deliver d c) | apply IH].
Qed.

(** Opening the websocket and storing it, with the handler of the two
    caught exceptions given. *)
Lemma respects_open (resume : bool) (o : WsOpen) (h : Exn → option (M bool)) :
  (∀ e k, h e = Some k → respects K k) →
  respects K
    (try_except
       (let* w := connect_websocket resume o in
        modify (set_ws (Some w));;
        ret true) h).
Proof.
  intros Hh. apply respects_try_except; [| done].
  repeat first [apply respects_connect_websocket | frame_step].
Qed.

Lemma respects_potential_resume (o : WsOpen) :
  respects K (potential_resume o).
Proof.
  unfold potential_resume.
  repeat first [apply respects_open | frame_step].
  intros e k. destruct (closed_or_timeout e); [| done].
  intros [= <-]. apply respects_ret.
Qed.

Lemma respects_potential_reconnect (ds : list Delivery) (o : WsOpen) :
  respects K (potential_reconnect ds o).
Proof.
  unfold potential_reconnect.
  repeat first [apply respects_open | apply respects_wait_for
               | apply respects_prepare_handshake
               | apply respects_finish_handshake
               | apply respects_disconnect | frame_step].
  intros e k. destruct (closed_or_timeout e); [| done].
  intros [= <-]. apply respects_ret.
Qed.

Lemma respects_connect_attempts (reconnect : bool) (env : Z → Attempt)
  (left : nat) (i : Z) :
  respects K (connect_attempts reconnect env left i).
Proof.
  revert i. induction left as [|left IH]; intros i; cbn [connect_attempts].
  - apply respects_ret.
  - repeat first [apply respects_open | apply respects_wait_for
                 | apply respects_prepare_handshake
                 | apply respects_finish_handshake
                 | apply respects_disconnect | apply IH | frame_step].
    + unfold voice_connect. repeat frame_step.
    + intros e k. destruct (closed_or_timeout e); [| done].
      destruct reconnect; intros [= <-];
        repeat first [apply respects_voice_disconnect
                     | apply respects_disconnect | frame_step].
Qed.

End Frame.

Section FullFrame.
Context {SC : StateCache}.
Context (K : VoiceClient → VoiceClient → Prop) {FCF : FullConnectionFrame K}.

Lemma respects_connect (reconnect : bool) (timeout : Z) (env : Z → Attempt) :
  respects K (connect reconnect timeout env).
Proof.
  unfold connect.
  apply (respects_bind K); [apply (respects_emit K); discriminate | intros _].
  apply (respects_bind K); [apply (respects_emit K); discriminate | intros _].
  apply (respects_bind K);
    [apply (respects_modify K); intros ?; apply cf_timeout | intros _].
  apply (respects_bind K); [apply (respects_connect_attempts K) | intros _].
  apply (respects_bind K); [apply (respects_get K) | intros c].
  destruct (_runner c).
  - apply (respects_ret K).
  - apply (respects_bind K); [| intros ?].
    + apply (respects_modify K). intros c'. apply fcf_task.
    + apply (respects_modify K). intros c'. apply fcf_runner.
Qed.

Ltac full_step :=
  lazymatch goal with
  | |- respects _ (disconnect _) => apply (respects_disconnect K)
  | |- respects _ (potential_resume _) => apply (respects_potential_resume K)
  | |- respects _ (potential_reconnect _ _) =>
      apply (respects_potential_reconnect K)
  | |- respects _ (connect _ _ _) => apply respects_connect
  | |- respects _ (bind _ _) => apply (respects_bind K); [| intros ?]
  | |- respects _ (ret _) => apply (respects_ret K)
  | |- respects _ (raise _) => apply (respects_raise K)
  | |- respects _ get => apply (respects_get K)
  | |- respects _ (emit _) => apply (respects_emit K); discriminate
  | |- respects _ (modify (set_connected _)) =>
      apply (respects_modify K); intros ?; apply cf_connected
  | |- respects _ (match ?x with _ => _ end) => destruct x
  end.

Lemma respects_poll_iteration (reconnect : bool) (it : Iteration) :
  respects K (poll_iteration reconnect it).
Proof.
  unfold poll_iteration. cbv zeta. repeat full_step.
  apply (respects_try_except K); [repeat full_step |].
  intros e' k. destruct e'; try done. intros [= <-]. repeat full_step.
Qed.

Lemma respects_poll_voice_ws (reconnect : bool) (its : list Iteration) :
  respects K (poll_voice_ws reconnect its).
Proof.
  induction its as [|it its IH]; cbn [poll_voice_ws].
  - apply (respects_ret K).
  - apply (respects_bind K); [apply respects_poll_iteration |].
    intros [|]; [apply IH | apply (respects_ret K)].
Qed.

End FullFrame.

#[global] Instance same_codec_state_frame :
  FullConnectionFrame same_codec_state.
Proof.
  split; [split |..]; unfold same_codec_state; try done.
  intros c1 c2 c3 (? & ? & ? & ? & ? & ?) (? & ? & ? & ? & ? & ?).
  repeat split; congruence.
Qed.

Lemma tasks_created_app (t1 t2 : list Event) :
  tasks_created (t1 ++ t2) = (tasks_created t1 + tasks_created t2)%nat.
Proof. unfold tasks_created. by rewrite List.filter_app, length_app. Qed.

#[global] Instance same_runner_frame : ConnectionFrame same_runner.
Proof.
  split; unfold same_runner;
    try (intros v c; split; [done |]; exists []; by rewrite app_nil_r).
  - intros c. split; [done |]. exists []. by rewrite app_nil_r.
  - intros c1 c2 c3 (Hr1 & evs1 & Ht1 & Hn1) (Hr2 & evs2 & Ht2 & Hn2).
    split; [congruence |]. exists (evs1 ++ evs2).
    rewrite Ht2, Ht1, app_assoc, tasks_created_app, Hn1, Hn2. done.
  - intros ev c Hev. split; [done |]. exists [ev]. split; [done |].
    by destruct ev.
Qed.

Section FrameFacts.
Context {SC : StateCache}.

(** X15: nothing in the connection code of the file touches the packet
    counters or the SSRC registry: a notification handler, a [disconnect],
    a [connect] with all its attempts, and the supervisory loop with every
    resume and reconnect it makes leave [sequence], [timestamp],
    [_lite_nonce], [idrcs] and [ssids] as they were, whatever arrives and
    whatever fails.  A reconnected client goes on with the sequence numbers
    it had. *)
Theorem connection_code_keeps_codec_state (c : VoiceClient) :
  (∀ d, same_codec_state c (exec (deliver d) c)) ∧
  (∀ force, same_codec_state c (exec (disconnect force) c)) ∧
  (∀ reconnect timeout env,
     same_codec_state c (exec (connect reconnect timeout env) c)) ∧
  (∀ reconnect its,
     same_codec_state c (exec (poll_voice_ws reconnect its) c)).
Proof.
  split; [| split; [| split]].
  - intros d. apply (respects_deliver same_codec_state).
  - intros force. apply (respects_disconnect same_codec_state).
  - intros reconnect timeout env.
    apply (respects_connect same_codec_state).
  - intros reconnect its. apply (respects_poll_voice_ws same_codec_state).
Qed.

(** [connect], up to its last step. *)
Lemma connect_unfold (reconnect : bool) (timeout : Z) (env : Z → Attempt)
  (c : VoiceClient) :
  connect reconnect timeout env c
  = match connect_attempts reconnect env 5 0
            (set_timeout timeout
               (exec (emit (EvLog LogConnecting))
                  (exec (emit (EvCall (m_connect reconnect))) c)))
    with
    | (Raise e, c1) => (Raise e, c1)
    | (Return _, c1) =>
        if _runner c1 then (Return tt, c1)
        else (Return tt,
              set_runner true (set_trace (trace c1 ++ [EvCreateTask]) c1))
    end.
Proof.
  unfold connect, bind, emit, modify, get, exec. cbn [snd].
  destruct (connect_attempts reconnect env 5 0 _) as [[[]|e] c1]; [| done].
  by destruct (_runner c1).
Qed.

(** X16: [connect] starts the poll task at most once.  When it returns on
    a client without a poll task, exactly one task is created, as its last
    step, and [_runner] is set; when the client already has one, or
    [connect] raises, no task is created and [_runner] keeps its value,
    however many attempts were made and whatever arrived meanwhile. *)
Theorem connect_creates_one_task (reconnect : bool) (timeout : Z)
  (env : Z → Attempt) (c : VoiceClient) :
  let c' := exec (connect reconnect timeout env) c in
  ∃ evs,
    trace c' = trace c ++ evs ∧
    if returns (answer (connect reconnect timeout env) c) && negb (_runner c)
    then tasks_created evs = 1%nat ∧ last evs = Some EvCreateTask ∧
         _runner c' = true
    else tasks_created evs = 0%nat ∧ _runner c' = _runner c.
Proof.
  intros c'. subst c'. unfold answer, exec. rewrite connect_unfold.
  fold (exec (emit (EvCall (m_connect reconnect))) c).
  fold (exec (emit (EvLog LogConnecting))
          (exec (emit (EvCall (m_connect reconnect))) c)).
  set (c0 := set_timeout timeout _).
  assert (H0 : same_runner c c0).
  { split; [done |].
    exists [EvCall (m_connect reconnect); EvLog LogConnecting].
    split; [| done]. subst c0. unfold exec, emit, modify. cbn.
    by rewrite <- app_assoc. }
  pose proof (respects_connect_attempts same_runner reconnect env 5 0 c0) as H1.
  unfold exec in H1.
  destruct (connect_attempts reconnect env 5 0 c0) as [[[]|e] c1];
    cbn [snd] in H1.
  - destruct (cf_trans _ _ _ H0 H1) as (Hr & evs & Ht & Hn).
    rewrite <- Hr. destruct (_runner c1) eqn:Er;
      cbn [returns fst snd andb negb].
    + exists evs. done.
    + exists (evs ++ [EvCreateTask]). cbn. rewrite Ht, <- app_assoc.
      split; [done |]. rewrite tasks_created_app, Hn, last_snoc. done.
  - destruct (cf_trans _ _ _ H0 H1) as (Hr & evs & Ht & Hn).
    cbn [returns fst snd andb]. exists evs. done.
Qed.

End FrameFacts.

(** ** Resume and reconnect *)

(** X17: the outcome of [potential_resume], case by case.  It always ends
    with [_potentially_reconnecting] cleared and only records its call.
    When the websocket opens, it answers [True], stores the websocket
    (opened with the resume flag) and the client is connected.  When
    opening fails, the client is left not connected with its old websocket;
    the answer is [False] for a closed connection or a timeout, and any
    other exception goes up. *)
Theorem potential_resume_outcome (o : WsOpen) (c : VoiceClient) :
  let c' := exec (potential_resume o) c in
  _potentially_reconnecting c' = false ∧
  trace c' = trace c ++ [EvCall m_potential_resume] ∧
  _handshaking c' = _handshaking c ∧
  match o with
  | WsOpened id =>
      answer (potential_resume o) c = Return true ∧
      ws c' = Some (mkWebSocket id true) ∧ _connected c' = true
  | WsFromClientRaises e | WsPollRaises e =>
      answer (potential_resume o) c
      = (if closed_or_timeout e then Return false else Raise e) ∧
      ws c' = ws c ∧ _connected c' = false
  end.
Proof.
  intros c'. subst c'.
  unfold answer, exec, potential_resume, try_finally, try_except,
    connect_websocket, bind, emit, modify, ret, raise.
  destruct o as [id|e|e]; [done | |];
    by destruct (closed_or_timeout e).
Qed.

Section ReconnectFacts.
Context {SC : StateCache}.

(** What [disconnect] does not touch. *)
Lemma disconnect_other_fields (force : bool) (c : VoiceClient) :
  let c' := exec (disconnect force) c in
  _handshaking c' = _handshaking c ∧
  _potentially_reconnecting c' = _potentially_reconnecting c ∧
  _voice_state_complete c' = _voice_state_complete c ∧
  _voice_server_complete c' = _voice_server_complete c ∧
  _connections c' = _connections c ∧
  _runner c' = _runner c ∧
  ws c' = ws c ∧ channel c' = channel c.
Proof.
  intros c'. subst c'. unfold exec. rewrite disconnect_unfold.
  destruct (negb force && negb (_connected c)); [done |].
  destruct (ws c) eqn:Ew, (channel c) eqn:Eh, (socket c); cbn;
    rewrite ?Ew, ?Eh; done.
Qed.

Lemma state_update_keeps_reconnect_wait n w (data : VoiceStateData) c :
  reconnect_wait n w c →
  reconnect_wait n w (exec (on_voice_state_update data) c).
Proof.
  intros (Hh & Hp & Hc & Hv & Hn & Hw).
  unfold exec, on_voice_state_update, bind at 1, modify at 1, bind at 1,
    get at 1.
  cbn [_handshaking _potentially_reconnecting set_session_id].
  rewrite Hh, Hp. cbn [negb orb].
  destruct (vs_channel_id data) as [id|].
  - unfold guild. cbn [channel set_session_id].
    by destruct (match channel c with Some ch => guild_of ch | None => None end).
  - rewrite disconnect_unfold. cbn [_connected set_session_id]. rewrite Hc.
    done.
Qed.

Lemma wait_for_server_only_state_updates n w (ds : list Delivery) c :
  forallb is_state_update ds = true → reconnect_wait n w c →
  ∃ c2, wait_for _voice_server_complete ds c = (Return false, c2) ∧
        reconnect_wait n w c2.
Proof.
  revert c. induction ds as [|d ds IH]; intros c Hds Hc.
  - exists c. split; [| done]. cbn [wait_for].
    destruct Hc as (_ & _ & _ & -> & _). done.
  - cbn [forallb] in Hds. apply andb_true_iff in Hds as [Hd Hds].
    destruct d as [data|data]; [| done].
    rewrite wait_for_cons.
    destruct Hc as (Hh & Hp & Hc & Hv & Hn & Hw). rewrite Hv.
    apply IH; [done |]. rewrite deliver_state.
    by apply state_update_keeps_reconnect_wait.
Qed.

(** [prepare_handshake], in one step. *)
Lemma prepare_handshake_unfold (c : VoiceClient) :
  prepare_handshake c
  = (Return tt,
     set_connections (_connections c + 1)
       (set_trace (trace c ++ [EvLog (LogStartingHandshake (_connections c + 1))])
          (set_handshaking true
             (set_voice_server_complete false
                (set_voice_state_complete false c))))).
Proof. reflexivity. Qed.

(** X18: when nothing but session notifications arrive during
    [potential_reconnect], however many, the wait for the server
    notification times out: the method does not answer [True], it has
    called [disconnect(force=True)], the websocket attribute is the old one
    and the client is not connected.  One handshake was counted, and
    [_handshaking] is left set: [finish_handshake] is not reached. *)
Theorem potential_reconnect_times_out (ds : list Delivery) (o : WsOpen)
  (c : VoiceClient) :
  forallb is_state_update ds = true →
  let c' := exec (potential_reconnect ds o) c in
  (answer (potential_reconnect ds o) c = Return false ∨
   answer (potential_reconnect ds o) c = Raise AttributeError) ∧
  EvCall (m_disconnect true) ∈ trace c' ∧
  _handshaking c' = true ∧
  _potentially_reconnecting c' = false ∧
  _voice_server_complete c' = false ∧
  _connected c' = false ∧
  _connections c' = _connections c + 1 ∧
  ws c' = ws c.
Proof.
  intros Hds c'. subst c'.
  assert (E : ∃ c2,
    reconnect_wait (_connections c + 1) (ws c) c2 ∧
    potential_reconnect ds o c
    = match disconnect true (set_potentially_reconnecting false c2) with
      | (Return _, c4) => (Return false, c4)
      | (Raise e, c4) => (Raise e, c4)
      end).
  { unfold potential_reconnect, bind, emit, modify, ret.
    rewrite prepare_handshake_unfold.
    match goal with
    | |- context [wait_for _ ds ?x] => set (c1 := x)
    end.
    assert (H1 : reconnect_wait (_connections c + 1) (ws c) c1) by done.
    destruct (wait_for_server_only_state_updates _ _ ds c1 Hds H1)
      as (c2 & Hw & H2).
    exists c2. split; [done |]. rewrite Hw. cbn [negb].
    by destruct (disconnect true _) as [[[]|e] c4]. }
  destruct E as (c2 & (Hh & Hp & Hc & Hv & Hn & Hws) & E).
  unfold answer, exec. rewrite E.
  set (c3 := set_potentially_reconnecting false c2).
  destruct (disconnect_other_fields true c3)
    as (Eh & Ep & _ & Ev & En & _ & Ew & _).
  pose proof (disconnect_clears_connected true c3) as Ec.
  destruct (disconnect_trace true c3) as (evs & Et & _).
  assert (Ha : ∀ e, (disconnect true c3).1 = Raise e → e = AttributeError).
  { intros e. rewrite disconnect_unfold. cbn [negb andb].
    destruct (channel c3); [done |]. by intros [= <-]. }
  unfold exec in *.
  destruct (disconnect true c3) as [[[]|e] c4]; cbn [fst snd] in *.
  - rewrite Et, Eh, Ep, Ev, Ec, En, Ew.
    repeat split; auto. rewrite elem_of_app. right. apply list_elem_of_here.
  - rewrite Et, Eh, Ep, Ev, Ec, En, Ew, (Ha e eq_refl).
    repeat split; auto. rewrite elem_of_app. right. apply list_elem_of_here.
Qed.

End ReconnectFacts.

Lemma potential_reconnect_times_out_witness :
  let SC := example_cache in
  let ds := [VoiceStateUpdate (mkVoiceStateData "session" (Some 6))] in
  let o := WsOpened 2 in
  let c := connected_client in
  let c' := exec (potential_reconnect ds o) c in
  (answer (potential_reconnect ds o) c = Return false ∨
   answer (potential_reconnect ds o) c = Raise AttributeError) ∧
  EvCall (m_disconnect true) ∈ trace c' ∧
  _handshaking c' = true ∧
  _potentially_reconnecting c' = false ∧
  _voice_server_complete c' = false ∧
  _connected c' = false ∧
  _connections c' = _connections c + 1 ∧
  ws c' = ws c.
Proof.
  intros SC ds o c.
  apply (@potential_reconnect_times_out SC ds o c). reflexivity.
Defined.

Section ReconnectFacts2.
Context {SC : StateCache}.

Lemma wait_for_done (cond : VoiceClient → bool) (ds : list Delivery) c :
  cond c = true → wait_for cond ds c = (Return true, c).
Proof. intros H. destruct ds; cbn [wait_for]; by rewrite H. Qed.

(** X19: when the first notification that arrives during
    [potential_reconnect] is a server notification with both fields, the
    wait ends there: the payload is taken, the handshake is finished (its
    flags cleared) and the websocket is opened without the resume flag.  The
    answer is [True] with the client connected when it opens, [False] with
    the client not connected when opening fails with a closed connection
    or a timeout; [disconnect] is not called either way. *)
Theorem potential_reconnect_on_server_update (data : VoiceServerData)
  (rest : list Delivery) (o : WsOpen) (c : VoiceClient) (tok ep : string) :
  vsrv_token data = Some tok → vsrv_endpoint data = Some ep →
  let m := potential_reconnect (VoiceServerUpdate data :: rest) o in
  let c' := exec m c in
  token c' = Some tok ∧ endpoint c' = Some (endpoint_host ep) ∧
  _handshaking c' = false ∧ _potentially_reconnecting c' = false ∧
  _voice_state_complete c' = false ∧ _voice_server_complete c' = false ∧
  _connections c' = _connections c + 1 ∧
  trace c'
  = trace c ++ [EvCall m_potential_reconnect;
                EvLog (LogStartingHandshake (_connections c + 1));
                EvLog (LogHandshakeComplete (Some (endpoint_host ep)))] ∧
  match o with
  | WsOpened id =>
      answer m c = Return true ∧
      ws c' = Some (mkWebSocket id false) ∧ _connected c' = true
  | WsFromClientRaises e | WsPollRaises e =>
      answer m c = (if closed_or_timeout e then Return false else Raise e) ∧
      ws c' = ws c ∧ _connected c' = false
  end.
Proof.
  intros Ht He m c'. subst c' m.
  unfold answer, exec, potential_reconnect, bind, emit, modify, ret.
  rewrite prepare_handshake_unfold.
  match goal with
  | |- context [wait_for _ _ ?x] => set (c1 := x)
  end.
  rewrite wait_for_cons.
  change (_voice_server_complete c1) with false. cbv iota.
  rewrite deliver_server. unfold exec.
  rewrite (server_update_in_handshake data c1 tok ep) by done.
  cbn [snd]. rewrite wait_for_done by done.
  unfold finish_handshake, try_except, connect_websocket, bind, emit, modify,
    get, ret, raise.
  subst c1. cbn -[endpoint_host]. rewrite <- !app_assoc. cbn [app].
  destruct o as [id|e|e]; [done | |]; by destruct (closed_or_timeout e).
Qed.

End ReconnectFacts2.

Lemma potential_reconnect_on_server_update_witness :
  let SC := example_cache in
  let data := mkVoiceServerData (Some "new-token") (Some 1) None
                (Some "eu.example:443") in
  let rest := [] in
  let o := WsOpened 2 in
  let c := connected_client in
  let tok := "new-token"%string in
  let ep := "eu.example:443"%string in
  let m := potential_reconnect (VoiceServerUpdate data :: rest) o in
  let c' := exec m c in
  token c' = Some tok ∧ endpoint c' = Some (endpoint_host ep) ∧
  _handshaking c' = false ∧ _potentially_reconnecting c' = false ∧
  _voice_state_complete c' = false ∧ _voice_server_complete c' = false ∧
  _connections c' = _connections c + 1 ∧
  trace c'
  = trace c ++ [EvCall m_potential_reconnect;
                EvLog (LogStartingHandshake (_connections c + 1));
                EvLog (LogHandshakeComplete (Some (endpoint_host ep)))] ∧
  match o with
  | WsOpened id =>
      answer m c = Return true ∧
      ws c' = Some (mkWebSocket id false) ∧ _connected c' = true
  | WsFromClientRaises e | WsPollRaises e =>
      answer m c = (if closed_or_timeout e then Return false else Raise e) ∧
      ws c' = ws c ∧ _connected c' = false
  end.
Proof.
  intros SC data rest o c tok ep.
  apply (@potential_reconnect_on_server_update SC data rest o c tok ep);
    reflexivity.
Defined.

(** ** The other branches of the supervisory loop *)

Section LoopFacts.
Context {SC : StateCache}.

(** A step that returns hands its object on to the rest. *)
Lemma bind_exec_return {A B} (m : M A) (k : A → M B) (c : VoiceClient)
  (a : A) :
  m c = (Return a, exec m c) → bind m k c = k a (exec m c).
Proof. unfold bind, exec. by intros ->. Qed.

(** The pass of the loop that meets close code 4015. *)
Lemma poll_iteration_4015 (reconnect : bool) (it : Iteration)
  (c : VoiceClient) :
  is_Some (ws c) → it_poll it = PollRaises (ConnectionClosed 4015) →
  poll_iteration reconnect it c
  = (emit (EvLog (LogPotentialResume 4015));;
     let* successful := potential_resume (it_resume it) in
     if negb successful
     then emit (EvLog LogResumeFailed);; disconnect false;; ret Break
     else ret Continue) c.
Proof.
  intros [w Hw] Hp.
  unfold poll_iteration, bind at 1, get at 1. rewrite Hw, Hp.
  cbn [closed_or_timeout Z.eqb Pos.eqb].
  unfold bind, emit, modify, ret.
  destruct (potential_resume _ _) as [[[]|e] c1]; cbn [negb]; try done.
  by destruct (disconnect false _) as [[[]|e] c2].
Qed.

(** A resume whose websocket does not open answers [False]. *)
Lemma potential_resume_fails (o : WsOpen) (c : VoiceClient) :
  open_fails o →
  potential_resume o c
  = (Return false,
     set_potentially_reconnecting false
       (set_potentially_reconnecting true
          (set_connected false (exec (emit (EvCall m_potential_resume)) c)))).
Proof.
  intros Hf. destruct o as [id|e|e]; cbn [open_fails] in Hf; [done | |];
    unfold potential_resume, try_finally, try_except, connect_websocket,
      bind, emit, modify, ret, raise, exec;
    by rewrite Hf.
Qed.

(** X20: close code 4015 followed by a resume that fails ends the loop; it
    does not try again.  The [disconnect()] that follows finds the client
    already marked as not connected by [potential_resume] and returns at
    once: nothing is torn down, no request to leave is sent, [cleanup] is
    not called, and the websocket attribute and the socket stay as they
    were. *)
Theorem failed_resume_ends_loop (reconnect : bool) (c : VoiceClient)
  (it : Iteration) (rest : list Iteration) :
  is_Some (ws c) → it_poll it = PollRaises (ConnectionClosed 4015) →
  open_fails (it_resume it) →
  let c' := exec (poll_voice_ws reconnect (it :: rest)) c in
  answer (poll_voice_ws reconnect (it :: rest)) c = Return Exited ∧
  trace c'
  = trace c ++ [EvLog (LogPotentialResume 4015); EvCall m_potential_resume;
                EvLog LogResumeFailed; EvCall (m_disconnect false)] ∧
  ws c' = ws c ∧ socket c' = socket c ∧ channel c' = channel c ∧
  _connected c' = false.
Proof.
  intros Hw Hp Hf c'.
  assert (E : poll_voice_ws reconnect (it :: rest) c
              = (Return Exited,
                 exec (emit (EvCall (m_disconnect false)))
                   (exec (emit (EvLog LogResumeFailed))
                      (set_potentially_reconnecting false
                         (set_potentially_reconnecting true
                            (set_connected false
                               (exec (emit (EvCall m_potential_resume))
                                  (exec (emit (EvLog (LogPotentialResume 4015)))
                                     c)))))))).
  { cbn [poll_voice_ws]. unfold bind at 1.
    rewrite poll_iteration_4015 by done.
    rewrite (bind_exec_return (emit _) _ c tt) by reflexivity.
    unfold bind at 1. rewrite potential_resume_fails by done. cbn [negb].
    rewrite (bind_exec_return (emit _) _ _ tt) by reflexivity.
    unfold bind at 1. rewrite disconnect_unfold. reflexivity. }
  subst c'. unfold answer, exec at 1 2 3 4 5. rewrite E. cbn [fst snd].
  split_and!; try reflexivity.
  change (trace _)
    with ((((trace c ++ [EvLog (LogPotentialResume 4015)]) ++
            [EvCall m_potential_resume]) ++ [EvLog LogResumeFailed]) ++
          [EvCall (m_disconnect false)]) at 1.
  by rewrite <- !app_assoc.
Qed.

(** X21: close code 4015 followed by a resume that succeeds keeps the loop
    going, on the new websocket, opened with the resume flag, with the
    client connected; nothing is torn down. *)
Theorem resumed_loop_continues (reconnect : bool) (c : VoiceClient)
  (it : Iteration) (rest : list Iteration) (id : Z) :
  is_Some (ws c) → it_poll it = PollRaises (ConnectionClosed 4015) →
  it_resume it = WsOpened id →
  ∃ c1,
    poll_voice_ws reconnect (it :: rest) c = poll_voice_ws reconnect rest c1 ∧
    ws c1 = Some (mkWebSocket id true) ∧ _connected c1 = true ∧
    _potentially_reconnecting c1 = false ∧
    trace c1
    = trace c ++ [EvLog (LogPotentialResume 4015); EvCall m_potential_resume].
Proof.
  intros [w Hw] Hp Hr. eexists. split.
  - cbn [poll_voice_ws].
    unfold poll_iteration, bind at 1 2 3 4, get at 1.
    rewrite Hw, Hp, Hr. cbn [closed_or_timeout Z.eqb Pos.eqb].
    unfold potential_resume, try_finally, try_except, connect_websocket,
      bind, emit, modify, ret, raise.
    cbn [negb]. reflexivity.
  - cbn. rewrite <- app_assoc. done.
Qed.

(** X22: without [reconnect], any other closure of the websocket (a close
    code other than 1000, 4015 and 4014, or a timeout) ends the loop with
    that same exception, after a [disconnect()]; and an exception of
    [poll_event] that is neither a closed connection nor a timeout goes up
    at once, the object untouched. *)
Theorem poll_without_reconnect (c : VoiceClient) (it : Iteration)
  (rest : list Iteration) (e : Exn) :
  is_Some (ws c) → it_poll it = PollRaises e →
  (other_closure e →
   poll_voice_ws false (it :: rest) c = (disconnect false;; raise e) c) ∧
  (closed_or_timeout e = false →
   ∀ reconnect, poll_voice_ws reconnect (it :: rest) c = (Raise e, c)).
Proof.
  intros [w Hw] Hp. split.
  - intros [Hc Ho]. cbn [poll_voice_ws].
    unfold poll_iteration, bind at 1 2, get at 1. rewrite Hw, Hp, Hc.
    assert (E : ∀ c0,
      (match e with
       | ConnectionClosed code =>
           if code =? 1000
           then emit (EvLog (LogDisconnectNormal code));;
                disconnect false;; ret (Some Break)
           else if code =? 4015
           then emit (EvLog (LogPotentialResume code));;
                (let* successful := potential_resume (it_resume it) in
                 if negb successful
                 then emit (EvLog LogResumeFailed);;
                      disconnect false;; ret (Some Break)
                 else ret (Some Continue))
           else if code =? 4014
           then emit (EvLog (LogPotentialReconnect code));;
                (let* successful :=
                   potential_reconnect (it_deliveries it) (it_open it) in
                 if negb successful
                 then emit (EvLog LogReconnectFailed);;
                      disconnect false;; ret (Some Break)
                 else ret (Some Continue))
           else ret None
       | _ => ret None
       end) c0 = (Return None, c0)).
    { intros c0. destruct e; try done.
      destruct (Ho code eq_refl) as (H1 & H2 & H3).
      apply Z.eqb_neq in H1, H2, H3. by rewrite H1, H2, H3. }
    unfold bind at 1. rewrite E. cbn [negb]. unfold bind, raise.
    by destruct (disconnect false c) as [[[]|e'] c'].
  - intros Hc reconnect. cbn [poll_voice_ws].
    unfold poll_iteration, bind, get. by rewrite Hw, Hp, Hc.
Qed.

(** X23: with [reconnect], another closure never ends the loop by [break]
    and never lets a timeout out: the pass clears the connected flag, sleeps
    the back-off delay, calls [connect(reconnect=True)] with the stored
    timeout, and goes on polling whether [connect] returns or times out;
    only an exception of [connect] other than a timeout leaves the loop. *)
Theorem poll_with_reconnect (c : VoiceClient) (it : Iteration) (e : Exn) :
  is_Some (ws c) → it_poll it = PollRaises e → other_closure e →
  let c0 :=
    exec (emit (EvSleep (it_retry it)))
      (set_connected false
         (exec (emit (EvLog (LogReconnectingIn (it_retry it)))) c)) in
  let r := connect true (timeout c) (it_connect it) c0 in
  poll_iteration true it c
  = match r with
    | (Return _, c1) => (Return Continue, c1)
    | (Raise TimeoutError, c1) =>
        (Return Continue, exec (emit (EvLog LogCouldNotConnect)) c1)
    | (Raise e', c1) => (Raise e', c1)
    end ∧
  answer (poll_iteration true it) c ≠ Return Break ∧
  answer (poll_iteration true it) c ≠ Raise TimeoutError.
Proof.
  intros [w Hw] Hp [Hc Ho] c0 r.
  assert (E0 : ∀ c0,
      (match e with
       | ConnectionClosed code =>
           if code =? 1000
           then emit (EvLog (LogDisconnectNormal code));;
                disconnect false;; ret (Some Break)
           else if code =? 4015
           then emit (EvLog (LogPotentialResume code));;
                (let* successful := potential_resume (it_resume it) in
                 if negb successful
                 then emit (EvLog LogResumeFailed);;
                      disconnect false;; ret (Some Break)
                 else ret (Some Continue))
           else if code =? 4014
           then emit (EvLog (LogPotentialReconnect code));;
                (let* successful :=
                   potential_reconnect (it_deliveries it) (it_open it) in
                 if negb successful
                 then emit (EvLog LogReconnectFailed);;
                      disconnect false;; ret (Some Break)
                 else ret (Some Continue))
           else ret None
       | _ => ret None
       end) c0 = (Return None, c0)).
  { intros c1. destruct e; try done.
    destruct (Ho code eq_refl) as (H1 & H2 & H3).
    apply Z.eqb_neq in H1, H2, H3. by rewrite H1, H2, H3. }
  assert (E : poll_iteration true it c
              = match r with
                | (Return _, c1) => (Return Continue, c1)
                | (Raise TimeoutError, c1) =>
                    (Return Continue, exec (emit (EvLog LogCouldNotConnect)) c1)
                | (Raise e', c1) => (Raise e', c1)
                end).
  { unfold poll_iteration, bind at 1 2, get at 1. rewrite Hw, Hp, Hc.
    unfold bind at 1. rewrite E0. cbn [negb].
    unfold try_except, bind, emit, modify, get, ret, exec. cbn [snd].
    subst r c0. unfold exec, emit, modify. cbn [snd timeout set_trace set_connected].
    destruct (connect true (timeout c) (it_connect it) _) as [[[]|e'] c1];
      [done |]. by destruct e'. }
  split; [done |]. unfold answer. rewrite E.
  destruct r as [[[]|e'] c1]; [done |]. by destruct e'.
Qed.

End LoopFacts.

Lemma failed_resume_ends_loop_witness :
  let SC := example_cache in
  let c := connected_client in
  let it := mkIteration (PollRaises (ConnectionClosed 4015))
              (WsPollRaises TimeoutError) [] (WsOpened 3) 1
              (λ _, mkAttempt [] (WsOpened 4)) in
  let rest := [closing_iteration 1000] in
  let c' := exec (poll_voice_ws true (it :: rest)) c in
  answer (poll_voice_ws true (it :: rest)) c = Return Exited ∧
  trace c'
  = trace c ++ [EvLog (LogPotentialResume 4015); EvCall m_potential_resume;
                EvLog LogResumeFailed; EvCall (m_disconnect false)] ∧
  ws c' = ws c ∧ socket c' = socket c ∧ channel c' = channel c ∧
  _connected c' = false.
Proof.
  intros SC c it rest.
  apply (@failed_resume_ends_loop SC true c it rest);
    [by eexists | reflexivity | reflexivity].
Defined.

Lemma resumed_loop_continues_witness :
  let SC := example_cache in
  let c := connected_client in
  let it := closing_iteration 4015 in
  let rest := [closing_iteration 1000] in
  ∃ c1,
    poll_voice_ws true (it :: rest) c = poll_voice_ws true rest c1 ∧
    ws c1 = Some (mkWebSocket 2 true) ∧ _connected c1 = true ∧
    _potentially_reconnecting c1 = false ∧
    trace c1
    = trace c ++ [EvLog (LogPotentialResume 4015); EvCall m_potential_resume].
Proof.
  intros SC c it rest.
  apply (@resumed_loop_continues SC true c it rest 2);
    [by eexists | reflexivity | reflexivity].
Defined.

Lemma poll_without_reconnect_witness :
  let SC := example_cache in
  let c := connected_client in
  let it := closing_iteration 4006 in
  let e := ConnectionClosed 4006 in
  other_closure e ∧
  poll_voice_ws false [it] c = (disconnect false;; raise e) c.
Proof.
  intros SC c it e.
  assert (H : other_closure e).
  { split; [reflexivity |]. intros code [= <-]. lia. }
  split; [exact H |].
  apply (@poll_without_reconnect SC c it [] e); [by eexists | reflexivity | exact H].
Defined.

Lemma poll_with_reconnect_witness :
  let SC := example_cache in
  let c := connected_client in
  let it := closing_iteration 4006 in
  let c0 :=
    exec (emit (EvSleep (it_retry it)))
      (set_connected false
         (exec (emit (EvLog (LogReconnectingIn (it_retry it)))) c)) in
  let r := connect true (timeout c) (it_connect it) c0 in
  poll_iteration true it c
  = match r with
    | (Return _, c1) => (Return Continue, c1)
    | (Raise TimeoutError, c1) =>
        (Return Continue, exec (emit (EvLog LogCouldNotConnect)) c1)
    | (Raise e', c1) => (Raise e', c1)
    end ∧
  answer (poll_iteration true it) c ≠ Return Break ∧
  answer (poll_iteration true it) c ≠ Raise TimeoutError.
Proof.
  intros SC c it.
  apply (@poll_with_reconnect SC c it (ConnectionClosed 4006));
    [by eexists | reflexivity |].
  split; [reflexivity |]. intros code [= <-]. lia.
Defined.

(** ** The attempts of [connect] *)

Section ConnectFacts.
Context {SC : StateCache}.

(** The wait of [connect] when both notifications arrive. *)
Lemma handshake_wait (c : VoiceClient) (d1 : VoiceStateData)
  (d2 : VoiceServerData) (tok ep : string) (ds : list Delivery) :
  _handshaking c = true → _potentially_reconnecting c = false →
  _voice_state_complete c = false → _voice_server_complete c = false →
  handshake_arrives d1 d2 ds →
  vsrv_token d2 = Some tok → vsrv_endpoint d2 = Some ep →
  wait_for (λ c, _voice_state_complete c && _voice_server_complete c) ds c
  = (Return true, handshaken d1 d2 tok ep c).
Proof.
  intros Hh Hp Hs Hv [rest [-> | ->]] Ht He.
  - rewrite wait_for_cons. rewrite Hs. cbn [andb].
    rewrite deliver_state. unfold exec.
    rewrite (state_update_in_handshake d1 c Hh Hp). cbn [snd].
    rewrite wait_for_cons.
    match goal with
    | |- (if ?b then _ else _) = _ =>
        assert (b = false) as -> by (cbn; by rewrite Hv)
    end.
    rewrite deliver_server. unfold exec.
    rewrite (server_update_in_handshake d2 _ tok ep) by done. cbn [snd].
    destruct rest; reflexivity.
  - rewrite wait_for_cons. rewrite Hs. cbn [andb].
    rewrite deliver_server. unfold exec.
    rewrite (server_update_in_handshake d2 c tok ep) by done. cbn [snd].
    rewrite wait_for_cons.
    match goal with
    | |- (if ?b then _ else _) = _ =>
        assert (b = false) as -> by (cbn; by rewrite Hs)
    end.
    rewrite deliver_state. unfold exec.
    rewrite (state_update_in_handshake d1) by done. cbn [snd].
    destruct rest; reflexivity.
Qed.

Lemma moved_trans (n m : Z) (evs evs' : list Event) (c c' c'' : VoiceClient) :
  moved n evs c c' → moved m evs' c' c'' → moved (n + m) (evs ++ evs') c c''.
Proof.
  intros (H1 & H2 & H3 & H4 & H5 & H6 & H7) (G1 & G2 & G3 & G4 & G5 & G6 & G7).
  unfold moved. rewrite G1, G2, G3, G4, G5, G6, G7, H1, H2, H3, H4, H5, H6, H7.
  split_and!; try done; [lia | by rewrite app_assoc].
Qed.

(** From the start of a pass of the loop of [connect] to the end of a
    handshake that completes. *)
Lemma handshake_moves (c : VoiceClient) (d1 : VoiceStateData)
  (d2 : VoiceServerData) (tok ep : string) :
  moved 1 [EvLog (LogStartingHandshake (_connections c + 1));
           EvChangeVoiceState (channel c);
           EvLog (LogHandshakeComplete (Some (endpoint_host ep)))]
    c (exec finish_handshake
         (handshaken d1 d2 tok ep
            (exec voice_connect (exec prepare_handshake c)))).
Proof.
  unfold moved. split_and!; try reflexivity.
  change (trace (exec finish_handshake _))
    with (((trace c ++ [EvLog (LogStartingHandshake (_connections c + 1))]) ++
           [EvChangeVoiceState (channel c)]) ++
          [EvLog (LogHandshakeComplete (Some (endpoint_host ep)))]).
  by rewrite <- !app_assoc.
Qed.

(** The websocket of a pass does not open, with [reconnect]: the handler
    logs, sleeps, asks to leave the channel, and the pass ends in
    [continue]. *)
Lemma closed_websocket_retries (o : WsOpen) (i : Z) (c : VoiceClient) :
  is_Some (channel c) → open_fails o →
  ∃ c',
    try_except
      (let* w := connect_websocket false o in
       modify (set_ws (Some w));; ret true)
      (λ e, if closed_or_timeout e
            then Some (emit (EvLog LogRetryingConnect);;
                       emit (EvSleep (1 + i * 2));;
                       voice_disconnect;; ret false)
            else None) c
    = (Return false, c') ∧
    moved 0 [EvLog LogRetryingConnect; EvSleep (1 + i * 2);
             EvLog LogHandshakeTerminated; EvChangeVoiceState None] c c'.
Proof.
  intros [ch Hch] Hf.
  destruct o as [id|e|e]; cbn [open_fails] in Hf; [done | |].
  - eexists. split.
    + unfold try_except, connect_websocket, voice_disconnect, bind, raise,
        modify, emit, ret, get.
      rewrite Hf. cbn. rewrite Hch. reflexivity.
    + unfold moved. cbn. rewrite <- !app_assoc.
      split_and!; try done. lia.
  - eexists. split.
    + unfold try_except, connect_websocket, voice_disconnect, bind, raise,
        modify, emit, ret, get.
      rewrite Hf. cbn. rewrite Hch. reflexivity.
    + unfold moved. cbn. rewrite <- !app_assoc.
      split_and!; try done. lia.
Qed.

(** A pass of the loop of [connect] whose handshake completes and whose
    websocket does not open, with [reconnect]: the next pass follows. *)
Lemma attempt_continues (env : Z → Attempt) (left : nat) (i : Z)
  (c : VoiceClient) :
  is_Some (channel c) → _potentially_reconnecting c = false →
  handshake_then_closed (env i) →
  ∃ c', connect_attempts true env (S left) i c
        = connect_attempts true env left (i + 1) c' ∧
        attempt_failed i c c'.
Proof.
  intros Hch Hp [(d1 & d2 & tok & ep & Ha & Ht & He) Hf].
  pose proof (handshake_moves c d1 d2 tok ep) as M1.
  cbn [connect_attempts].
  rewrite (bind_exec_return prepare_handshake _ c tt) by reflexivity.
  rewrite (bind_exec_return voice_connect _ _ tt) by reflexivity.
  unfold bind at 1.
  rewrite (handshake_wait _ d1 d2 tok ep) by done.
  cbn [negb].
  rewrite (bind_exec_return finish_handshake _ _ tt) by reflexivity.
  remember (exec finish_handshake _) as c3 eqn:E3.
  assert (Hch3 : is_Some (channel c3))
    by (destruct M1 as (_ & _ & -> & _); done).
  destruct (closed_websocket_retries (att_open (env i)) i c3 Hch3 Hf)
    as (c4 & E4 & M2).
  exists c4. split.
  - unfold bind at 1. by rewrite E4.
  - pose proof (moved_trans _ _ _ _ _ _ _ M1 M2)
      as (G1 & G2 & G3 & G4 & G5 & G6 & G7).
    unfold attempt_failed. rewrite G1, G2, G3, G4, G5, G6.
    split_and!; try done.
    eexists. split; [exact G7 |]. split; reflexivity.
Qed.

Lemma sleeps_app (t1 t2 : list Event) :
  sleeps (t1 ++ t2) = sleeps t1 ++ sleeps t2.
Proof. apply omap_app. Qed.

(** Passes that all end in [continue] use the loop up. *)
Lemma attempts_all_fail (env : Z → Attempt) (left : nat) (i : Z)
  (c : VoiceClient) :
  is_Some (channel c) → _potentially_reconnecting c = false →
  (∀ j, i ≤ j < i + Z.of_nat left → handshake_then_closed (env j)) →
  ∃ c', connect_attempts true env left i c = (Return tt, c') ∧
        _connections c' = _connections c + Z.of_nat left ∧
        channel c' = channel c ∧ _runner c' = _runner c ∧ ws c' = ws c ∧
        timeout c' = timeout c ∧
        ∃ evs, trace c' = trace c ++ evs ∧ sleeps evs = backoff left i ∧
               tasks_created evs = 0%nat.
Proof.
  revert i c. induction left as [|left IH]; intros i c Hch Hp Henv.
  - exists c. split; [done |]. split_and!; try done; [lia |].
    exists []. by rewrite app_nil_r.
  - destruct (attempt_continues env left i c Hch Hp) as (c1 & E & A);
      [apply Henv; lia |].
    destruct A as (A1 & A2 & A3 & A4 & A5 & A6 & evs1 & A7 & A8 & A9).
    destruct (IH (i + 1) c1) as (c2 & E2 & B1 & B3 & B4 & B5 & B6 & evs2 & B7 & B8 & B9).
    { by rewrite A3. }
    { done. }
    { intros j Hj. apply Henv. lia. }
    exists c2. split; [by rewrite E |].
    rewrite B1, B3, B4, B5, B6, A1, A3, A4, A5, A6.
    split_and!; try done; [lia |].
    exists (evs1 ++ evs2). rewrite B7, A7, app_assoc.
    split_and!; [done | |].
    + rewrite sleeps_app, A8, B8. done.
    + rewrite tasks_created_app, A9, B9. done.
Qed.

(** X24: with [reconnect], when the handshake completes but the websocket
    fails to open with a closed connection or a timeout in each of the
    five passes, [connect] does not raise: the loop runs out and the
    method returns as after a success, having slept 1, 3, 5, 7 and 9
    seconds, counted five handshakes and left the websocket attribute as
    it was; it then starts the poll task, unless there is one. *)
Theorem connect_gives_up_quietly (timeout : Z) (env : Z → Attempt)
  (c : VoiceClient) :
  is_Some (channel c) → _potentially_reconnecting c = false →
  (∀ i, 0 ≤ i < 5 → handshake_then_closed (env i)) →
  let c' := exec (connect true timeout env) c in
  answer (connect true timeout env) c = Return tt ∧
  _connections c' = _connections c + 5 ∧
  ws c' = ws c ∧ channel c' = channel c ∧ _runner c' = true ∧
  ∃ evs, trace c' = trace c ++ evs ∧ sleeps evs = [1; 3; 5; 7; 9] ∧
         tasks_created evs = if _runner c then 0%nat else 1%nat.
Proof.
  intros Hch Hp Henv c'. subst c'.
  unfold answer, exec. rewrite connect_unfold.
  remember (set_timeout timeout
              (exec (emit (EvLog LogConnecting))
                 (exec (emit (EvCall (m_connect true))) c))) as c0 eqn:E0.
  assert (F : _connections c0 = _connections c ∧ channel c0 = channel c ∧
              _runner c0 = _runner c ∧ ws c0 = ws c ∧
              _potentially_reconnecting c0 = _potentially_reconnecting c ∧
              trace c0
              = trace c ++ [EvCall (m_connect true); EvLog LogConnecting]).
  { subst c0. split_and!; try reflexivity.
    change (trace _)
      with ((trace c ++ [EvCall (m_connect true)]) ++ [EvLog LogConnecting])
      at 1.
    by rewrite <- app_assoc. }
  destruct F as (F1 & F2 & F3 & F4 & F5 & F6).
  destruct (attempts_all_fail env 5 0 c0)
    as (c5 & E & B1 & B3 & B4 & B5 & B6 & evs & B7 & B8 & B9).
  { by rewrite F2. }
  { by rewrite F5. }
  { intros j Hj. apply Henv. lia. }
  rewrite E. change (backoff 5 0) with [1; 3; 5; 7; 9] in B8.
  destruct (_runner c5) eqn:Er; cbn [fst snd].
  - rewrite B1, B5, B3, F1, F4, F2. rewrite <- F3, <- B4, ?Er.
    split_and!; try done.
    exists ([EvCall (m_connect true); EvLog LogConnecting] ++ evs).
    rewrite B7, F6, <- app_assoc, sleeps_app, tasks_created_app, B8, B9. done.
  - rewrite <- F3, <- B4, ?Er.
    split_and!; try reflexivity.
    + change (_connections _) with (_connections c5) at 1. rewrite B1, F1. done.
    + change (ws _) with (ws c5) at 1. by rewrite B5, F4.
    + change (channel _) with (channel c5) at 1. by rewrite B3, F2.
    + exists ([EvCall (m_connect true); EvLog LogConnecting] ++ evs ++
              [EvCreateTask]).
      change (trace _) with (trace c5 ++ [EvCreateTask]) at 1.
      rewrite B7, F6, <- !app_assoc.
      rewrite !sleeps_app, !tasks_created_app, B8, B9. done.
Qed.

End ConnectFacts.

Lemma connect_gives_up_quietly_witness :
  let SC := example_cache in
  let c := connected_client in
  let env := λ _ : Z,
    mkAttempt
      [VoiceStateUpdate (mkVoiceStateData "session" (Some 5));
       VoiceServerUpdate
         (mkVoiceServerData (Some "new-token") (Some 1) None
            (Some "eu.example:443"))]
      (WsPollRaises (ConnectionClosed 4006)) in
  let c' := exec (connect true 30 env) c in
  answer (connect true 30 env) c = Return tt ∧
  _connections c' = _connections c + 5 ∧
  ws c' = ws c ∧ channel c' = channel c ∧ _runner c' = true ∧
  ∃ evs, trace c' = trace c ++ evs ∧ sleeps evs = [1; 3; 5; 7; 9] ∧
         tasks_created evs = if _runner c then 0%nat else 1%nat.
Proof.
  intros SC c env.
  apply (@connect_gives_up_quietly SC 30 env c);
    [by eexists | reflexivity |].
  intros i Hi. split; [| reflexivity].
  do 4 eexists. split_and!; [eexists; left; reflexivity | reflexivity..].
Defined.

(** ** The first pass of [connect] *)

Section ConnectOutcomes.
Context {SC : StateCache}.

(** A teardown neither sleeps nor starts a task. *)
Lemma teardown_no_sleep (evs : list Event) :
  forallb teardown_event evs = true →
  sleeps evs = [] ∧ tasks_created evs = 0%nat.
Proof.
  induction evs as [|ev evs IH]; [done |].
  cbn [forallb]. intros [H1 H2]%andb_true_iff.
  destruct (IH H2) as [IS IT].
  unfold sleeps, tasks_created in *.
  destruct ev; try discriminate H1; cbn [omap list_omap List.filter
    is_create_task length]; rewrite ?IS, ?IT; done.
Qed.

(** A forced [disconnect] raises only for want of a channel. *)
Lemma disconnect_forced_answer (c : VoiceClient) :
  answer (disconnect true) c
  = match channel c with
    | Some _ => Return tt
    | None => Raise AttributeError
    end.
Proof.
  unfold answer. rewrite disconnect_unfold. cbn [negb andb].
  by destruct (ws c), (channel c), (socket c).
Qed.

(** Session notifications alone do not end the wait of [connect]: they
    store the session id and set their own flag. *)
Lemma wait_times_out (ds : list Delivery) (c : VoiceClient) :
  _handshaking c = true → _potentially_reconnecting c = false →
  _voice_server_complete c = false →
  forallb is_state_update ds = true →
  ∃ b s,
    wait_for (λ c, _voice_state_complete c && _voice_server_complete c) ds c
    = (Return false, set_voice_state_complete b (set_session_id s c)).
Proof.
  revert c. induction ds as [|d ds IH]; intros c Hh Hp Hv Hds.
  - exists (_voice_state_complete c), (session_id c).
    rewrite wait_for_nil, Hv, andb_false_r. by destruct c.
  - cbn [forallb] in Hds. apply andb_true_iff in Hds as [Hd Hds].
    destruct d as [data|data]; [| done].
    rewrite wait_for_cons, Hv, andb_false_r, deliver_state. unfold exec.
    rewrite (state_update_in_handshake data c Hh Hp). cbn [snd].
    destruct (IH (set_voice_state_complete true
                    (set_session_id (Some (vs_session_id data)) c)))
      as (b & s & E); [done.. |].
    exists b, s. rewrite E. reflexivity.
Qed.

(** X25: a wait that times out is not retried, with or without
    [reconnect].  When nothing but session notifications arrive in the
    first pass, [connect] makes that one pass only: it calls
    [disconnect(force=True)] and raises the timeout, or [AttributeError]
    in its place when the client has no channel.  One handshake was
    counted, [_handshaking] stays set, the client is not connected, nothing
    was slept and no poll task was started. *)
Theorem connect_timeout_not_retried (reconnect : bool) (timeout : Z)
  (env : Z → Attempt) (c : VoiceClient) :
  _potentially_reconnecting c = false →
  forallb is_state_update (att_deliveries (env 0)) = true →
  let c' := exec (connect reconnect timeout env) c in
  answer (connect reconnect timeout env) c
  = Raise (match channel c with
           | Some _ => TimeoutError
           | None => AttributeError
           end) ∧
  _connections c' = _connections c + 1 ∧
  _handshaking c' = true ∧ _connected c' = false ∧
  _runner c' = _runner c ∧ ws c' = ws c ∧
  ∃ evs, trace c' = trace c ++ evs ∧ EvCall (m_disconnect true) ∈ evs ∧
         sleeps evs = [] ∧ tasks_created evs = 0%nat.
Proof.
  intros Hp Hds c'. subst c'.
  set (c1 := exec voice_connect
               (exec prepare_handshake
                  (set_timeout timeout
                     (exec (emit (EvLog LogConnecting))
                        (exec (emit (EvCall (m_connect reconnect))) c))))).
  destruct (wait_times_out (att_deliveries (env 0)) c1) as (b & s & Ew);
    [reflexivity | exact Hp | reflexivity | exact Hds |].
  remember (set_voice_state_complete b (set_session_id s c1)) as c2 eqn:E2.
  assert (E : connect reconnect timeout env c
              = (Raise (match channel c with
                        | Some _ => TimeoutError
                        | None => AttributeError
                        end), exec (disconnect true) c2)).
  { rewrite connect_unfold. cbn [connect_attempts].
    rewrite (bind_exec_return prepare_handshake _ _ tt) by reflexivity.
    rewrite (bind_exec_return voice_connect _ _ tt) by reflexivity.
    unfold bind at 1. fold c1. rewrite Ew. cbn [negb].
    pose proof (disconnect_forced_answer c2) as Ha.
    assert (Hc : channel c2 = channel c) by (subst c2; reflexivity).
    rewrite Hc in Ha. unfold answer in Ha. unfold bind, raise, exec.
    destruct (disconnect true c2) as [[[]|e] c3]; cbn [fst snd] in *.
    - by destruct (channel c).
    - destruct (channel c); [done |]. by injection Ha as ->. }
  unfold answer, exec. rewrite E. cbn [fst snd].
  fold (exec (disconnect true) c2).
  destruct (disconnect_other_fields true c2)
    as (Eh & _ & _ & _ & En & Er & Ews & _).
  pose proof (disconnect_clears_connected true c2) as Ec.
  destruct (disconnect_trace true c2) as (evs & Et & Htd).
  destruct (teardown_no_sleep evs Htd) as [Hs Hn].
  rewrite Eh, En, Er, Ews, Ec, Et.
  split_and!; try (subst c2; reflexivity).
  exists ([EvCall (m_connect reconnect); EvLog LogConnecting;
           EvLog (LogStartingHandshake (_connections c + 1));
           EvChangeVoiceState (channel c)] ++
          EvCall (m_disconnect true) :: evs).
  split_and!.
  - rewrite app_assoc. f_equal. subst c2.
    change (trace _)
      with ((((trace c ++ [EvCall (m_connect reconnect)]) ++
              [EvLog LogConnecting]) ++
             [EvLog (LogStartingHandshake (_connections c + 1))]) ++
            [EvChangeVoiceState (channel c)]) at 1.
    by rewrite <- !app_assoc.
  - apply elem_of_app. right. apply list_elem_of_here.
  - rewrite sleeps_app. change (sleeps (_ :: evs)) with (sleeps evs).
    by rewrite Hs.
  - rewrite tasks_created_app.
    change (tasks_created (_ :: evs)) with (tasks_created evs).
    by rewrite Hn.
Qed.

(** X26: when both notifications arrive in the first pass, in either
    order, and the websocket opens, [connect] returns after that one pass:
    the client is connected on the new websocket, opened without the
    resume flag, the handshake state is cleared, the token, the endpoint
    host and the session id are the notified ones, nothing was slept, and
    the poll task is started unless there is one. *)
Theorem connect_first_pass (reconnect : bool) (timeout : Z)
  (env : Z → Attempt) (c : VoiceClient) (d1 : VoiceStateData)
  (d2 : VoiceServerData) (tok ep : string) (id : Z) :
  _potentially_reconnecting c = false →
  handshake_arrives d1 d2 (att_deliveries (env 0)) →
  vsrv_token d2 = Some tok → vsrv_endpoint d2 = Some ep →
  att_open (env 0) = WsOpened id →
  let c' := exec (connect reconnect timeout env) c in
  answer (connect reconnect timeout env) c = Return tt ∧
  ws c' = Some (mkWebSocket id false) ∧ _connected c' = true ∧
  _handshaking c' = false ∧
  _voice_state_complete c' = false ∧ _voice_server_complete c' = false ∧
  token c' = Some tok ∧ endpoint c' = Some (endpoint_host ep) ∧
  session_id c' = Some (vs_session_id d1) ∧
  socket c' = Some (mkSocket false false) ∧
  _connections c' = _connections c + 1 ∧ _runner c' = true ∧
  trace c'
  = trace c ++ [EvCall (m_connect reconnect); EvLog LogConnecting;
                EvLog (LogStartingHandshake (_connections c + 1));
                EvChangeVoiceState (channel c);
                EvLog (LogHandshakeComplete (Some (endpoint_host ep)))] ++
               (if _runner c then [] else [EvCreateTask]).
Proof.
  intros Hp Ha Ht He Ho c'. subst c'.
  set (c1 := exec voice_connect
               (exec prepare_handshake
                  (set_timeout timeout
                     (exec (emit (EvLog LogConnecting))
                        (exec (emit (EvCall (m_connect reconnect))) c))))).
  set (c3 := set_ws (Some (mkWebSocket id false))
               (set_connected true
                  (set_connected false
                     (exec finish_handshake (handshaken d1 d2 tok ep c1))))).
  assert (E : connect reconnect timeout env c
              = if _runner c then (Return tt, c3)
                else (Return tt,
                      set_runner true
                        (set_trace (trace c3 ++ [EvCreateTask]) c3))).
  { rewrite connect_unfold. cbn [connect_attempts].
    rewrite (bind_exec_return prepare_handshake _ _ tt) by reflexivity.
    rewrite (bind_exec_return voice_connect _ _ tt) by reflexivity.
    unfold bind at 1. fold c1.
    rewrite (handshake_wait c1 d1 d2 tok ep) by done.
    cbn [negb].
    rewrite (bind_exec_return finish_handshake _ _ tt) by reflexivity.
    rewrite Ho.
    unfold bind at 1, try_except, connect_websocket.
    unfold bind, modify, ret. fold c3. reflexivity. }
  assert (Et : trace c3
               = trace c ++ [EvCall (m_connect reconnect); EvLog LogConnecting;
                   EvLog (LogStartingHandshake (_connections c + 1));
                   EvChangeVoiceState (channel c);
                   EvLog (LogHandshakeComplete (Some (endpoint_host ep)))]).
  { change (trace c3)
      with (((((trace c ++ [EvCall (m_connect reconnect)]) ++
               [EvLog LogConnecting]) ++
              [EvLog (LogStartingHandshake (_connections c + 1))]) ++
             [EvChangeVoiceState (channel c)]) ++
            [EvLog (LogHandshakeComplete (Some (endpoint_host ep)))]).
    by rewrite <- !app_assoc. }
  unfold answer, exec. rewrite E.
  destruct (_runner c) eqn:Er; cbn [fst snd].
  - split_and!; try reflexivity; [exact Er | by rewrite Et, app_nil_r].
  - split_and!; try reflexivity.
    change (trace _) with (trace c3 ++ [EvCreateTask]) at 1.
    by rewrite Et, <- app_assoc.
Qed.

End ConnectOutcomes.

Lemma connect_timeout_not_retried_witness :
  let SC := example_cache in
  let c := connected_client in
  let env := λ _ : Z,
    mkAttempt [VoiceStateUpdate (mkVoiceStateData "session" (Some 5))]
      (WsOpened 4) in
  let c' := exec (connect true 30 env) c in
  answer (connect true 30 env) c
  = Raise (match channel c with
           | Some _ => TimeoutError
           | None => AttributeError
           end) ∧
  _connections c' = _connections c + 1 ∧
  _handshaking c' = true ∧ _connected c' = false ∧
  _runner c' = _runner c ∧ ws c' = ws c ∧
  ∃ evs, trace c' = trace c ++ evs ∧ EvCall (m_disconnect true) ∈ evs ∧
         sleeps evs = [] ∧ tasks_created evs = 0%nat.
Proof.
  intros SC c env.
  apply (@connect_timeout_not_retried SC true 30 env c); reflexivity.
Defined.

Lemma connect_first_pass_witness :
  let SC := example_cache in
  let c := connected_client in
  let d1 := mkVoiceStateData "session" (Some 5) in
  let d2 := mkVoiceServerData (Some "new-token") (Some 1) None
              (Some "eu.example:443") in
  let env := λ _ : Z,
    mkAttempt [VoiceServerUpdate d2; VoiceStateUpdate d1] (WsOpened 4) in
  let c' := exec (connect false 30 env) c in
  answer (connect false 30 env) c = Return tt ∧
  ws c' = Some (mkWebSocket 4 false) ∧ _connected c' = true ∧
  _handshaking c' = false ∧
  _voice_state_complete c' = false ∧ _voice_server_complete c' = false ∧
  token c' = Some "new-token" ∧
  endpoint c' = Some (endpoint_host "eu.example:443") ∧
  session_id c' = Some (vs_session_id d1) ∧
  socket c' = Some (mkSocket false false) ∧
  _connections c' = _connections c + 1 ∧ _runner c' = true ∧
  trace c'
  = trace c ++ [EvCall (m_connect false); EvLog LogConnecting;
                EvLog (LogStartingHandshake (_connections c + 1));
                EvChangeVoiceState (channel c);
                EvLog (LogHandshakeComplete
                         (Some (endpoint_host "eu.example:443")))] ++
               (if _runner c then [] else [EvCreateTask]).
Proof.
  intros SC c d1 d2 env.
  apply (@connect_first_pass SC false 30 env c d1 d2 "new-token"
           "eu.example:443" 4);
    [reflexivity | eexists; right; reflexivity | reflexivity..].
Defined.

(** ** The webhook messages of [fetch_mutuals.py] *)

Section WebhookFacts.
Context {Embed : Type} (len : Embed → nat).

(** The slices of the first [m] steps are the first [m * step] embeds. *)
Lemma slices_concat (step m : nat) (l : list Embed) :
  concat ((λ i, slice i (i + step) l) <$> ((λ k, k * step)%nat <$> seq 0 m))
  = take (m * step) l.
Proof.
  induction m as [|m IH]; [done |].
  rewrite seq_S, !fmap_app, concat_app, IH. cbn [fmap list_fmap concat].
  rewrite app_nil_r. unfold slice.
  replace (0 + m)%nat with m by lia.
  replace (m * step + step - m * step)%nat with step by lia.
  rewrite take_take_drop. f_equal. lia.
Qed.

(** The number of steps [range] makes reaches the end, and every step
    starts inside the list. *)
Lemma steps_cover (n step : nat) :
  (0 < step)%nat → (n ≤ (n + step - 1) / step * step)%nat.
Proof.
  intros Hs.
  pose proof (Nat.div_mod (n + step - 1) step ltac:(lia)) as Hd.
  pose proof (Nat.mod_upper_bound (n + step - 1) step ltac:(lia)) as Hm.
  nia.
Qed.

Lemma step_inside (n step k : nat) :
  (0 < step)%nat → (k < (n + step - 1) / step)%nat → (k * step < n)%nat.
Proof.
  intros Hs Hk.
  pose proof (Nat.Div0.mul_div_le (n + step - 1) step) as Hd.
  nia.
Qed.

(** X27: the embeds collected by [on_ready] are all handed to
    [send_webhook], each exactly once and in the order collected, whatever
    their lengths: the [range] of the split never has a zero step, the
    slices put together are the list, and no message is empty; without
    embeds no message is sent. *)
Theorem webhook_batches_cover (embeds : list Embed) :
  ∃ batches,
    webhook_batches len embeds = Return batches ∧
    concat batches = embeds ∧
    Forall (λ b, b ≠ []) batches ∧
    (batches = [] ↔ embeds = []).
Proof.
  unfold webhook_batches.
  destruct (0 <? length embeds)%nat eqn:En.
  - apply Nat.ltb_lt in En.
    assert (Hne : embeds ≠ []) by (intros ->; cbn in En; lia).
    destruct (6000 <? embed_sum len embeds) eqn:Es.
    + apply Z.ltb_lt in Es.
      assert (Hstep : (0 < Z.to_nat (embed_sum len embeds / 6000))%nat).
      { pose proof (Z.div_le_lower_bound (embed_sum len embeds) 6000 1
                      ltac:(lia) ltac:(lia)). lia. }
      set (step := Z.to_nat (embed_sum len embeds / 6000)) in *.
      unfold range_by. destruct (step =? 0)%nat eqn:E0.
      { apply Nat.eqb_eq in E0. lia. }
      eexists. split; [reflexivity |]. split_and!.
      * rewrite slices_concat. apply take_ge.
        by apply steps_cover.
      * apply Forall_fmap, Forall_fmap, Forall_forall.
        intros k Hk%elem_of_seq. cbn. unfold slice.
        pose proof (step_inside (length embeds) step k Hstep ltac:(lia)) as Hi.
        replace (k * step + step - k * step)%nat with step by lia.
        intros Hnil. apply (f_equal length) in Hnil.
        rewrite length_take, length_drop in Hnil. cbn in Hnil. lia.
      * split; [| done]. intros Hb. exfalso.
        apply fmap_nil_inv, fmap_nil_inv in Hb.
        destruct ((length embeds + step - 1) / step)%nat eqn:Ed; [| done].
        pose proof (steps_cover (length embeds) step Hstep). lia.
    + exists [embeds]. split_and!; [done | by cbn; rewrite app_nil_r | | done].
      by apply Forall_singleton.
  - apply Nat.ltb_ge in En. destruct embeds; [| cbn in En; lia].
    exists []. split_and!; done.
Qed.

(** X28: the split is by the number of embeds, not by their lengths, and
    the step grows with the total.  Once the total is at least 6000 times
    the number of embeds, everything goes out as one message, although the
    total is above the limit the split is there for. *)
Theorem webhook_one_batch_above_limit (embeds : list Embed) :
  6000 < embed_sum len embeds →
  6000 * Z.of_nat (length embeds) ≤ embed_sum len embeds →
  webhook_batches len embeds = Return [embeds].
Proof.
  intros Hs Hn.
  assert (Hne : (0 < length embeds)%nat).
  { destruct embeds; [cbn in Hs; lia | cbn; lia]. }
  unfold webhook_batches.
  assert (Hb : (0 <? length embeds)%nat = true) by (by apply Nat.ltb_lt).
  assert (Hs' : (6000 <? embed_sum len embeds) = true) by (by apply Z.ltb_lt).
  rewrite Hb, Hs'.
  assert (Hstep : (length embeds ≤ Z.to_nat (embed_sum len embeds / 6000))%nat).
  { pose proof (Z.div_le_lower_bound (embed_sum len embeds) 6000
                  (Z.of_nat (length embeds)) ltac:(lia) ltac:(lia)). lia. }
  set (step := Z.to_nat (embed_sum len embeds / 6000)) in *.
  unfold range_by. destruct (step =? 0)%nat eqn:E0.
  { apply Nat.eqb_eq in E0. lia. }
  assert (Hd : ((length embeds + step - 1) / step = 1)%nat).
  { symmetry. apply (Nat.div_unique _ _ 1 (length embeds - 1)); lia. }
  rewrite Hd. cbn [seq fmap list_fmap]. unfold slice.
  replace (0 * step + step - 0 * step)%nat with step by lia.
  cbn [Nat.mul drop]. by rewrite take_ge.
Qed.

End WebhookFacts.

Lemma webhook_one_batch_above_limit_witness :
  let embeds := [6000%N; 6000%N; 6000%N] in
  webhook_batches N.to_nat embeds = Return [embeds].
Proof.
  intros embeds.
  apply (webhook_one_batch_above_limit N.to_nat embeds);
    unfold embed_sum; cbn [foldr length embeds]; lia.
Defined.
